(** * Voice-bot dashboard: the scripted conversation / sentiment simulator

    A shallow embedding of the three timed components of the dashboard

    - [SentimentAnalysisPanel]  (components/SentimentAnalysisPanel.tsx),
    - [TypewriterText]          (components/TypewriterText.tsx),
    - [VoiceChatWindow]         (components/VoiceChatWindow.tsx),

    together with the properties their specification states about them,
    and of the [VoiceAnimation] of a message and the filter of the
    [SentimentAnalysisTable].

    React is embedded as follows.  A [useState] cell is a record field.  A
    [useEffect] body is a function that is run after a render in which one of
    its dependencies changed (and after the first render), preceded by the
    cleanup its previous run returned.  [setTimeout] / [setInterval] put a
    closure in a timer table; a closure is represented by the values it
    captured.  Each callback runs to completion, and the renders it causes
    are committed, before the next callback runs.  Time is in milliseconds. *)

From Stdlib Require Import List String Ascii ZArith QArith Qminmax Qround Lia Lqa
  ZifyNat Bool Arith.
Import ListNotations.

Local Open Scope string_scope.
Local Open Scope list_scope.

(** The union type ['positive' | 'neutral' | 'negative']. *)
Inductive Sentiment : Type := positive | neutral | negative.

Definition Sentiment_eqb (a b : Sentiment) : bool :=
  match a, b with
  | positive, positive | neutral, neutral | negative, negative => true
  | _, _ => false
  end.

(** [Array.prototype.includes] on an array of strings. *)
Definition includes (xs : list string) (x : string) : bool :=
  existsb (String.eqb x) xs.

(** [arr.slice(-n)]: the last [n] elements. *)
Definition slice_last {A : Type} (n : nat) (l : list A) : list A :=
  skipn (List.length l - n) l.

(** Iterating a callback [n] times. *)
Fixpoint iter {A : Type} (n : nat) (f : A -> A) (a : A) : A :=
  match n with
  | O => a
  | S k => f (iter k f a)
  end.

(* ================================================================== *)
(** * SentimentAnalysisPanel *)

Module SentimentPanel.

(** One entry of [sentimentProgression]. *)
Record SentimentPoint : Type := {
  time : string;
  sentiment : Z;
  pt_emotions : list string;
  pt_currentSentiment : Sentiment;
  confidence : Z
}.

Definition sentimentProgression : list SentimentPoint := [
  {| time := "0:00"; sentiment := 70; pt_emotions := ["Calm"; "Polite"];
     pt_currentSentiment := neutral; confidence := 85 |};
  {| time := "0:15"; sentiment := 30; pt_emotions := ["Frustrated"; "Urgent"];
     pt_currentSentiment := negative; confidence := 92 |};
  {| time := "0:45"; sentiment := 40; pt_emotions := ["Concerned"; "Hopeful"];
     pt_currentSentiment := neutral; confidence := 78 |};
  {| time := "1:15"; sentiment := 45; pt_emotions := ["Cooperative"; "Patient"];
     pt_currentSentiment := neutral; confidence := 82 |};
  {| time := "1:45"; sentiment := 50; pt_emotions := ["Understanding"; "Attentive"];
     pt_currentSentiment := neutral; confidence := 88 |};
  {| time := "2:30"; sentiment := 25; pt_emotions := ["Angry"; "Impatient"];
     pt_currentSentiment := negative; confidence := 95 |};
  {| time := "3:15"; sentiment := 55; pt_emotions := ["Cautious"; "Skeptical"];
     pt_currentSentiment := neutral; confidence := 86 |};
  {| time := "4:00"; sentiment := 45; pt_emotions := ["Worried"; "Questioning"];
     pt_currentSentiment := neutral; confidence := 83 |};
  {| time := "4:45"; sentiment := 65; pt_emotions := ["Relieved"; "Optimistic"];
     pt_currentSentiment := neutral; confidence := 89 |};
  {| time := "5:30"; sentiment := 75; pt_emotions := ["Satisfied"; "Grateful"];
     pt_currentSentiment := positive; confidence := 91 |};
  {| time := "6:15"; sentiment := 85; pt_emotions := ["Happy"; "Appreciative"];
     pt_currentSentiment := positive; confidence := 94 |}
].

(** An entry of the [emotions] state. *)
Record Emotion : Type := {
  name : string;
  active : bool;
  color : string
}.

Definition getEmotionColor (emotion : string) : string :=
  if includes ["Frustrated"; "Angry"] emotion then "bg-red-500"
  else if includes ["Concerned"; "Cautious"; "Skeptical"] emotion then "bg-orange-500"
  else if includes ["Happy"; "Satisfied"; "Grateful"; "Appreciative"] emotion
       then "bg-green-500"
  else if includes ["Urgent"; "Impatient"] emotion then "bg-yellow-500"
  else if includes ["Relieved"; "Hopeful"] emotion then "bg-emerald-500"
  else "bg-blue-500".

Definition getSentimentProgress (s : Sentiment) : Z :=
  match s with
  | positive => 85
  | negative => 25
  | neutral => 50
  end.

Definition defaultEmotions : list string :=
  ["Attentive"; "Focused"; "Engaged"; "Responsive"].

(** The pair ([emotionSet], [newEmotions]) the two [forEach] loops of the
    tick update.  The set is only ever asked for membership. *)
Definition Acc : Type := (list string * list Emotion)%type.

(** Body of [nextPoint.emotions.forEach]; a string is truthy when it is
    not empty. *)
Definition addAuthored (acc : Acc) (emotion : string) : Acc :=
  let '(emotionSet, newEmotions) := acc in
  if negb (String.eqb emotion "") && negb (includes emotionSet emotion) then
    (emotion :: emotionSet,
     newEmotions ++ [{| name := emotion; active := true;
                        color := getEmotionColor emotion |}])
  else acc.

(** Body of [defaultEmotions.forEach]. *)
Definition addDefault (nextPoint : SentimentPoint) (acc : Acc)
    (emotion : string) : Acc :=
  let '(emotionSet, newEmotions) := acc in
  if (List.length newEmotions <? 4)%nat && negb (includes emotionSet emotion) then
    (emotion :: emotionSet,
     newEmotions ++ [{| name := emotion;
                        active := Sentiment_eqb (pt_currentSentiment nextPoint) positive;
                        color := "bg-blue-500" |}])
  else acc.

Definition rebuildEmotions (nextPoint : SentimentPoint) : list Emotion :=
  snd (fold_left (addDefault nextPoint) defaultEmotions
         (fold_left addAuthored (pt_emotions nextPoint) ([], []))).

(** The component's [useState] cells. *)
Record Panel : Type := {
  currentSentiment : Sentiment;
  confidenceScore : Z;
  sentimentHistory : list SentimentPoint;
  currentProgressionIndex : nat;
  emotions : list Emotion
}.

Section Script.

(** The tracker is written against the module constant
    [sentimentProgression]; the script is a section variable so that the
    lemmas below hold for every script, and is instantiated at the end. *)
Variable script : list SentimentPoint.

(** The initial values given to [useState]. *)
Definition initial : Panel := {|
  currentSentiment := neutral;
  confidenceScore := 85;
  sentimentHistory := firstn 1 script;
  currentProgressionIndex := 0;
  emotions := [
    {| name := "Neutral"; active := true; color := "bg-blue-500" |};
    {| name := "Polite"; active := true; color := "bg-green-500" |};
    {| name := "Cooperative"; active := false; color := "bg-green-500" |};
    {| name := "Urgent"; active := false; color := "bg-yellow-500" |}
  ]
|}.

(** The callback given to [setInterval].  In JavaScript the guard is
    [currentProgressionIndex < sentimentProgression.length - 1] over
    numbers; on [nat] the truncated subtraction gives the same answer,
    because the index is never negative. *)
Definition tick (s : Panel) : Panel :=
  if (currentProgressionIndex s <? List.length script - 1)%nat then
    let nextIndex := (currentProgressionIndex s + 1)%nat in
    match nth_error script nextIndex with
    | Some nextPoint =>
        {| currentSentiment := pt_currentSentiment nextPoint;
           confidenceScore := confidence nextPoint;
           sentimentHistory := slice_last 8 (sentimentHistory s ++ [nextPoint]);
           currentProgressionIndex := nextIndex;
           emotions := rebuildEmotions nextPoint |}
    | None => s
    end
  else s.

(** The panel together with its interval timer: [clock] is the current
    time and [due] the time of the next tick.  The effect re-creates the
    interval whenever the index changed and the interval re-arms itself
    otherwise; both put the next tick 4000 ms after this one. *)
Record Timed : Type := {
  panel : Panel;
  clock : Z;
  due : Z
}.

Definition mount (now : Z) : Timed :=
  {| panel := initial; clock := now; due := now + 4000 |}.

Definition fireInterval (t : Timed) : Timed :=
  {| panel := tick (panel t); clock := due t; due := due t + 4000 |}.

End Script.

(** ** Vocabulary of the properties *)

Definition names (es : list Emotion) : list string := map name es.

(** The loops keep the tag list duplicate-free and inside the set. *)
Definition acc_ok (acc : Acc) : Prop :=
  NoDup (names (snd acc)) /\
  forall x, In x (names (snd acc)) -> In x (fst acc).

(** The set and the list hold the same names. *)
Definition acc_sync (acc : Acc) : Prop :=
  forall x, In x (fst acc) <-> In x (names (snd acc)).

(** The first [room] names of [pool] that are not in [present]. *)
Definition fillers (present pool : list string) (room : nat) : list string :=
  firstn room (filter (fun d => negb (includes present d)) pool).

(** A snapshot as the data model wants it: distinct, non-empty tags, no
    more than the four display slots. *)
Definition authored_ok (pt : SentimentPoint) : Prop :=
  NoDup (pt_emotions pt) /\ ~ In "" (pt_emotions pt) /\
  (List.length (pt_emotions pt) <= 4)%nat.

End SentimentPanel.

(* ================================================================== *)
(** * Strings and characters


    A JavaScript string is a sequence of UTF-16 code units and [text[i]]
    is one of them.  The embedding represents a code unit by an [ascii]
    and so covers the texts whose code units are below 256 (Latin-1). *)

Definition code (c : ascii) : nat := nat_of_ascii c.

Definition between (lo hi : nat) (c : ascii) : bool :=
  (lo <=? code c)%nat && (code c <=? hi)%nat.

(** [/[0-9]/.test(char)] *)
Definition isDigit (c : ascii) : bool := between 48 57 c.

(** the classes [a-z] and [A-Z] *)
Definition isLowerAZ (c : ascii) : bool := between 97 122 c.
Definition isUpperAZ (c : ascii) : bool := between 65 90 c.

(** The class [\s]: TAB, LF, VT, FF, CR, SPACE and NO-BREAK SPACE are its
    members below 256. *)
Definition isWhiteSpace (c : ascii) : bool :=
  between 9 13 c || (code c =? 32)%nat || (code c =? 160)%nat.

(** [/[^a-zA-Z0-9\s]/.test(char)] *)
Definition isOtherSymbol (c : ascii) : bool :=
  negb (isLowerAZ c || isUpperAZ c || isDigit c || isWhiteSpace c).

(** [char.toLowerCase()]: below 256 the letters with a lower-case form
    are A-Z and the Latin-1 capitals U+00C0-U+00DE without U+00D7; the
    lower-case form is 32 further. *)
Definition toLowerCase (c : ascii) : ascii :=
  if isUpperAZ c || (between 192 222 c && negb (code c =? 215)%nat)
  then ascii_of_nat (code c + 32)
  else c.

(** [[...].includes(char)] on one-character strings. *)
Definition includesChar (xs : list ascii) (c : ascii) : bool :=
  existsb (Ascii.eqb c) xs.

(** [s.split(' ')] for a one-character separator: never empty. *)
Fixpoint split (sep : ascii) (s : string) : list string :=
  match s with
  | EmptyString => [EmptyString]
  | String c rest =>
      if Ascii.eqb c sep then EmptyString :: split sep rest
      else match split sep rest with
           | w :: ws => String c w :: ws
           | [] => [String c EmptyString]
           end
  end.

(** [fullText.substring(0, index).split(' ').pop() || ''] *)
Definition wordBefore (fullText : string) (index : nat) : string :=
  last (split " "%char (substring 0 index fullText)) EmptyString.

Definition sentenceEnd : list ascii := ["."; "!"; "?"]%char.
Definition midPunctuation : list ascii := [","; ";"; ":"]%char.
Definition commonLetters : list ascii :=
  ["e"; "t"; "a"; "o"; "i"; "n"; "s"; "h"; "r"]%char.

(** [s.trim()]: white space is removed at both ends. *)
Fixpoint trimStart (s : string) : string :=
  match s with
  | EmptyString => EmptyString
  | String c rest => if isWhiteSpace c then trimStart rest else s
  end.

Fixpoint trimEnd (s : string) : string :=
  match s with
  | EmptyString => EmptyString
  | String c rest =>
      let rest' := trimEnd rest in
      if isWhiteSpace c && String.eqb rest' EmptyString then EmptyString
      else String c rest'
  end.

Definition trim (s : string) : string := trimEnd (trimStart s).

(** A string is truthy when it is not empty. *)
Definition truthy (s : string) : bool := negb (String.eqb s EmptyString).

(** The characters of a string. *)
Definition chars (s : string) : list ascii := list_ascii_of_string s.

(* ================================================================== *)
(** * TypewriterText *)

Module Typewriter.

(** ** Props, state, timers *)

(** A callback prop is known by its identity only.  [speed] and [delay]
    default to 50 and 0 when the parent gives none; the props here are
    the values after defaulting. *)
Definition Callback : Type := nat.

Record Props : Type := {
  text : string;
  speed : Q;
  delay : Q;
  onStart : option Callback;
  onComplete : option Callback
}.

(** The three [useState] cells. *)
Record State : Type := {
  displayedText : string;
  currentIndex : nat;
  isTyping : bool
}.

Definition State_eqb (a b : State) : bool :=
  String.eqb (displayedText a) (displayedText b)
  && (currentIndex a =? currentIndex b)%nat
  && Bool.eqb (isTyping a) (isTyping b).

(** The closure given to [setTimeout]: the [currentIndex], [currentChar]
    and [onStart] of the render that created it, and the waiting time. *)
Record Timeout : Type := {
  t_index : nat;
  t_char : ascii;
  t_onStart : option Callback;
  t_ms : Q
}.

(** What the component does to the outside, in order. *)
Inductive Event : Type :=
| Scheduled (ms : Q) (c : ascii)   (* setTimeout(.., ms), to append c *)
| Cleared                          (* clearTimeout on a pending timer *)
| Started (cb : Callback)          (* onStart() *)
| Appended (c : ascii)             (* setDisplayedText(prev => prev + c) *)
| Reset                            (* the reset effect ran *)
| Completed (cb : Callback).       (* onComplete() *)

(** What outlives a render: the pending timeout of the reveal effect,
    the number of [Math.random()] calls made so far, and the events. *)
Record Runtime : Type := {
  timeout : option Timeout;
  draws : nat;
  log : list Event
}.

Record Instance : Type := {
  props : Props;
  state : State;
  runtime : Runtime
}.

Definition emit (es : list Event) (rt : Runtime) : Runtime :=
  {| timeout := timeout rt; draws := draws rt; log := log rt ++ es |}.

Definition call (cb : option Callback) (ev : Callback -> Event)
    (rt : Runtime) : Runtime :=
  match cb with
  | Some f => emit [ev f] rt
  | None => rt
  end.

(** [setIsTyping(false)] *)
Definition typingOff (st : State) : State :=
  {| displayedText := displayedText st; currentIndex := currentIndex st;
     isTyping := false |}.

Definition option_eqb (a b : option Callback) : bool :=
  match a, b with
  | Some x, Some y => (x =? y)%nat
  | None, None => true
  | _, _ => false
  end.

Section RandomSource.

(** [random n] is what the [n]-th call of [Math.random()] returns. *)
Variable random : nat -> Q.

(** [getTypingSpeed(char, index, fullText)], with [speed] from the props;
    the result comes with the number of [Math.random()] calls after it. *)
Definition getTypingSpeed (speed : Q) (char : ascii) (index : nat)
    (fullText : string) (n : nat) : Q * nat :=
  let baseSpeed := speed in
  if includesChar sentenceEnd char then (baseSpeed * 3, n)
  else if includesChar midPunctuation char then (baseSpeed * 2, n)
  else if Ascii.eqb char " " then
    if (7 <? String.length (wordBefore fullText index))%nat
    then (baseSpeed * 2, n)
    else (baseSpeed * 1.3, n)
  else if includesChar commonLetters (toLowerCase char) then (baseSpeed * 0.7, n)
  else if isDigit char then (baseSpeed * 1.4, n)
  else if isOtherSymbol char
          && negb (includesChar (sentenceEnd ++ midPunctuation) char)
       then (baseSpeed * 1.3, n)
  else
    let variation := (random n - 0.5) * 0.5 in
    (Qmax (baseSpeed * (1 + variation)) (baseSpeed * 0.3), S n).

(** The first effect, run for the render of [p] and [st]. It returns the
    runtime and whether it called [setIsTyping(false)]. *)
Definition revealEffect (p : Props) (st : State) (rt : Runtime)
    : Runtime * bool :=
  if (currentIndex st <? String.length (text p))%nat then
    match String.get (currentIndex st) (text p) with
    | Some currentChar =>
        let '(typingSpeed, n) :=
          getTypingSpeed (speed p) currentChar (currentIndex st) (text p)
                         (draws rt) in
        let ms := if (currentIndex st =? 0)%nat then delay p else typingSpeed in
        ({| timeout := Some {| t_index := currentIndex st;
                               t_char := currentChar;
                               t_onStart := onStart p;
                               t_ms := ms |};
            draws := n;
            log := log rt ++ [Scheduled ms currentChar] |}, false)
    | None => (rt, false)
    end
  else if (currentIndex st =? String.length (text p))%nat then
    (call (onComplete p) Completed rt, true)
  else (rt, false).

(** The cleanup of the first effect: [clearTimeout(timeoutId)].  Clearing
    a timer that has fired, or a run that set none, does nothing. *)
Definition revealCleanup (rt : Runtime) : Runtime :=
  match timeout rt with
  | Some _ => {| timeout := None; draws := draws rt; log := log rt ++ [Cleared] |}
  | None => rt
  end.

(** Dependency arrays: [[currentIndex, text, speed, delay, onComplete,
    onStart]] and [[text]]. *)
Definition revealDepsChanged (old : Props) (oldIndex : nat) (p : Props)
    (st : State) : bool :=
  negb ((oldIndex =? currentIndex st)%nat
        && String.eqb (text old) (text p)
        && Qeq_bool (speed old) (speed p)
        && Qeq_bool (delay old) (delay p)
        && option_eqb (onComplete old) (onComplete p)
        && option_eqb (onStart old) (onStart p)).

Definition resetDepsChanged (old p : Props) : bool :=
  negb (String.eqb (text old) (text p)).

(** One render of [p] and [st] and the effects that follow it: the
    cleanups of the effects that re-run, then their bodies in the order
    they are declared.  The bodies see [st]; the state they set is for
    the next render. *)
Definition pass (first : bool) (old : Props) (oldIndex : nat) (p : Props)
    (st : State) (rt : Runtime) : State * Runtime :=
  let run1 := first || revealDepsChanged old oldIndex p st in
  let run2 := first || resetDepsChanged old p in
  let rt1 := if run1 && negb first then revealCleanup rt else rt in
  let '(rt2, off) := if run1 then revealEffect p st rt1 else (rt1, false) in
  let st2 := if off then typingOff st else st in
  if run2 then
    ({| displayedText := EmptyString; currentIndex := 0; isTyping := false |},
     emit [Reset] rt2)
  else (st2, rt2).

(** Render until no effect changes the state any more. *)
Fixpoint settle (fuel : nat) (first : bool) (old : Props) (oldIndex : nat)
    (p : Props) (st : State) (rt : Runtime) : Instance :=
  let '(st', rt') := pass first old oldIndex p st rt in
  match fuel with
  | O => {| props := p; state := st'; runtime := rt' |}
  | S fuel' =>
      if State_eqb st' st then {| props := p; state := st; runtime := rt' |}
      else settle fuel' false p (currentIndex st) p st' rt'
  end.

Definition renders : nat := 3.

(** The component is mounted with props [p]. *)
Definition mount (p : Props) : Instance :=
  settle renders true p 0 p
    {| displayedText := EmptyString; currentIndex := 0; isTyping := false |}
    {| timeout := None; draws := 0; log := [] |}.

(** The parent renders the component again, with props [p]. *)
Definition rerender (p : Props) (i : Instance) : Instance :=
  settle renders false (props i) (currentIndex (state i)) p (state i) (runtime i).

(** The pending timeout fires. *)
Definition fire (i : Instance) : Instance :=
  match timeout (runtime i) with
  | None => i
  | Some t =>
      let first := (t_index t =? 0)%nat in
      let rt := {| timeout := None; draws := draws (runtime i);
                   log := log (runtime i) |} in
      let rt := if first then call (t_onStart t) Started rt else rt in
      let st := state i in
      let st' := {| displayedText := (displayedText st ++ String (t_char t) EmptyString)%string;
                    currentIndex := currentIndex st + 1;
                    isTyping := if first then true else isTyping st |} in
      settle renders false (props i) (currentIndex st) (props i) st'
             (emit [Appended (t_char t)] rt)
  end.

(** [k] timeouts fire after the component was mounted with [p]. *)
Definition run (p : Props) (k : nat) : Instance := iter k fire (mount p).

End RandomSource.

(** ** Vocabulary of the properties *)

Definition isCompleted (e : Event) : bool :=
  match e with Completed _ => true | _ => false end.

Definition isStarted (e : Event) : bool :=
  match e with Started _ => true | _ => false end.

Definition isScheduled (e : Event) : bool :=
  match e with Scheduled _ _ => true | _ => false end.

(** How often [onComplete] and [onStart] were called, how many timers
    were set, and the characters appended, in order. *)
Definition completions (l : list Event) : nat :=
  List.length (filter isCompleted l).

Definition starts (l : list Event) : nat :=
  List.length (filter isStarted l).

Definition schedules (l : list Event) : nat :=
  List.length (filter isScheduled l).

Fixpoint appended (l : list Event) : list ascii :=
  match l with
  | [] => []
  | Appended c :: rest => c :: appended rest
  | _ :: rest => appended rest
  end.

Definition given (cb : option Callback) : nat :=
  match cb with Some _ => 1 | None => 0 end.

(** The instance after [k] characters of the text of [p] were revealed. *)
Record Typing (random : nat -> Q) (p : Props) (k : nat) (i : Instance) : Prop := {
  ty_props : props i = p;
  ty_index : currentIndex (state i) = k;
  ty_text : displayedText (state i) = substring 0 k (text p);
  ty_timeout :
    match String.get k (text p) with
    | Some c =>
        exists n,
          timeout (runtime i) =
          Some {| t_index := k; t_char := c; t_onStart := onStart p;
                  t_ms := if (k =? 0)%nat then delay p
                          else fst (getTypingSpeed random (speed p) c k (text p) n) |}
    | None => timeout (runtime i) = None
    end;
  ty_appended : appended (log (runtime i)) = chars (substring 0 k (text p));
  ty_completions :
    completions (log (runtime i)) =
    if (k <? String.length (text p))%nat then 0%nat else given (onComplete p);
  ty_starts :
    starts (log (runtime i)) = if (k =? 0)%nat then 0%nat else given (onStart p);
  ty_schedules :
    schedules (log (runtime i)) = Nat.min (S k) (String.length (text p));
  ty_last :
    (0 < k)%nat -> k = String.length (text p) ->
    forall cb, onComplete p = Some cb ->
    exists l c, log (runtime i) = l ++ [Appended c; Completed cb]
}.

Definition upperCommonLetters : list ascii :=
  ["E"; "T"; "A"; "O"; "I"; "N"; "S"; "H"; "R"]%char.

Definition isAlphanumeric (c : ascii) : bool :=
  isLowerAZ c || isUpperAZ c || isDigit c.

(** The delay policy in the words of the specification, where "space" is
    the character [" "] throughout and "alphanumeric" is [a-zA-Z0-9]; [U]
    is the random variation. *)
Definition statedDelay (baseSpeed U : Q) (fullText : string) (i : nat)
    (c : ascii) : Q :=
  if includesChar sentenceEnd c then 3 * baseSpeed
  else if includesChar midPunctuation c then 2 * baseSpeed
  else if Ascii.eqb c " " then
    if (7 <? String.length (wordBefore fullText i))%nat
    then 2 * baseSpeed else 1.3 * baseSpeed
  else if includesChar (commonLetters ++ upperCommonLetters) c
       then 0.7 * baseSpeed
  else if isDigit c then 1.4 * baseSpeed
  else if negb (isAlphanumeric c) && negb (Ascii.eqb c " ")
       then 1.3 * baseSpeed
  else Qmax (baseSpeed * (1 + U)) (0.3 * baseSpeed).

Definition tab : ascii := "009"%char.

(** Sample inputs: props with both callbacks, a random source that
    always returns 0.5, a text with a tab. *)
Definition demo (t : string) : Props :=
  {| text := t; speed := 50; delay := 300;
     onStart := Some 1%nat; onComplete := Some 2%nat |}.

Definition half : nat -> Q := fun _ => 0.5.

Definition tabbed : string := String "a" (String tab (String "b" EmptyString)).


(** A string does not contain the character [" "]. *)
Definition spaceless (w : string) : Prop := ~ In " "%char (chars w).

(** A string is empty or ends with [" "]. *)
Definition atWordStart (pre : string) : Prop :=
  pre = EmptyString \/ exists pre', pre = (pre' ++ " ")%string.

End Typewriter.

(* ================================================================== *)
(** * [getTypingSpeed] on UTF-16 code units

    [getTypingSpeed(char, index, fullText)] once more, on strings as
    JavaScript has them: sequences of 16-bit code units, [text[i]] being
    one of them.  On a text of code units below 256 it is the function of
    the component above ([getTypingSpeed_units]). *)

Module Utf16.

Definition CodeUnit : Type := N.

(** The code unit of a Latin-1 character, the code units of a Latin-1
    string. *)
Definition unit (c : ascii) : CodeUnit := N_of_ascii c.

Fixpoint units (s : string) : list CodeUnit :=
  match s with
  | EmptyString => []
  | String c rest => unit c :: units rest
  end.

Definition between (lo hi : N) (u : CodeUnit) : bool :=
  ((lo <=? u) && (u <=? hi))%N.

(** [/[0-9]/.test(char)], and the classes [a-z] and [A-Z]. *)
Definition isDigit (u : CodeUnit) : bool := between 48 57 u.
Definition isLowerAZ (u : CodeUnit) : bool := between 97 122 u.
Definition isUpperAZ (u : CodeUnit) : bool := between 65 90 u.

(** The class [\s] of a regular expression without the [u] flag: the
    white space TAB, VT, FF, SPACE, NO-BREAK SPACE, U+FEFF and the space
    separators U+1680, U+2000-U+200A, U+202F, U+205F, U+3000, and the
    line terminators LF, CR, U+2028, U+2029. *)
Definition isWhiteSpace (u : CodeUnit) : bool :=
  (between 9 13 u || (u =? 32) || (u =? 160) || (u =? 0x1680)
   || between 0x2000 0x200A u || (u =? 0x2028) || (u =? 0x2029)
   || (u =? 0x202F) || (u =? 0x205F) || (u =? 0x3000) || (u =? 0xFEFF))%N.

(** [/[^a-zA-Z0-9\s]/.test(char)] *)
Definition isOtherSymbol (u : CodeUnit) : bool :=
  negb (isLowerAZ u || isUpperAZ u || isDigit u || isWhiteSpace u).

(** [char.toLowerCase()] for a string of one code unit, as far as the
    test [includes] below can tell.  The code units whose lower-case form
    is one ASCII letter are A-Z (the letter 32 further) and U+212A KELVIN
    SIGN (the letter k); the Latin-1 capitals U+00C0-U+00DE without
    U+00D7 have theirs 32 further.  The lower-case form of every other
    code unit is no ASCII letter (that of U+0130 is two code units long);
    such a code unit stands for its own lower-case form here. *)
Definition toLowerCase (u : CodeUnit) : CodeUnit :=
  (if isUpperAZ u || (between 192 222 u && negb (u =? 215)) then u + 32
   else if u =? 0x212A then 107
   else u)%N.

(** [[...].includes(char)] on strings of one code unit. *)
Definition includesUnit (xs : list CodeUnit) (u : CodeUnit) : bool :=
  existsb (N.eqb u) xs.

(** [s.split(' ')] for a separator of one code unit: never empty. *)
Fixpoint split (sep : CodeUnit) (s : list CodeUnit) : list (list CodeUnit) :=
  match s with
  | [] => [[]]
  | c :: rest =>
      if (c =? sep)%N then [] :: split sep rest
      else match split sep rest with
           | w :: ws => (c :: w) :: ws
           | [] => [[c]]
           end
  end.

(** [fullText.substring(0, index).split(' ').pop() || ''] *)
Definition wordBefore (fullText : list CodeUnit) (index : nat)
    : list CodeUnit :=
  last (split 32%N (firstn index fullText)) [].

(** ['.', '!', '?'], [',', ';', ':'] and
    ['e', 't', 'a', 'o', 'i', 'n', 's', 'h', 'r']. *)
Definition sentenceEnd : list CodeUnit := [46; 33; 63]%N.
Definition midPunctuation : list CodeUnit := [44; 59; 58]%N.
Definition commonLetters : list CodeUnit :=
  [101; 116; 97; 111; 105; 110; 115; 104; 114]%N.

Section RandomSource.

(** [random n] is what the [n]-th call of [Math.random()] returns. *)
Variable random : nat -> Q.

(** [getTypingSpeed(char, index, fullText)], with [speed] from the props;
    the result comes with the number of [Math.random()] calls after it. *)
Definition getTypingSpeed (speed : Q) (char : CodeUnit) (index : nat)
    (fullText : list CodeUnit) (n : nat) : Q * nat :=
  let baseSpeed := speed in
  if includesUnit sentenceEnd char then (baseSpeed * 3, n)
  else if includesUnit midPunctuation char then (baseSpeed * 2, n)
  else if (char =? 32)%N then
    if (7 <? List.length (wordBefore fullText index))%nat
    then (baseSpeed * 2, n)
    else (baseSpeed * 1.3, n)
  else if includesUnit commonLetters (toLowerCase char) then (baseSpeed * 0.7, n)
  else if isDigit char then (baseSpeed * 1.4, n)
  else if isOtherSymbol char
          && negb (includesUnit (sentenceEnd ++ midPunctuation) char)
       then (baseSpeed * 1.3, n)
  else
    let variation := (random n - 0.5) * 0.5 in
    (Qmax (baseSpeed * (1 + variation)) (baseSpeed * 0.3), S n).

End RandomSource.

(** ** Vocabulary of the properties *)

(** [E], [T], [A], [O], [I], [N], [S], [H], [R]. *)
Definition upperCommonLetters : list CodeUnit :=
  [69; 84; 65; 79; 73; 78; 83; 72; 82]%N.

(** A letter [a-z] or [A-Z]. *)
Definition isLetterAZ (u : CodeUnit) : bool := isLowerAZ u || isUpperAZ u.

Definition isAlphanumeric (u : CodeUnit) : bool :=
  isLowerAZ u || isUpperAZ u || isDigit u.

(** A string does not contain the space character. *)
Definition spaceless (w : list CodeUnit) : Prop := ~ In 32%N w.

(** A string is empty or ends with the space character. *)
Definition atWordStart (pre : list CodeUnit) : Prop :=
  pre = [] \/ exists pre', pre = pre' ++ [32%N].

(** A text with the ideographic space U+3000 between two letters. *)
Definition wide : list CodeUnit := [97; 0x3000; 98]%N.

End Utf16.

(* ================================================================== *)
(** * VoiceChatWindow *)

Module VoiceChat.

Local Open Scope Z_scope.

Inductive Speaker : Type := customer | ai.

Inductive CallStatus : Type := Connected | Speaking | Listening | Processing.

Definition isProcessing (c : CallStatus) : bool :=
  match c with Processing => true | _ => false end.

(** An entry of [conversationFlow]. *)
Record Turn : Type := {
  t_speaker : Speaker;
  t_message : string;
  t_sentiment : option Sentiment;
  t_delay : Z
}.

(** The ids are the strings [`message-${Date.now()}`] and
    [`manual-${Date.now()}`]. *)
Inductive MessageId : Type :=
| ScriptedId (t : Z)
| ManualId (t : Z).

Definition MessageId_eqb (a b : MessageId) : bool :=
  match a, b with
  | ScriptedId x, ScriptedId y => (x =? y)%Z
  | ManualId x, ManualId y => (x =? y)%Z
  | _, _ => false
  end.

(** [interface Message]; an optional field that is absent is [None]. *)
Record Message : Type := {
  id : MessageId;
  speaker : Speaker;
  message : string;
  timestamp : Z;
  sentiment : option Sentiment;
  isNew : option bool;
  showWaveformFirst : option bool;
  messageVisible : option bool;
  isAnimating : option bool
}.

(** The [useState] cells of the component. *)
Record App : Type := {
  callStatus : CallStatus;
  isMuted : bool;
  messages : list Message;
  currentMessageIndex : nat;
  isTyping : bool;
  currentSpeaker : option Speaker;
  inputMessage : string
}.

Definition setCallStatus (v : CallStatus) (a : App) : App :=
  {| callStatus := v; isMuted := isMuted a; messages := messages a;
     currentMessageIndex := currentMessageIndex a; isTyping := isTyping a;
     currentSpeaker := currentSpeaker a; inputMessage := inputMessage a |}.

Definition setIsMuted (v : bool) (a : App) : App :=
  {| callStatus := callStatus a; isMuted := v; messages := messages a;
     currentMessageIndex := currentMessageIndex a; isTyping := isTyping a;
     currentSpeaker := currentSpeaker a; inputMessage := inputMessage a |}.

Definition setMessages (f : list Message -> list Message) (a : App) : App :=
  {| callStatus := callStatus a; isMuted := isMuted a; messages := f (messages a);
     currentMessageIndex := currentMessageIndex a; isTyping := isTyping a;
     currentSpeaker := currentSpeaker a; inputMessage := inputMessage a |}.

Definition setCurrentMessageIndex (f : nat -> nat) (a : App) : App :=
  {| callStatus := callStatus a; isMuted := isMuted a; messages := messages a;
     currentMessageIndex := f (currentMessageIndex a); isTyping := isTyping a;
     currentSpeaker := currentSpeaker a; inputMessage := inputMessage a |}.

Definition setIsTyping (v : bool) (a : App) : App :=
  {| callStatus := callStatus a; isMuted := isMuted a; messages := messages a;
     currentMessageIndex := currentMessageIndex a; isTyping := v;
     currentSpeaker := currentSpeaker a; inputMessage := inputMessage a |}.

Definition setCurrentSpeaker (v : option Speaker) (a : App) : App :=
  {| callStatus := callStatus a; isMuted := isMuted a; messages := messages a;
     currentMessageIndex := currentMessageIndex a; isTyping := isTyping a;
     currentSpeaker := v; inputMessage := inputMessage a |}.

Definition setInputMessage (v : string) (a : App) : App :=
  {| callStatus := callStatus a; isMuted := isMuted a; messages := messages a;
     currentMessageIndex := currentMessageIndex a; isTyping := isTyping a;
     currentSpeaker := currentSpeaker a; inputMessage := v |}.

(** ** The callbacks on messages *)

Definition addWaveformMessage (now : Z) (speaker : Speaker) (a : App)
    : MessageId * App :=
  let messageId := ScriptedId now in
  (messageId,
   setMessages (fun prev => prev ++ [
     {| id := messageId; speaker := speaker; message := EmptyString;
        timestamp := now; sentiment := None; isNew := Some true;
        showWaveformFirst := Some true; messageVisible := Some false;
        isAnimating := None |}]) a).

Definition updateMessage (i : MessageId) (text : string)
    (s : option Sentiment) : App -> App :=
  setMessages (map (fun msg =>
    if MessageId_eqb (id msg) i then
      {| id := id msg; speaker := speaker msg; message := text;
         timestamp := timestamp msg; sentiment := s; isNew := Some false;
         showWaveformFirst := Some false; messageVisible := messageVisible msg;
         isAnimating := isAnimating msg |}
    else msg)).

Definition showMessageContent (i : MessageId) : App -> App :=
  setMessages (map (fun msg =>
    if MessageId_eqb (id msg) i then
      {| id := id msg; speaker := speaker msg; message := message msg;
         timestamp := timestamp msg; sentiment := sentiment msg;
         isNew := isNew msg; showWaveformFirst := showWaveformFirst msg;
         messageVisible := Some true; isAnimating := Some false |}
    else msg)).

Definition setAnimating (v : bool) (i : MessageId) : App -> App :=
  setMessages (map (fun msg =>
    if MessageId_eqb (id msg) i then
      {| id := id msg; speaker := speaker msg; message := message msg;
         timestamp := timestamp msg; sentiment := sentiment msg;
         isNew := isNew msg; showWaveformFirst := showWaveformFirst msg;
         messageVisible := messageVisible msg; isAnimating := Some v |}
    else msg)).

Definition startMessageAnimation : MessageId -> App -> App := setAnimating true.
Definition completeMessageAnimation : MessageId -> App -> App := setAnimating false.

(** ** The send affordances *)

(** [handleSendMessage], called at time [now]. *)
Definition handleSendMessage (now : Z) (a : App) : App :=
  if truthy (trim (inputMessage a)) then
    let newMessage :=
      {| id := ManualId now; speaker := customer;
         message := trim (inputMessage a); timestamp := now;
         sentiment := Some neutral; isNew := None; showWaveformFirst := None;
         messageVisible := Some true; isAnimating := Some false |} in
    setInputMessage EmptyString (setMessages (fun prev => prev ++ [newMessage]) a)
  else a.

(** [handleKeyPress]: [enter] is [e.key === 'Enter'], [shift] is
    [e.shiftKey]. *)
Definition handleKeyPress (enter shift : bool) (now : Z) (a : App) : App :=
  if enter && negb shift then handleSendMessage now a else a.

(** The [disabled] attributes of the input and of the send button. *)
Definition inputDisabled (a : App) : bool := isProcessing (callStatus a).

Definition sendDisabled (a : App) : bool :=
  negb (truthy (trim (inputMessage a))) || isProcessing (callStatus a).

(** ** Timers and the playback effect *)

(** The closures given to [setTimeout], by the values they captured:
    the index and turn of the effect run, and the id of its message. *)
Inductive Action : Type :=
| ProcessMessage (k : nat) (currentMsg : Turn)
| RevealStart (k : nat) (currentMsg : Turn) (messageId : MessageId)
| ShowContent (k : nat) (currentMsg : Turn) (messageId : MessageId)
| Complete (k : nat).

Record Timer : Type := {
  tid : nat;
  due : Z;
  action : Action
}.

(** The four transitions of a turn, as the trace names them. *)
Inductive Phase : Type := Pending | RevealStarted | ContentVisible | Completed.

(** A trace entry: which transition committed, when, for which turn,
    and the component state it left. *)
Record Entry : Type := {
  e_time : Z;
  e_phase : Phase;
  e_turn : nat;
  e_app : App
}.

(** The component in its environment: the clock, the timer table, the
    [timeoutId] whose cleanup the last effect run returned, and the
    trace of the transitions so far. *)
Record World : Type := {
  app : App;
  now : Z;
  timers : list Timer;
  nextTid : nat;
  timeoutId : option nat;
  trace : list Entry
}.

Definition withApp (f : App -> App) (w : World) : World :=
  {| app := f (app w); now := now w; timers := timers w;
     nextTid := nextTid w; timeoutId := timeoutId w; trace := trace w |}.

(** [setTimeout(act, ms)]; a negative time counts as 0. *)
Definition setTimeout (act : Action) (ms : Z) (w : World) : nat * World :=
  (nextTid w,
   {| app := app w; now := now w;
      timers := timers w ++ [{| tid := nextTid w; due := now w + Z.max 0 ms;
                                action := act |}];
      nextTid := S (nextTid w); timeoutId := timeoutId w; trace := trace w |}).

Definition clearTimeout (i : nat) (w : World) : World :=
  {| app := app w; now := now w;
     timers := filter (fun t => negb (tid t =? i)%nat) (timers w);
     nextTid := nextTid w; timeoutId := timeoutId w; trace := trace w |}.

Definition setTimeoutId (v : option nat) (w : World) : World :=
  {| app := app w; now := now w; timers := timers w;
     nextTid := nextTid w; timeoutId := v; trace := trace w |}.

Definition record (ph : Phase) (k : nat) (w : World) : World :=
  {| app := app w; now := now w; timers := timers w;
     nextTid := nextTid w; timeoutId := timeoutId w;
     trace := trace w ++ [{| e_time := now w; e_phase := ph; e_turn := k;
                             e_app := app w |}] |}.

(** The timer that fires next: the earliest, the older one on a tie. *)
Fixpoint nextTimer (ts : list Timer) : option Timer :=
  match ts with
  | [] => None
  | t :: rest =>
      match nextTimer rest with
      | Some u => if (due u <? due t)%Z then Some u else Some t
      | None => Some t
      end
  end.

Definition waveformDuration (sp : Speaker) : Z :=
  match sp with ai => 1500 | customer => 1200 end.

Definition baseSpeed (sp : Speaker) : Z :=
  match sp with ai => 40 | customer => 60 end.

(** [currentMsg.message.length * baseSpeed * 1.2]: with a base speed of
    40 or 60 the product is a whole number ([avgTypingDuration_exact]). *)
Definition avgTypingDuration (currentMsg : Turn) : Z :=
  (Z.of_nat (String.length (t_message currentMsg))
   * baseSpeed (t_speaker currentMsg) * 12 / 10)%Z.

Definition typingDuration (currentMsg : Turn) : Z :=
  avgTypingDuration currentMsg + 300.

Section Script.

Variable conversationFlow : list Turn.

(** The body of the playback effect, for the render with the current
    index. *)
Definition playbackEffect (w : World) : World :=
  let k := currentMessageIndex (app w) in
  if (List.length conversationFlow <=? k)%nat then setTimeoutId None w
  else
    match nth_error conversationFlow k with
    | Some currentMsg =>
        let '(i, w1) :=
          setTimeout (ProcessMessage k currentMsg) (t_delay currentMsg) w in
        setTimeoutId (Some i) w1
    | None => setTimeoutId None w
    end.

(** Its cleanup: [if (timeoutId) clearTimeout(timeoutId)]; a timer id is
    a positive number, so the test holds whenever a timer was set. *)
Definition playbackCleanup (w : World) : World :=
  match timeoutId w with
  | Some i => clearTimeout i w
  | None => w
  end.

(** The render after a callback: the effect runs again when
    [currentMessageIndex] is not what it was at [oldIndex]; its other
    dependencies are [useCallback] results that never change. *)
Definition rerender (oldIndex : nat) (w : World) : World :=
  if (oldIndex =? currentMessageIndex (app w))%nat then w
  else playbackEffect (playbackCleanup w).

(** What each closure does when its timer fires. *)
Definition runAction (act : Action) (w : World) : World :=
  match act with
  | ProcessMessage k currentMsg =>
      let w1 :=
        match t_speaker currentMsg with
        | customer =>
            withApp (fun a => setCurrentSpeaker (Some customer)
                                (setCallStatus Listening a)) w
        | ai =>
            withApp (fun a => setCurrentSpeaker None
                                (setCallStatus Processing a)) w
        end in
      let '(messageId, a2) :=
        addWaveformMessage (now w1) (t_speaker currentMsg) (app w1) in
      let w2 := withApp (fun _ => setIsTyping true a2) w1 in
      let '(_, w3) :=
        setTimeout (RevealStart k currentMsg messageId)
                   (waveformDuration (t_speaker currentMsg)) w2 in
      record Pending k w3
  | RevealStart k currentMsg messageId =>
      let w1 :=
        withApp (fun a =>
          updateMessage messageId (t_message currentMsg) (t_sentiment currentMsg)
            (setIsTyping false
               (setCurrentSpeaker (Some (t_speaker currentMsg))
                  (setCallStatus Speaking a)))) w in
      let '(_, w2) := setTimeout (ShowContent k currentMsg messageId) 600 w1 in
      record RevealStarted k w2
  | ShowContent k currentMsg messageId =>
      let w1 := withApp (showMessageContent messageId) w in
      let '(_, w2) :=
        setTimeout (Complete k) (typingDuration currentMsg + 500) w1 in
      record ContentVisible k w2
  | Complete k =>
      let w1 :=
        withApp (fun a =>
          setCurrentMessageIndex (fun prev => prev + 1)%nat
            (setCurrentSpeaker None (setCallStatus Connected a))) w in
      record Completed k w1
  end.

(** The next timer fires, at its time, and the render that follows. *)
Definition fire (w : World) : World :=
  match nextTimer (timers w) with
  | None => w
  | Some t =>
      let w1 :=
        {| app := app w; now := Z.max (now w) (due t);
           timers := filter (fun u => negb (tid u =? tid t)%nat) (timers w);
           nextTid := nextTid w; timeoutId := timeoutId w; trace := trace w |} in
      rerender (currentMessageIndex (app w)) (runAction (action t) w1)
  end.

(** What can happen to the mounted component. *)
Inductive Input : Type :=
| Fire                               (* the next timer fires *)
| Wait (d : Z)                       (* time passes, no timer is due *)
| Change (s : string)                (* the user edits the input *)
| ClickSend                          (* the user clicks the send button *)
| KeyPress (enter shift : bool)      (* a key is pressed in the input *)
| ToggleMute.

Definition canWait (d : Z) (w : World) : bool :=
  (0 <=? d)%Z && forallb (fun t => (now w + d <=? due t)%Z) (timers w).

(** A disabled control receives no event. *)
Definition step (i : Input) (w : World) : World :=
  match i with
  | Fire => fire w
  | Wait d =>
      if canWait d w then
        {| app := app w; now := now w + d; timers := timers w;
           nextTid := nextTid w; timeoutId := timeoutId w; trace := trace w |}
      else w
  | Change s =>
      if inputDisabled (app w) then w else withApp (setInputMessage s) w
  | ClickSend =>
      if sendDisabled (app w) then w else withApp (handleSendMessage (now w)) w
  | KeyPress enter shift =>
      if inputDisabled (app w) then w
      else withApp (handleKeyPress enter shift (now w)) w
  | ToggleMute => withApp (fun a => setIsMuted (negb (isMuted a)) a) w
  end.

Definition initialApp : App :=
  {| callStatus := Connected; isMuted := false; messages := [];
     currentMessageIndex := 0; isTyping := false; currentSpeaker := None;
     inputMessage := EmptyString |}.

(** The component is mounted at time [t0]: first render, then the
    effect. *)
Definition mount (t0 : Z) : World :=
  playbackEffect {| app := initialApp; now := t0; timers := []; nextTid := 1;
                    timeoutId := None; trace := [] |}.

Definition run (t0 : Z) (inputs : list Input) : World :=
  fold_left (fun w i => step i w) inputs (mount t0).

End Script.

(** A sample component state: the user has typed [s], the call status is
    [status]. *)
Definition typed (s : string) (status : CallStatus) : World :=
  {| app := {| callStatus := status; isMuted := false; messages := [];
               currentMessageIndex := 0; isTyping := false;
               currentSpeaker := None; inputMessage := s |};
     now := 5000; timers := []; nextTid := 1; timeoutId := None; trace := [] |}.

(** The two-turn script of the specification's scenario. *)
Definition scenario : list Turn := [
  {| t_speaker := ai; t_message := "Hi"; t_sentiment := None; t_delay := 1000 |};
  {| t_speaker := customer; t_message := "Hello"; t_sentiment := None;
     t_delay := 3000 |}
].

(** ** Vocabulary of the properties *)

(** The input is empty or made of white space only. *)
Definition whitespaceOnly (s : string) : Prop :=
  Forall (fun c => isWhiteSpace c = true) (chars s).

(** The user submits: a click on the send button, or the Enter key
    without Shift in the input. *)
Definition isSubmit (i : Input) : Prop :=
  i = ClickSend \/ i = KeyPress true false.

(** The messages that are in their waveform-only phase. *)
Definition isPendingReveal (m : Message) : bool :=
  match showWaveformFirst m with Some true => true | _ => false end.

Definition pendingMessages (a : App) : list Message :=
  filter isPendingReveal (messages a).

(** The message [addWaveformMessage] appends. *)
Definition waveformMessage (now : Z) (sp : Speaker) : Message :=
  {| id := ScriptedId now; speaker := sp; message := EmptyString;
     timestamp := now; sentiment := None; isNew := Some true;
     showWaveformFirst := Some true; messageVisible := Some false;
     isAnimating := None |}.

(** The [i]-th transition of a playback is transition [i mod 4] of turn
    [i / 4]. *)
Definition phaseAt (i : nat) : Phase :=
  match (i mod 4)%nat with
  | 0%nat => Pending
  | 1%nat => RevealStarted
  | 2%nat => ContentVisible
  | _ => Completed
  end.

(** The time a transition waits after the one before it, and the status
    and speaker indicator it leaves. *)
Definition gap (ph : Phase) (m : Turn) : Z :=
  match ph with
  | Pending => Z.max 0 (t_delay m)
  | RevealStarted => waveformDuration (t_speaker m)
  | ContentVisible => 600
  | Completed => typingDuration m + 500
  end.

Definition statusAfter (ph : Phase) (sp : Speaker) : CallStatus :=
  match ph, sp with
  | Pending, customer => Listening
  | Pending, ai => Processing
  | RevealStarted, _ | ContentVisible, _ => Speaking
  | Completed, _ => Connected
  end.

Definition speakerAfter (ph : Phase) (sp : Speaker) : option Speaker :=
  match ph, sp with
  | Pending, customer => Some customer
  | Pending, ai => None
  | RevealStarted, _ | ContentVisible, _ => Some sp
  | Completed, _ => None
  end.

(** The time of the transition before position [i]; the mount time for
    the first. *)
Definition timeBefore (t0 : Z) (tr : list Entry) (i : nat) : Z :=
  match i with
  | O => t0
  | S j => match nth_error tr j with Some e => e_time e | None => t0 end
  end.

(** Turn [k] has entered its pending-reveal phase and has not completed. *)
Definition inFlight (tr : list Entry) (k : nat) : Prop :=
  (exists e, In e tr /\ e_phase e = Pending /\ e_turn e = k) /\
  ~ (exists e, In e tr /\ e_phase e = Completed /\ e_turn e = k).

Section Invariant.

Variable conversationFlow : list Turn.
Variable t0 : Z.

(** What the trace entry at position [i] is, given the time [tprev] of
    the entry before it. *)
Definition entryOk (tprev : Z) (i : nat) (e : Entry) : Prop :=
  e_phase e = phaseAt i /\
  e_turn e = (i / 4)%nat /\
  exists m,
    nth_error conversationFlow (i / 4) = Some m /\
    e_time e = tprev + gap (phaseAt i) m /\
    callStatus (e_app e) = statusAfter (phaseAt i) (t_speaker m) /\
    currentSpeaker (e_app e) = speakerAfter (phaseAt i) (t_speaker m) /\
    currentMessageIndex (e_app e) = (S i / 4)%nat /\
    (phaseAt i = Pending ->
     exists msg, pendingMessages (e_app e) = [msg] /\
                 message msg = EmptyString /\ speaker msg = t_speaker m /\
                 timestamp msg = e_time e) /\
    (phaseAt i <> Pending -> pendingMessages (e_app e) = []) /\
    (phaseAt i = ContentVisible ->
     exists msg, In msg (messages (e_app e)) /\
                 message msg = t_message m /\
                 sentiment msg = t_sentiment m /\
                 speaker msg = t_speaker m /\
                 messageVisible msg = Some true).

Definition traceOk (tr : list Entry) : Prop :=
  forall i e, nth_error tr i = Some e -> entryOk (timeBefore t0 tr i) i e.

(** The one timer that is pending after [n] transitions, in a turn [m]. *)
Definition pendingTimer (w : World) (n : nat) (m : Turn) : Prop :=
  let tlast := timeBefore t0 (trace w) n in
  let k := (n / 4)%nat in
  match phaseAt n with
  | Pending =>
      exists i, timers w = [{| tid := i; due := tlast + gap Pending m;
                               action := ProcessMessage k m |}] /\
                pendingMessages (app w) = []
  | RevealStarted =>
      exists i mid msg,
        timers w = [{| tid := i; due := tlast + gap RevealStarted m;
                       action := RevealStart k m mid |}] /\
        pendingMessages (app w) = [msg] /\ id msg = mid /\
        speaker msg = t_speaker m
  | ContentVisible =>
      exists i mid msg,
        timers w = [{| tid := i; due := tlast + gap ContentVisible m;
                       action := ShowContent k m mid |}] /\
        pendingMessages (app w) = [] /\
        In msg (messages (app w)) /\ id msg = mid /\
        message msg = t_message m /\ sentiment msg = t_sentiment m /\
        speaker msg = t_speaker m /\
        callStatus (app w) = Speaking /\
        currentSpeaker (app w) = Some (t_speaker m)
  | Completed =>
      exists i, timers w = [{| tid := i; due := tlast + gap Completed m;
                               action := Complete k |}] /\
                pendingMessages (app w) = []
  end.

(** The invariant of the playback, with [n] transitions made. *)
Record Playing (w : World) : Prop := {
  pl_trace : traceOk (trace w);
  pl_index : currentMessageIndex (app w) = (List.length (trace w) / 4)%nat;
  pl_bound : (List.length (trace w) <= 4 * List.length conversationFlow)%nat;
  pl_now : Forall (fun t => now w <= due t) (timers w);
  pl_timer :
    match nth_error conversationFlow (List.length (trace w) / 4) with
    | Some m => pendingTimer w (List.length (trace w)) m
    | None => timers w = [] /\ pendingMessages (app w) = []
    end
}.

End Invariant.

(** The script of the component.  The functions above take the script
    as a parameter, so what is proved of them holds for this script and
    for every other; a text enters the playback through its length only
    and is copied as it is.  The rupee sign of the fourth customer turn,
    one UTF-16 code unit above 255, is written here as the one character
    ["?"]. *)
Definition conversationFlow : list Turn := [
  {| t_speaker := ai;
     t_message := "Hello! Welcome to SecureBank. I'm your AI assistant. How can I help you today?";
     t_sentiment := None; t_delay := 1000 |};
  {| t_speaker := customer;
     t_message := "Hi, I'm having trouble with my UPI transaction. It failed but the money was deducted from my account.";
     t_sentiment := Some negative; t_delay := 3000 |};
  {| t_speaker := ai;
     t_message := "I understand your concern about the failed UPI transaction. Let me quickly check your account details and recent transactions to help resolve this issue.";
     t_sentiment := None; t_delay := 4000 |};
  {| t_speaker := customer;
     t_message := "It happened this morning around 10:30 AM. The transaction was for ?2,500 to a merchant called PayTM_Grocery.";
     t_sentiment := Some neutral; t_delay := 3500 |};
  {| t_speaker := ai;
     t_message := "I can see the transaction in your account history. Let me check with our payment gateway partner for the status of transaction ID UPI2024011514301234.";
     t_sentiment := None; t_delay := 5000 |};
  {| t_speaker := customer;
     t_message := "This is really frustrating. I need that money back urgently. I have other payments to make today.";
     t_sentiment := Some negative; t_delay := 3000 |};
  {| t_speaker := ai;
     t_message := "I completely understand your frustration. Based on my investigation, the transaction was processed but failed at the merchant end. I'm initiating an immediate refund which should reflect in your account within 2-4 hours.";
     t_sentiment := None; t_delay := 6000 |};
  {| t_speaker := customer;
     t_message := "How can I be sure this will be resolved? I've had issues before and it took weeks to get my money back.";
     t_sentiment := Some negative; t_delay := 4000 |};
  {| t_speaker := ai;
     t_message := "I've created a high-priority ticket TKT-2024-0016 for your case. You'll receive SMS and email confirmations. I'm also escalating this to our specialized refund team to ensure faster processing.";
     t_sentiment := None; t_delay := 5500 |};
  {| t_speaker := customer;
     t_message := "Okay, that sounds better. Will I get any confirmation or reference number?";
     t_sentiment := Some neutral; t_delay := 3000 |};
  {| t_speaker := ai;
     t_message := "Yes, your reference number is REF-UPI-2024-001234. I've also sent you an SMS with all the details. Is there anything else I can help you with today?";
     t_sentiment := None; t_delay := 4000 |};
  {| t_speaker := customer;
     t_message := "Thank you for your help. I appreciate the quick response and the escalation.";
     t_sentiment := Some positive; t_delay := 2500 |};
  {| t_speaker := ai;
     t_message := "You're very welcome! I'm glad I could assist you today. Your refund should be processed soon, and you can always call us back if you need any updates.";
     t_sentiment := None; t_delay := 4000 |}
].

End VoiceChat.

(* ================================================================== *)
(** * VoiceAnimation *)

Module VoiceAnimation.

Local Open Scope Q_scope.

Abbreviation Speaker := VoiceChat.Speaker.

Definition Speaker_eqb (a b : Speaker) : bool :=
  match a, b with
  | VoiceChat.ai, VoiceChat.ai | VoiceChat.customer, VoiceChat.customer => true
  | _, _ => false
  end.

Record Props : Type := {
  isActive : bool;
  speaker : Speaker
}.

(** The [useState] cell, the interval that is set (known by the
    [speaker] its callback captured) and the number of calls of
    [Math.random()] so far.  The heights are rational numbers here. *)
Record State : Type := {
  waveformBars : list Q;
  interval : option Speaker;
  draws : nat
}.

Record Instance : Type := {
  props : Props;
  state : State
}.

Section RandomSource.

(** [random n] is what the [n]-th call of [Math.random()] returns. *)
Variable random : nat -> Q.

Definition baseIntensity (sp : Speaker) : Q :=
  match sp with VoiceChat.ai => 3 | VoiceChat.customer => 4 end.

(** The callback of [prev.map], for the bar at [index], with the [n]-th
    random number. *)
Definition bar (sp : Speaker) (prev : list Q) (n index : nat) : Q :=
  let variation := inject_Z (Qfloor (random n * 8)) + baseIntensity sp in
  let neighborInfluence :=
    if (0 <? index)%nat then nth (index - 1) prev 0 * 0.3 else 0 in
  Qmin 12 (Qmax 2 (variation + neighborInfluence)).

(** The callback of the interval. *)
Definition tick (st : State) : State :=
  match interval st with
  | Some sp =>
      {| waveformBars :=
           map (fun index => bar sp (waveformBars st) (draws st + index) index)
               (seq 0 (List.length (waveformBars st)));
         interval := Some sp;
         draws := draws st + List.length (waveformBars st) |}
  | None => st
  end.

(** The effect and its cleanup. *)
Definition effect (p : Props) (st : State) : State :=
  if negb (isActive p) then
    {| waveformBars := [1; 1; 1; 1; 1; 1; 1]; interval := None;
       draws := draws st |}
  else
    {| waveformBars := waveformBars st; interval := Some (speaker p);
       draws := draws st |}.

Definition cleanup (st : State) : State :=
  {| waveformBars := waveformBars st; interval := None; draws := draws st |}.

Definition mount (p : Props) : Instance :=
  {| props := p;
     state := effect p {| waveformBars := [3; 7; 4; 8; 2; 6; 5];
                          interval := None; draws := 0 |} |}.

(** A render with props [p]: the effect runs again when [isActive] or
    [speaker] is not what it was. *)
Definition rerender (p : Props) (i : Instance) : Instance :=
  if Bool.eqb (isActive (props i)) (isActive p)
     && Speaker_eqb (speaker (props i)) (speaker p)
  then {| props := p; state := state i |}
  else {| props := p; state := effect p (cleanup (state i)) |}.

Inductive Event : Type :=
| Tick                       (* 120 ms have passed *)
| Render (p : Props).        (* the parent renders the component *)

Definition step (e : Event) (i : Instance) : Instance :=
  match e with
  | Tick => {| props := props i; state := tick (state i) |}
  | Render p => rerender p i
  end.

Definition run (p : Props) (events : list Event) : Instance :=
  fold_left (fun i e => step e i) events (mount p).

End RandomSource.

(** ** Vocabulary of the properties *)

(** The bars of a component and its interval are as the props want
    them. *)
Record Shaped (i : Instance) : Prop := {
  sh_length : List.length (waveformBars (state i)) = 7%nat;
  sh_range : Forall (fun h => 1 <= h /\ h <= 12) (waveformBars (state i));
  sh_interval :
    interval (state i) =
    if isActive (props i) then Some (speaker (props i)) else None;
  sh_idle :
    isActive (props i) = false ->
    waveformBars (state i) = [1; 1; 1; 1; 1; 1; 1]
}.

End VoiceAnimation.

(* ================================================================== *)
(** * SentimentAnalysisTable *)

Module SentimentTable.

(** The fields of [SentimentCall] the filter reads. *)
Record SentimentCall : Type := {
  callId : string;
  overallSentiment : Sentiment;
  keyEmotions : list string
}.

(** The string a sentiment is in the data. *)
Definition sentimentName (s : Sentiment) : string :=
  match s with
  | positive => "positive"
  | neutral => "neutral"
  | negative => "negative"
  end.

(** [s.toLowerCase()] and [s.includes(sub)]. *)
Fixpoint lower (s : string) : string :=
  match s with
  | EmptyString => EmptyString
  | String c rest => String (toLowerCase c) (lower rest)
  end.

Fixpoint stringIncludes (s sub : string) : bool :=
  if String.prefix sub s then true
  else match s with
       | EmptyString => false
       | String _ rest => stringIncludes rest sub
       end.

Definition matchesSearch (searchTerm : string) (call : SentimentCall) : bool :=
  stringIncludes (lower (callId call)) (lower searchTerm)
  || existsb (fun emotion => stringIncludes (lower emotion) (lower searchTerm))
             (keyEmotions call).

Definition matchesFilter (sentimentFilter : string) (call : SentimentCall)
    : bool :=
  String.eqb sentimentFilter "all"
  || String.eqb (sentimentName (overallSentiment call)) sentimentFilter.

(** [filteredCalls] *)
Definition filteredCalls (calls : list SentimentCall)
    (searchTerm sentimentFilter : string) : list SentimentCall :=
  filter (fun call => matchesSearch searchTerm call
                      && matchesFilter sentimentFilter call) calls.

(** The rows of a sentiment. *)
Definition ofSentiment (s : Sentiment) (call : SentimentCall) : bool :=
  Sentiment_eqb (overallSentiment call) s.

(** The calls of the component. *)
Definition calls : list SentimentCall := [
  {| callId := "CALL-2024-001"; overallSentiment := negative;
     keyEmotions := ["Frustrated"; "Urgent"] |};
  {| callId := "CALL-2024-002"; overallSentiment := positive;
     keyEmotions := ["Satisfied"; "Grateful"] |};
  {| callId := "CALL-2024-003"; overallSentiment := neutral;
     keyEmotions := ["Calm"; "Inquisitive"] |};
  {| callId := "CALL-2024-004"; overallSentiment := positive;
     keyEmotions := ["Happy"; "Quick"] |};
  {| callId := "CALL-2024-005"; overallSentiment := negative;
     keyEmotions := ["Angry"; "Confused"; "Impatient"] |}
].

End SentimentTable.

(* ================================================================== *)
(** * Vocabulary of the further properties *)

Module TypewriterTerms.
Import Typewriter.



(** Props that differ from [p] in the callbacks only. *)
Definition withCallbacks (onStart' onComplete' : option Callback) (p : Props)
    : Props :=
  {| text := text p; speed := speed p; delay := delay p;
     onStart := onStart'; onComplete := onComplete' |}.

Section Frames.

Variable random : nat -> Q.

(** What the component shows while it settles: the state of each render
    [settle] goes through, in order; the last one is the state that is
    left. *)
Fixpoint frames (fuel : nat) (first : bool) (old : Props) (oldIndex : nat)
    (p : Props) (st : State) (rt : Runtime) : list State :=
  let '(st', rt') := pass random first old oldIndex p st rt in
  match fuel with
  | O => if State_eqb st' st then [st] else [st; st']
  | S fuel' =>
      if State_eqb st' st then [st]
      else st :: frames fuel' false p (currentIndex st) p st' rt'
  end.

(** The renders that follow a firing of the pending timeout: first the
    state its callback has set, then what the effects make of it. *)
Definition fireFrames (i : Instance) : list State :=
  match timeout (runtime i) with
  | None => []
  | Some t =>
      let first := (t_index t =? 0)%nat in
      let rt := {| timeout := None; draws := draws (runtime i);
                   log := log (runtime i) |} in
      let rt := if first then call (t_onStart t) Started rt else rt in
      let st := state i in
      let st' := {| displayedText := (displayedText st ++ String (t_char t) EmptyString)%string;
                    currentIndex := currentIndex st + 1;
                    isTyping := if first then true else isTyping st |} in
      frames renders false (props i) (currentIndex st) (props i) st'
             (emit [Appended (t_char t)] rt)
  end.

End Frames.

(** The random numbers from the [d]-th on. *)
Definition shift (d : nat) (random : nat -> Q) : nat -> Q :=
  fun n => random (n + d)%nat.

(** Two runtimes that differ in the past only: the same pending timer,
    [d] more random numbers drawn in the first, and logs that grew by the
    same events since they were [l1] and [l2]. *)
Record Sim (d : nat) (l1 l2 : list Event) (rt1 rt2 : Runtime) : Prop := {
  sim_timeout : timeout rt1 = timeout rt2;
  sim_draws : draws rt1 = (draws rt2 + d)%nat;
  sim_log : exists l, log rt1 = l1 ++ l /\ log rt2 = l2 ++ l
}.

End TypewriterTerms.

Module VoiceChatTerms.
Import VoiceChat.

Local Open Scope Z_scope.

(** How many of the inputs are firings of a timer. *)
Definition isFire (i : Input) : bool :=
  match i with Fire => true | _ => false end.

Definition fires (inputs : list Input) : nat :=
  List.length (filter isFire inputs).

(** The time of the [i]-th transition of a playback mounted at [t0]: the
    waiting times of the transitions up to it, added to [t0]. *)
Fixpoint scheduleTime (script : list Turn) (t0 : Z) (i : nat) : Z :=
  let before :=
    match i with
    | O => t0
    | S j => scheduleTime script t0 j
    end in
  match nth_error script (i / 4) with
  | Some m => before + gap (phaseAt i) m
  | None => before
  end.

(** ** What is rendered for a message *)

(** An optional boolean field in a condition: absent counts as false. *)
Definition flag (o : option bool) : bool :=
  match o with Some b => b | None => false end.

(** [field !== false] *)
Definition notFalse (o : option bool) : bool :=
  match o with Some false => false | _ => true end.

(** [isWaveformActive], the [isActive] prop of the message's
    [VoiceAnimation]. *)
Definition isWaveformActive (m : Message) : bool :=
  flag (showWaveformFirst m) || flag (isAnimating m).

(** The inside of the message bubble. *)
Inductive Content : Type :=
| TypingDots
| PlainText (s : string)
| TypewriterText (text : string) (speed delay : Z) (messageId : MessageId)
| NoText.

(** The bubble of a message, when one is rendered. *)
Definition bubble (m : Message) : option Content :=
  if (truthy (message m) && notFalse (messageVisible m))
     || negb (truthy (message m))
  then
    Some (if negb (truthy (message m)) then TypingDots
          else if flag (messageVisible m) && negb (flag (isAnimating m))
               then PlainText (message m)
          else if flag (messageVisible m)
               then TypewriterText (message m)
                      (match speaker m with ai => 40 | customer => 60 end)
                      300 (id m)
          else NoText)
  else None.

Definition isTypewriter (c : option Content) : bool :=
  match c with Some (TypewriterText _ _ _ _) => true | _ => false end.

(** A [TypewriterText] is mounted for the message with this id. *)
Definition typewriterMounted (mid : MessageId) (a : App) : bool :=
  existsb (fun m => MessageId_eqb (id m) mid && isTypewriter (bubble m))
          (messages a).

(** What can happen to the window, the callbacks of its mounted
    [TypewriterText] children included: [onStart] is
    [startMessageAnimation(message.id)] and [onComplete] is
    [completeMessageAnimation(message.id)]. *)
Inductive UiInput : Type :=
| Base (i : Input)
| TypewriterStart (mid : MessageId)
| TypewriterComplete (mid : MessageId).

Definition uiStep (script : list Turn) (u : UiInput) (w : World) : World :=
  match u with
  | Base i => step script i w
  | TypewriterStart mid =>
      if typewriterMounted mid (app w)
      then withApp (startMessageAnimation mid) w else w
  | TypewriterComplete mid =>
      if typewriterMounted mid (app w)
      then withApp (completeMessageAnimation mid) w else w
  end.

Definition uiRun (script : list Turn) (t0 : Z) (inputs : list UiInput)
    : World :=
  fold_left (fun w u => uiStep script u w) inputs (mount script t0).

(** The inputs that are not callbacks of a [TypewriterText]. *)
Fixpoint baseInputs (inputs : list UiInput) : list Input :=
  match inputs with
  | [] => []
  | Base i :: rest => i :: baseInputs rest
  | _ :: rest => baseInputs rest
  end.

(** What identifies a message in the list. *)
Definition key (m : Message) : MessageId * Speaker * Z :=
  (id m, speaker m, timestamp m).

(** The indicators are those of the last transition. *)
Definition indicators (w : World) : Prop :=
  match List.length (trace w) with
  | O => callStatus (app w) = Connected /\ currentSpeaker (app w) = None
  | S j =>
      exists e, nth_error (trace w) j = Some e /\
                callStatus (app w) = callStatus (e_app e) /\
                currentSpeaker (app w) = currentSpeaker (e_app e)
  end.

(** The messages no animation is recorded for. *)
Definition still (m : Message) : Prop := flag (isAnimating m) = false.

(** ** The scripted part of the transcript *)

Definition isScripted (m : Message) : bool :=
  match id m with ScriptedId _ => true | ManualId _ => false end.

Definition scripted (a : App) : list Message :=
  filter isScripted (messages a).

(** The message of turn [m], created at time [t], after [stage]
    transitions of the turn. *)
Definition scriptedMessage (m : Turn) (t : Z) (stage : nat) : Message :=
  {| id := ScriptedId t; speaker := t_speaker m;
     message := if (stage <=? 1)%nat then EmptyString else t_message m;
     timestamp := t;
     sentiment := if (stage <=? 1)%nat then None else t_sentiment m;
     isNew := Some (stage <=? 1)%nat;
     showWaveformFirst := Some (stage <=? 1)%nat;
     messageVisible := Some (3 <=? stage)%nat;
     isAnimating := if (3 <=? stage)%nat then Some false else None |}.

(** The messages of the first [k] turns, all transitions made. *)
Fixpoint doneMessages (script : list Turn) (t0 : Z) (k : nat)
    : list Message :=
  match k with
  | O => []
  | S j =>
      doneMessages script t0 j ++
      match nth_error script j with
      | Some m => [scriptedMessage m (scheduleTime script t0 (4 * j)) 4]
      | None => []
      end
  end.

(** The scripted messages after [n] transitions: those of the turns that
    are through, then that of the turn under way. *)
Definition transcript (script : list Turn) (t0 : Z) (n : nat)
    : list Message :=
  doneMessages script t0 (n / 4) ++
  match (n mod 4)%nat with
  | O => []
  | r =>
      match nth_error script (n / 4) with
      | Some m => [scriptedMessage m (scheduleTime script t0 (4 * (n / 4))) r]
      | None => []
      end
  end.

(** The message a timer's closure will change. *)
Definition target (act : Action) : option MessageId :=
  match act with
  | RevealStart _ _ mid | ShowContent _ _ mid => Some mid
  | _ => None
  end.

(** The invariant of the transcript. *)
Record Scripted (script : list Turn) (t0 : Z) (w : World) : Prop := {
  sc_playing : Playing script t0 w;
  sc_messages :
    scripted (app w) = transcript script t0 (List.length (trace w));
  sc_target :
    forall t mid,
      In t (timers w) -> target (action t) = Some mid ->
      mid = ScriptedId (scheduleTime script t0
                          (4 * (List.length (trace w) / 4)))
}.

(** What the transcript shows of a turn or a message. *)
Definition turnShown (m : Turn) : Speaker * string * option Sentiment :=
  (t_speaker m, t_message m, t_sentiment m).

Definition messageShown (m : Message) : Speaker * string * option Sentiment :=
  (speaker m, message m, sentiment m).

(** ** The mute button *)

Definition isToggle (i : Input) : bool :=
  match i with ToggleMute => true | _ => false end.

(** A world with the mute flag taken out: set to [false] in the state
    and in the states the trace holds. *)
Definition unmutedEntry (e : Entry) : Entry :=
  {| e_time := e_time e; e_phase := e_phase e; e_turn := e_turn e;
     e_app := setIsMuted false (e_app e) |}.

Definition unmuted (w : World) : World :=
  {| app := setIsMuted false (app w); now := now w; timers := timers w;
     nextTid := nextTid w; timeoutId := timeoutId w;
     trace := map unmutedEntry (trace w) |}.

End VoiceChatTerms.

(* ================================================================== *)
(** * Properties *)

Lemma includes_In (xs : list string) (x : string) :
  includes xs x = true <-> In x xs.
Proof.
  unfold includes. rewrite existsb_exists. split.
  - intros [y [Hy Heq]]. apply String.eqb_eq in Heq. now subst.
  - intros H. exists x. split; [assumption | apply String.eqb_refl].
Qed.

Lemma includes_false (xs : list string) (x : string) :
  includes xs x = false <-> ~ In x xs.
Proof.
  rewrite <- includes_In. destruct (includes xs x); split; congruence.
Qed.


Lemma fold_left_preserves {A B : Type} (P : A -> Prop) (f : A -> B -> A) :
  (forall a b, P a -> P (f a b)) ->
  forall l a, P a -> P (fold_left f l a).
Proof.
  intros Hstep l. induction l as [|b l IH]; intros a Ha; simpl.
  - exact Ha.
  - apply IH, Hstep, Ha.
Qed.

Lemma iter_S_inner {A : Type} (f : A -> A) (n : nat) (a : A) :
  iter (S n) f a = iter n f (f a).
Proof.
  induction n as [|n IH]; simpl in *; [reflexivity | now rewrite IH].
Qed.

(* ------------------------------------------------------------------ *)
(** ** The sentiment tracker *)

Module SentimentFacts.
Import SentimentPanel.

#[local] Arguments Nat.sub : simpl never.

Lemma names_snoc (es : list Emotion) (e : Emotion) :
  names (es ++ [e]) = names es ++ [name e].
Proof. unfold names. now rewrite map_app. Qed.

Lemma NoDup_snoc (xs : list string) (x : string) :
  NoDup xs -> ~ In x xs -> NoDup (xs ++ [x]).
Proof.
  intros Hnd Hx. apply NoDup_rev in Hnd.
  rewrite <- (rev_involutive (xs ++ [x])). apply NoDup_rev.
  rewrite rev_app_distr. simpl. constructor; [|assumption].
  now rewrite <- in_rev.
Qed.

Lemma acc_ok_push (s : list string) (es : list Emotion) (e : Emotion) :
  acc_ok (s, es) -> includes s (name e) = false ->
  acc_ok (name e :: s, es ++ [e]).
Proof.
  intros [Hnd Hsub] Hnew. apply includes_false in Hnew. simpl in *.
  split; simpl; rewrite names_snoc.
  - apply NoDup_snoc; [assumption | intros Hin; apply Hnew, Hsub, Hin].
  - intros x Hx. apply in_app_or in Hx. destruct Hx as [Hx | [Hx | []]].
    + right. now apply Hsub.
    + now left.
Qed.

Lemma addAuthored_ok (acc : Acc) (e : string) :
  acc_ok acc -> acc_ok (addAuthored acc e).
Proof.
  destruct acc as [s es]. intros Hok. unfold addAuthored.
  destruct (negb (String.eqb e "")); simpl; [|assumption].
  destruct (includes s e) eqn:Hin; simpl; [assumption|].
  now apply (acc_ok_push s es {| name := e; active := true;
                                 color := getEmotionColor e |}).
Qed.

Lemma addDefault_ok (pt : SentimentPoint) (acc : Acc) (e : string) :
  acc_ok acc -> acc_ok (addDefault pt acc e).
Proof.
  destruct acc as [s es]. intros Hok. unfold addDefault.
  destruct (List.length es <? 4)%nat; simpl; [|assumption].
  destruct (includes s e) eqn:Hin; simpl; [assumption|].
  now apply (acc_ok_push s es
    {| name := e; active := Sentiment_eqb (pt_currentSentiment pt) positive;
       color := "bg-blue-500" |}).
Qed.

(** For every snapshot the rebuilt list has no duplicate name. *)
Lemma rebuildEmotions_NoDup (pt : SentimentPoint) :
  NoDup (names (rebuildEmotions pt)).
Proof.
  unfold rebuildEmotions.
  refine (proj1 (fold_left_preserves acc_ok (addDefault pt)
                   (addDefault_ok pt) _ _ _)).
  apply (fold_left_preserves acc_ok addAuthored addAuthored_ok).
  split; simpl; [constructor | intros x []].
Qed.

Lemma addAuthored_fresh (l : list string) :
  NoDup l -> ~ In "" l ->
  forall acc, acc_sync acc ->
    (forall x, In x l -> ~ In x (fst acc)) ->
    acc_sync (fold_left addAuthored l acc) /\
    names (snd (fold_left addAuthored l acc)) = names (snd acc) ++ l.
Proof.
  induction l as [|e l IH]; intros Hnd Hne [s es] Hsync Hdisj; simpl.
  - split; [assumption | now rewrite app_nil_r].
  - inversion Hnd as [|? ? Hel Hnd']; subst.
    assert (He : String.eqb e "" = false).
    { apply String.eqb_neq. intros ->. apply Hne. now left. }
    assert (Hs : includes s e = false).
    { apply includes_false. apply (Hdisj e). now left. }
    rewrite He, Hs. simpl.
    destruct (IH Hnd' (fun H => Hne (or_intror H))
                (e :: s, es ++ [{| name := e; active := true;
                                   color := getEmotionColor e |}]))
      as [Hsync' Hnames].
    + intros x. simpl. rewrite names_snoc. simpl. rewrite in_app_iff. simpl.
      specialize (Hsync x). simpl in Hsync. tauto.
    + intros x Hx [Hxe | Hxs]; simpl in *.
      * subst. contradiction.
      * apply (Hdisj x); [now right | assumption].
    + split; [assumption|]. rewrite Hnames. cbn [snd].
      rewrite names_snoc. simpl. now rewrite <- app_assoc.
Qed.

Lemma filter_absent_snoc (present pool : list string) (d : string) :
  ~ In d pool ->
  filter (fun x => negb (includes (present ++ [d]) x)) pool =
  filter (fun x => negb (includes present x)) pool.
Proof.
  intros Hd. apply filter_ext_in. intros x Hx. f_equal.
  destruct (includes present x) eqn:Hp.
  - apply includes_In. apply in_or_app. left. now apply includes_In.
  - apply includes_false. intros Hin. apply in_app_or in Hin.
    apply includes_false in Hp. destruct Hin as [Hin | [Hin | []]].
    + contradiction.
    + subst. contradiction.
Qed.

Lemma addDefault_fill (pt : SentimentPoint) (pool : list string) :
  NoDup pool ->
  forall acc, acc_sync acc ->
    names (snd (fold_left (addDefault pt) pool acc)) =
    names (snd acc) ++
    fillers (names (snd acc)) pool (4 - List.length (snd acc)).
Proof.
  unfold fillers.
  induction pool as [|d pool IH]; intros Hnd [s es] Hsync; simpl.
  - now rewrite firstn_nil, app_nil_r.
  - inversion Hnd as [|? ? Hd Hnd']; subst.
    destruct (List.length es <? 4)%nat eqn:Hlen; simpl.
    + destruct (includes s d) eqn:Hs; simpl.
      * assert (Hp : includes (names es) d = true).
        { apply includes_In, (Hsync d), includes_In, Hs. }
        rewrite Hp. simpl. now apply (IH Hnd' (s, es)).
      * assert (Hp : includes (names es) d = false).
        { apply includes_false. intros Hin. apply includes_false in Hs.
          apply Hs, (Hsync d), Hin. }
        rewrite Hp. simpl.
        rewrite (IH Hnd'); cbn [fst snd].
        -- rewrite names_snoc, length_app. cbn [name List.length].
           rewrite filter_absent_snoc by assumption.
           apply Nat.ltb_lt in Hlen.
           replace (4 - List.length es)%nat
             with (S (4 - (List.length es + 1)))%nat by lia.
           simpl. now rewrite <- app_assoc.
        -- intros x. simpl. rewrite names_snoc, in_app_iff. simpl.
           specialize (Hsync x). simpl in Hsync. tauto.
    + apply Nat.ltb_ge in Hlen.
      rewrite (IH Hnd' (s, es) Hsync). simpl.
      replace (4 - List.length es)%nat with 0%nat by lia.
      reflexivity.
Qed.

Lemma rebuildEmotions_names (pt : SentimentPoint) :
  NoDup (pt_emotions pt) -> ~ In "" (pt_emotions pt) ->
  names (rebuildEmotions pt) =
  pt_emotions pt ++
  fillers (pt_emotions pt) defaultEmotions (4 - List.length (pt_emotions pt)).
Proof.
  intros Hnd Hne. unfold rebuildEmotions.
  destruct (addAuthored_fresh (pt_emotions pt) Hnd Hne ([], []))
    as [Hsync Hnames].
  - intros x. simpl. tauto.
  - intros x _ [].
  - simpl in Hnames. rewrite addDefault_fill.
    + rewrite Hnames.
      replace (List.length (snd (fold_left addAuthored (pt_emotions pt) ([], []))))
        with (List.length (pt_emotions pt)); [reflexivity|].
      apply (f_equal (@List.length string)) in Hnames.
      unfold names in Hnames. rewrite length_map in Hnames. now symmetry.
    + unfold defaultEmotions.
      repeat (constructor; [simpl; intuition discriminate|]). constructor.
    + assumption.
Qed.

Lemma rebuildEmotions_length (pt : SentimentPoint) :
  authored_ok pt -> (List.length (rebuildEmotions pt) <= 4)%nat.
Proof.
  intros (Hnd & Hne & Hlen).
  rewrite <- (length_map name). fold (names (rebuildEmotions pt)).
  rewrite rebuildEmotions_names by assumption.
  rewrite length_app. unfold fillers.
  rewrite length_firstn. lia.
Qed.

Section Ticks.

Variable script : list SentimentPoint.

#[local] Abbreviation lastIndex := (List.length script - 1)%nat.

Lemma tick_advance (s : Panel) :
  (currentProgressionIndex s < lastIndex)%nat ->
  exists nextPoint,
    nth_error script (currentProgressionIndex s + 1) = Some nextPoint /\
    tick script s =
      {| currentSentiment := pt_currentSentiment nextPoint;
         confidenceScore := confidence nextPoint;
         sentimentHistory := slice_last 8 (sentimentHistory s ++ [nextPoint]);
         currentProgressionIndex := currentProgressionIndex s + 1;
         emotions := rebuildEmotions nextPoint |}.
Proof.
  intros Hlt. unfold tick.
  destruct (Nat.ltb_spec (currentProgressionIndex s) lastIndex); [|lia].
  destruct (nth_error script (currentProgressionIndex s + 1)) as [pt|] eqn:Hnth.
  - exists pt. split; reflexivity.
  - apply nth_error_None in Hnth. lia.
Qed.

Lemma tick_noop (s : Panel) :
  (lastIndex <= currentProgressionIndex s)%nat -> tick script s = s.
Proof.
  intros Hge. unfold tick.
  destruct (Nat.ltb_spec (currentProgressionIndex s) lastIndex); [lia|reflexivity].
Qed.

Lemma tick_cursor (s : Panel) :
  currentProgressionIndex (tick script s) =
  if (currentProgressionIndex s <? lastIndex)%nat
  then (currentProgressionIndex s + 1)%nat
  else currentProgressionIndex s.
Proof.
  destruct (Nat.ltb_spec (currentProgressionIndex s) lastIndex) as [Hlt | Hge].
  - destruct (tick_advance s Hlt) as [pt [_ ->]]. reflexivity.
  - now rewrite tick_noop.
Qed.

Lemma cursor_after (n : nat) :
  currentProgressionIndex (iter n (tick script) (initial script)) =
  Nat.min n lastIndex.
Proof.
  induction n as [|n IH]; [reflexivity|].
  cbn [iter]. rewrite tick_cursor, IH.
  destruct (Nat.ltb_spec (Nat.min n lastIndex) lastIndex); lia.
Qed.

(** Past the first snapshot the displayed values are those of the
    snapshot under the cursor. *)
Lemma values_after (n : nat) :
  let s := iter n (tick script) (initial script) in
  (1 <= currentProgressionIndex s)%nat ->
  exists pt,
    nth_error script (currentProgressionIndex s) = Some pt /\
    currentSentiment s = pt_currentSentiment pt /\
    confidenceScore s = confidence pt /\
    emotions s = rebuildEmotions pt.
Proof.
  induction n as [|n IH]; simpl.
  - lia.
  - simpl in IH. set (s := iter n (tick script) (initial script)) in *.
    destruct (Nat.ltb_spec (currentProgressionIndex s) lastIndex) as [Hlt | Hge].
    + destruct (tick_advance s Hlt) as [pt [Hnth ->]]. simpl. intros _.
      exists pt. repeat split. exact Hnth.
    + rewrite tick_noop by assumption. exact IH.
Qed.

Lemma timed_after (t0 : Z) (n : nat) :
  iter n (fireInterval script) (mount script t0) =
  {| panel := iter n (tick script) (initial script);
     clock := t0 + 4000 * Z.of_nat n;
     due := t0 + 4000 * Z.of_nat (S n) |}.
Proof.
  induction n as [|n IH].
  - simpl. unfold mount. f_equal; lia.
  - change (iter (S n) (fireInterval script) (mount script t0))
      with (fireInterval script (iter n (fireInterval script) (mount script t0))).
    rewrite IH. unfold fireInterval. simpl panel; simpl clock; simpl due.
    f_equal; lia.
Qed.

End Ticks.

End SentimentFacts.

Module SentimentClaims.
Import SentimentPanel SentimentFacts.

Lemma sentimentProgression_ok : Forall authored_ok sentimentProgression.
Proof.
  unfold sentimentProgression.
  repeat (apply Forall_cons; [
    unfold authored_ok; simpl; repeat split;
    [ repeat (constructor; [simpl; intuition discriminate|]); constructor
    | intuition discriminate
    | lia ] |]).
  apply Forall_nil.
Qed.

Lemma panel_after (script : list SentimentPoint) (t0 : Z) (n : nat) :
  panel (iter n (fireInterval script) (mount script t0)) =
  iter n (tick script) (initial script).
Proof. now rewrite timed_after. Qed.

Lemma frozen_after (script : list SentimentPoint) (s : Panel) (m : nat) :
  (List.length script - 1 <= currentProgressionIndex s)%nat ->
  iter m (tick script) s = s.
Proof.
  intros Hge. induction m as [|m IH]; simpl; [reflexivity|].
  rewrite IH. now apply tick_noop.
Qed.

Lemma panel_iter_fire (script : list SentimentPoint) (t : Timed) (m : nat) :
  panel (iter m (fireInterval script) t) = iter m (tick script) (panel t).
Proof.
  induction m as [|m IH]; simpl; [reflexivity | now rewrite IH].
Qed.

(** C8.  The cursor after [n] ticks of the 4000 ms interval: every tick
    comes 4000 ms after the one before; while the cursor is before the
    last snapshot a tick moves it by exactly one; the cursor never
    decreases along the run and stays within the script; and once it is on
    the last snapshot every later tick leaves the whole panel (sentiment,
    confidence, emotion list, history, cursor) as it is. *)
Theorem C8_sentiment_cursor (script : list SentimentPoint) (t0 : Z) (n : nat) :
  let last := (List.length script - 1)%nat in
  let after k := iter k (fireInterval script) (mount script t0) in
  let cursor k := currentProgressionIndex (panel (after k)) in
  clock (after (S n)) = (clock (after n) + 4000)%Z /\
  ((cursor n < last)%nat -> cursor (S n) = (cursor n + 1)%nat) /\
  (forall m, (m <= n)%nat -> (cursor m <= cursor n)%nat) /\
  (cursor n <= List.length script)%nat /\
  cursor n = Nat.min n last /\
  ((cursor n = last)%nat ->
   forall m, panel (iter m (fireInterval script) (after n)) = panel (after n)).
Proof.
  intros last after cursor. subst last after cursor. cbv beta.
  rewrite !timed_after. cbn [panel clock].
  repeat split.
  - lia.
  - intros Hlt. cbn [iter]. rewrite tick_cursor.
    apply Nat.ltb_lt in Hlt. now rewrite Hlt.
  - intros m Hm. rewrite timed_after. cbn [panel].
    rewrite !cursor_after. lia.
  - rewrite cursor_after. lia.
  - apply cursor_after.
  - intros Hlast m. rewrite panel_iter_fire. cbn [panel].
    apply frozen_after. lia.
Qed.

(** The shipped script of eleven snapshots: the cursor is frozen on
    snapshot 10 from the tenth tick on. *)
Lemma C8_sentiment_cursor_witness :
  let after k :=
    iter k (fireInterval sentimentProgression) (mount sentimentProgression 0) in
  currentProgressionIndex (panel (after 11%nat)) = 10%nat /\
  forall m, panel (iter m (fireInterval sentimentProgression) (after 11%nat))
            = panel (after 11%nat).
Proof.
  pose proof (C8_sentiment_cursor sentimentProgression 0 11) as H.
  cbv zeta in H. destruct H as (_ & _ & _ & _ & Hc & Hfrozen).
  split.
  - exact Hc.
  - apply Hfrozen. exact Hc.
Defined.

(** C9.  After every tick of a script of well-formed snapshots (distinct,
    non-empty tags, four at most) the emotion list has no duplicate name
    and at most four entries; it holds the tags of the snapshot under the
    cursor, in their order, followed by the names of the default pool
    that are not among them, in pool order, as far as the four slots
    go. *)
Theorem C9_emotion_tags (script : list SentimentPoint) (t0 : Z) (n : nat) :
  (2 <= List.length script)%nat ->
  Forall authored_ok script ->
  let s := panel (iter (S n) (fireInterval script) (mount script t0)) in
  NoDup (names (emotions s)) /\
  (List.length (emotions s) <= 4)%nat /\
  exists pt,
    nth_error script (currentProgressionIndex s) = Some pt /\
    names (emotions s) =
      pt_emotions pt ++
      fillers (pt_emotions pt) defaultEmotions
              (4 - List.length (pt_emotions pt)).
Proof.
  intros Hlen Hok s. subst s. rewrite panel_after.
  destruct (values_after script (S n)) as (pt & Hnth & _ & _ & Hemo).
  - rewrite cursor_after. lia.
  - assert (Hpt : authored_ok pt).
    { rewrite Forall_forall in Hok. eapply Hok, nth_error_In, Hnth. }
    rewrite Hemo. split; [apply rebuildEmotions_NoDup|].
    split; [now apply rebuildEmotions_length|].
    exists pt. split; [exact Hnth|].
    destruct Hpt as (Hnd & Hne & _). now apply rebuildEmotions_names.
Qed.

Lemma C9_emotion_tags_witness :
  let s := panel (iter 5 (fireInterval sentimentProgression)
                         (mount sentimentProgression 0)) in
  (2 <= List.length sentimentProgression)%nat /\
  NoDup (names (emotions s)) /\
  (List.length (emotions s) <= 4)%nat /\
  names (emotions s) = ["Angry"; "Impatient"; "Attentive"; "Focused"].
Proof.
  assert (Hlen : (2 <= List.length sentimentProgression)%nat)
    by (vm_compute; lia).
  pose proof (C9_emotion_tags sentimentProgression 0 4 Hlen
                sentimentProgression_ok) as H.
  cbv zeta in H. destruct H as (Hnd & Hle & _).
  repeat split; [exact Hlen | exact Hnd | exact Hle].
Defined.

End SentimentClaims.

(* ------------------------------------------------------------------ *)
(** ** Strings *)

Lemma get_Some_lt (s : string) (k : nat) :
  (k < String.length s)%nat -> exists c, String.get k s = Some c.
Proof.
  revert k. induction s as [|a s IH]; intros k Hk; simpl in Hk; [lia|].
  destruct k as [|k]; simpl.
  - now exists a.
  - apply IH. lia.
Qed.

Lemma get_Some_inv (s : string) (k : nat) (c : ascii) :
  String.get k s = Some c -> (k < String.length s)%nat.
Proof.
  revert k. induction s as [|a s IH]; intros k Hk; simpl in *; [discriminate|].
  destruct k as [|k]; [lia|]. apply IH in Hk. lia.
Qed.

Lemma get_None_ge (s : string) (k : nat) :
  (String.length s <= k)%nat -> String.get k s = None.
Proof.
  intros Hk. destruct (String.get k s) as [c|] eqn:Hget; [|reflexivity].
  apply get_Some_inv in Hget. lia.
Qed.

Lemma substring_0_snoc (s : string) (k : nat) (c : ascii) :
  String.get k s = Some c ->
  substring 0 (S k) s = (substring 0 k s ++ String c EmptyString)%string.
Proof.
  revert k. induction s as [|a s IH]; intros k Hk; [discriminate|].
  destruct k as [|k].
  - simpl in Hk. injection Hk as ->. simpl. now destruct s.
  - simpl in Hk. change (substring 0 (S (S k)) (String a s))
      with (String a (substring 0 (S k) s)).
    rewrite (IH k Hk). reflexivity.
Qed.

Lemma substring_0_all (s : string) (k : nat) :
  (String.length s <= k)%nat -> substring 0 k s = s.
Proof.
  revert k. induction s as [|a s IH]; intros k Hk.
  - now destruct k.
  - simpl in Hk. destruct k as [|k]; [lia|]. simpl. f_equal. apply IH. lia.
Qed.

Lemma chars_snoc (s : string) (c : ascii) :
  chars (s ++ String c EmptyString)%string = chars s ++ [c].
Proof.
  unfold chars. induction s as [|a s IH]; simpl; [reflexivity | now rewrite IH].
Qed.

Lemma length_chars (s : string) : List.length (chars s) = String.length s.
Proof.
  unfold chars. induction s as [|a s IH]; simpl; [reflexivity | now rewrite IH].
Qed.

(* ------------------------------------------------------------------ *)
(** ** The reveal engine *)

Module TypewriterFacts.
Import Typewriter.

Lemma State_eqb_refl (st : State) : State_eqb st st = true.
Proof.
  unfold State_eqb.
  now rewrite String.eqb_refl, Nat.eqb_refl, Bool.eqb_reflx.
Qed.

Lemma State_eqb_eq (a b : State) : State_eqb a b = true -> a = b.
Proof.
  unfold State_eqb. destruct a, b. simpl. intros H.
  apply andb_prop in H. destruct H as [H Ht].
  apply andb_prop in H. destruct H as [Hd Hi].
  apply String.eqb_eq in Hd. apply Nat.eqb_eq in Hi.
  apply Bool.eqb_prop in Ht. now subst.
Qed.

Lemma option_eqb_refl (a : option Callback) : option_eqb a a = true.
Proof. destruct a; simpl; [apply Nat.eqb_refl | reflexivity]. Qed.

Lemma Qeq_bool_refl (q : Q) : Qeq_bool q q = true.
Proof. apply Qeq_bool_iff. reflexivity. Qed.

Lemma completions_app (l1 l2 : list Event) :
  completions (l1 ++ l2) = (completions l1 + completions l2)%nat.
Proof. unfold completions. now rewrite filter_app, length_app. Qed.

Lemma starts_app (l1 l2 : list Event) :
  starts (l1 ++ l2) = (starts l1 + starts l2)%nat.
Proof. unfold starts. now rewrite filter_app, length_app. Qed.

Lemma schedules_app (l1 l2 : list Event) :
  schedules (l1 ++ l2) = (schedules l1 + schedules l2)%nat.
Proof. unfold schedules. now rewrite filter_app, length_app. Qed.

Lemma appended_app (l1 l2 : list Event) :
  appended (l1 ++ l2) = appended l1 ++ appended l2.
Proof.
  induction l1 as [|e l1 IH]; simpl; [reflexivity|].
  destruct e; simpl; now rewrite IH.
Qed.

Section FixedProps.

Variable random : nat -> Q.
Variable p : Props.

#[local] Abbreviation T := (text p).

Lemma revealDepsChanged_same (old : nat) (st : State) :
  revealDepsChanged p old p st = negb (old =? currentIndex st)%nat.
Proof.
  unfold revealDepsChanged.
  now rewrite String.eqb_refl, !Qeq_bool_refl, !option_eqb_refl, !andb_true_r.
Qed.

Lemma resetDepsChanged_same : resetDepsChanged p p = false.
Proof. unfold resetDepsChanged. now rewrite String.eqb_refl. Qed.

(** A render with unchanged props: the reveal effect alone may run, and
    only when the index moved. *)
Lemma pass_same_props (old : nat) (st : State) (rt : Runtime) :
  pass random false p old p st rt =
  if (old =? currentIndex st)%nat then (st, rt)
  else let '(rt2, off) := revealEffect random p st (revealCleanup rt) in
       (if off then typingOff st else st, rt2).
Proof.
  unfold pass. rewrite revealDepsChanged_same, resetDepsChanged_same.
  destruct (old =? currentIndex st)%nat; simpl; [reflexivity|].
  destruct (revealEffect random p st (revealCleanup rt)) as [rt2 off].
  now destruct off.
Qed.

(** Two renders are enough after the index moved: the second one finds
    nothing to do. *)
Lemma settle_same_props (f old : nat) (st : State) (rt : Runtime) :
  old <> currentIndex st ->
  settle random (S (S f)) false p old p st rt =
  let '(rt2, off) := revealEffect random p st (revealCleanup rt) in
  {| props := p; state := if off then typingOff st else st; runtime := rt2 |}.
Proof.
  intros Hold. apply Nat.eqb_neq in Hold.
  cbn [settle]. rewrite pass_same_props, Hold.
  destruct (revealEffect random p st (revealCleanup rt)) as [rt2 off].
  destruct off.
  - destruct (State_eqb (typingOff st) st) eqn:Heq.
    + apply State_eqb_eq in Heq. now rewrite Heq.
    + rewrite pass_same_props. cbn [typingOff currentIndex].
      rewrite Nat.eqb_refl.
      destruct f; now rewrite State_eqb_refl.
  - now rewrite State_eqb_refl.
Qed.

Lemma revealEffect_char (st : State) (rt : Runtime) (c : ascii) :
  String.get (currentIndex st) T = Some c ->
  revealEffect random p st rt =
  (let ms := if (currentIndex st =? 0)%nat then delay p
             else fst (getTypingSpeed random (speed p) c (currentIndex st) T
                                      (draws rt)) in
   {| timeout := Some {| t_index := currentIndex st; t_char := c;
                         t_onStart := onStart p; t_ms := ms |};
      draws := snd (getTypingSpeed random (speed p) c (currentIndex st) T
                                   (draws rt));
      log := log rt ++ [Scheduled ms c] |}, false).
Proof.
  intros Hget. unfold revealEffect.
  pose proof (get_Some_inv _ _ _ Hget) as Hlt.
  apply Nat.ltb_lt in Hlt. rewrite Hlt, Hget.
  now destruct (getTypingSpeed random (speed p) c (currentIndex st) T (draws rt)).
Qed.

Lemma revealEffect_end (st : State) (rt : Runtime) :
  currentIndex st = String.length T ->
  revealEffect random p st rt = (call (onComplete p) Completed rt, true).
Proof.
  intros Hend. unfold revealEffect.
  rewrite Hend, Nat.ltb_irrefl, Nat.eqb_refl. reflexivity.
Qed.

(** Mounting: the reveal effect for index 0, then the reset effect,
    which changes nothing. *)
Lemma mount_eq :
  mount random p =
  {| props := p;
     state := {| displayedText := EmptyString; currentIndex := 0;
                 isTyping := false |};
     runtime :=
       emit [Reset]
         (fst (revealEffect random p
                 {| displayedText := EmptyString; currentIndex := 0;
                    isTyping := false |}
                 {| timeout := None; draws := 0; log := [] |})) |}.
Proof.
  unfold mount, renders. cbn [settle]. unfold pass. cbn [orb andb negb].
  destruct (revealEffect random p _ _) as [rt2 off]. cbn [fst].
  reflexivity.
Qed.

Lemma log_call (cb : option Callback) (ev : Callback -> Event) (rt : Runtime) :
  log (call cb ev rt) =
  log rt ++ match cb with Some f => [ev f] | None => [] end.
Proof. destruct cb; simpl; [reflexivity | now rewrite app_nil_r]. Qed.

Lemma timeout_call (cb : option Callback) (ev : Callback -> Event) (rt : Runtime) :
  timeout (call cb ev rt) = timeout rt.
Proof. now destruct cb. Qed.

Lemma draws_call (cb : option Callback) (ev : Callback -> Event) (rt : Runtime) :
  draws (call cb ev rt) = draws rt.
Proof. now destruct cb. Qed.

Lemma substring_0_0 (s : string) : substring 0 0 s = EmptyString.
Proof. now destruct s. Qed.

Lemma Typing_mount : Typing random p 0 (mount random p).
Proof.
  rewrite mount_eq.
  destruct (String.get 0 T) as [c|] eqn:Hget.
  - rewrite (revealEffect_char _ _ c) by exact Hget.
    pose proof (get_Some_inv _ _ _ Hget) as Hlt.
    constructor; cbn [props state runtime currentIndex displayedText fst emit
                      timeout draws log Nat.eqb app].
    + reflexivity.
    + reflexivity.
    + now rewrite substring_0_0.
    + rewrite Hget. now exists 0%nat.
    + now rewrite substring_0_0.
    + apply Nat.ltb_lt in Hlt. now rewrite Hlt.
    + reflexivity.
    + cbn. destruct (String.length T); [lia | reflexivity].
    + lia.
  - assert (Hlen : String.length T = 0%nat).
    { destruct T; [reflexivity | discriminate]. }
    rewrite revealEffect_end by (cbn; now rewrite Hlen).
    constructor; cbn [props state runtime currentIndex displayedText fst emit
                      timeout draws log Nat.eqb].
    + reflexivity.
    + reflexivity.
    + now rewrite substring_0_0.
    + now rewrite Hget, timeout_call.
    + rewrite substring_0_0, log_call, appended_app. cbn [log app].
      destruct (onComplete p); reflexivity.
    + rewrite log_call, completions_app, Hlen. cbn [log].
      destruct (onComplete p); reflexivity.
    + rewrite log_call, starts_app. destruct (onComplete p); reflexivity.
    + rewrite log_call, schedules_app, Hlen.
      destruct (onComplete p); reflexivity.
    + lia.
Qed.

Lemma revealCleanup_idle (rt : Runtime) :
  timeout rt = None -> revealCleanup rt = rt.
Proof. unfold revealCleanup. now intros ->. Qed.

(** What a firing timeout does, in one equation. *)
Lemma fire_typing (i : Instance) (t : Timeout) :
  props i = p ->
  timeout (runtime i) = Some t ->
  t_index t = currentIndex (state i) ->
  fire random i =
  let first := (t_index t =? 0)%nat in
  let rt0 := {| timeout := None; draws := draws (runtime i);
                log := log (runtime i) |} in
  let rt := emit [Appended (t_char t)]
                 (if first then call (t_onStart t) Started rt0 else rt0) in
  let st' := {| displayedText :=
                  (displayedText (state i) ++ String (t_char t) EmptyString)%string;
                currentIndex := currentIndex (state i) + 1;
                isTyping := if first then true else isTyping (state i) |} in
  let '(rt2, off) := revealEffect random p st' rt in
  {| props := p; state := if off then typingOff st' else st'; runtime := rt2 |}.
Proof.
  intros Hp Ht Hidx. unfold fire. rewrite Ht, Hp. unfold renders.
  rewrite settle_same_props by (cbn [currentIndex]; lia).
  rewrite revealCleanup_idle; [reflexivity|].
  cbn [emit timeout]. destruct (t_index t =? 0)%nat; [|reflexivity].
  now rewrite timeout_call.
Qed.

Lemma Typing_fire (k : nat) (i : Instance) :
  Typing random p k i -> (k < String.length T)%nat ->
  Typing random p (S k) (fire random i).
Proof.
  intros [Hp Hidx Htext Htime Happ Hcomp Hstart Hsched Hlast] Hlt.
  destruct (get_Some_lt T k Hlt) as [c Hget]. rewrite Hget in Htime.
  destruct Htime as [n Htime].
  rewrite (fire_typing i _ Hp Htime) by (symmetry; exact Hidx).
  cbn [t_index t_char t_onStart]. cbv zeta.
  set (rt0 := {| timeout := None; draws := draws (runtime i);
                 log := log (runtime i) |}).
  set (rt1 := if (k =? 0)%nat then call (onStart p) Started rt0 else rt0).
  set (st' := {| displayedText := _; currentIndex := _; isTyping := _ |}).
  assert (Hidx' : currentIndex st' = S k) by (subst st'; cbn; lia).
  assert (Htext' : displayedText st' = substring 0 (S k) T).
  { subst st'. cbn. now rewrite (substring_0_snoc T k c Hget), Htext. }
  assert (Hlog1 : log rt1 = log (runtime i) ++
            if (k =? 0)%nat then
              match onStart p with Some f => [Started f] | None => [] end
            else []).
  { subst rt1. destruct (k =? 0)%nat.
    - now rewrite log_call.
    - cbn. now rewrite app_nil_r. }
  assert (Happ1 : appended (log (emit [Appended c] rt1)) =
                  chars (substring 0 (S k) T)).
  { cbn [emit log]. rewrite appended_app, Hlog1, appended_app, Happ.
    rewrite (substring_0_snoc T k c Hget), chars_snoc.
    destruct (k =? 0)%nat; [destruct (onStart p)|]; cbn;
      now rewrite ?app_nil_r. }
  assert (Hcomp1 : completions (log (emit [Appended c] rt1)) = 0%nat).
  { cbn [emit log]. rewrite completions_app, Hlog1, completions_app, Hcomp.
    apply Nat.ltb_lt in Hlt. rewrite Hlt.
    destruct (k =? 0)%nat; [destruct (onStart p)|]; reflexivity. }
  assert (Hstart1 : starts (log (emit [Appended c] rt1)) = given (onStart p)).
  { cbn [emit log]. rewrite starts_app, Hlog1, starts_app, Hstart.
    destruct (k =? 0)%nat; [destruct (onStart p)|]; cbn; lia. }
  assert (Hsched1 : schedules (log (emit [Appended c] rt1)) = S k).
  { cbn [emit log]. rewrite schedules_app, Hlog1, schedules_app, Hsched.
    unfold schedules.
    destruct (k =? 0)%nat; [destruct (onStart p)|];
      cbn [filter isScheduled List.length]; lia. }
  destruct (String.get (S k) T) as [c'|] eqn:Hget'.
  - rewrite (revealEffect_char st' _ c') by (now rewrite Hidx').
    pose proof (get_Some_inv _ _ _ Hget') as Hlt'.
    rewrite Hidx'.
    constructor; cbn [props state runtime timeout draws log].
    + reflexivity.
    + exact Hidx'.
    + exact Htext'.
    + rewrite Hget'. eexists. reflexivity.
    + rewrite appended_app, Happ1. cbn. now rewrite app_nil_r.
    + rewrite completions_app, Hcomp1. apply Nat.ltb_lt in Hlt'.
      now rewrite Hlt'.
    + rewrite starts_app, Hstart1. unfold starts.
      cbn [filter isStarted List.length Nat.eqb]. lia.
    + rewrite schedules_app, Hsched1. unfold schedules.
      cbn [filter isScheduled List.length]. lia.
    + lia.
  - assert (Hend : S k = String.length T).
    { destruct (Nat.lt_ge_cases (S k) (String.length T)) as [Hl | Hg]; [|lia].
      destruct (get_Some_lt T (S k) Hl) as [c' Hc']. congruence. }
    rewrite revealEffect_end by (now rewrite Hidx').
    constructor; cbn [props state runtime typingOff currentIndex displayedText].
    + reflexivity.
    + exact Hidx'.
    + exact Htext'.
    + rewrite Hget', timeout_call. cbn [emit timeout].
      subst rt1. destruct (k =? 0)%nat; [now rewrite timeout_call | reflexivity].
    + rewrite log_call, appended_app, Happ1.
      destruct (onComplete p); cbn; now rewrite app_nil_r.
    + rewrite log_call, completions_app, Hcomp1, Hend, Nat.ltb_irrefl.
      destruct (onComplete p); reflexivity.
    + rewrite log_call, starts_app, Hstart1. unfold starts.
      destruct (onComplete p); cbn [filter isStarted List.length Nat.eqb]; lia.
    + rewrite log_call, schedules_app, Hsched1. unfold schedules.
      destruct (onComplete p); cbn [filter isScheduled List.length]; lia.
    + intros _ _ cb Hcb. rewrite log_call, Hcb. cbn [emit log].
      exists (log rt1), c. now rewrite <- app_assoc.
Qed.

Lemma fire_idle (i : Instance) :
  timeout (runtime i) = None -> fire random i = i.
Proof. unfold fire. now intros ->. Qed.

Lemma Typing_idle (k : nat) (i : Instance) :
  Typing random p k i -> (String.length T <= k)%nat ->
  timeout (runtime i) = None.
Proof.
  intros H Hge. pose proof (ty_timeout _ _ _ _ H) as Ht.
  now rewrite (get_None_ge T k Hge) in Ht.
Qed.

(** The run: one character per firing until the text is out, nothing
    after that. *)
Lemma Typing_run (k : nat) :
  (k <= String.length T)%nat -> Typing random p k (run random p k).
Proof.
  unfold run. induction k as [|k IH]; intros Hk.
  - apply Typing_mount.
  - cbn [iter]. apply Typing_fire; [apply IH|]; lia.
Qed.

Lemma run_done (k : nat) :
  (String.length T <= k)%nat ->
  run random p k = run random p (String.length T).
Proof.
  intros Hk. replace k with ((k - String.length T) + String.length T)%nat by lia.
  generalize (k - String.length T)%nat as d. clear k Hk.
  induction d as [|d IH]; [reflexivity|].
  unfold run in *. cbn [Nat.add iter]. rewrite IH.
  apply fire_idle.
  apply (Typing_idle (String.length T)); [|lia].
  apply (Typing_run (String.length T)). lia.
Qed.

End FixedProps.

End TypewriterFacts.

Module TypewriterClaims.
Import Typewriter TypewriterFacts.

(** C2.  Mounted with a text [T] (any speed, any delay, any random
    source) and left to its timers, the component shows after [k] firings
    the first [k] characters of [T]: each firing appends the next
    character of [T], and from the [length T]-th firing on it shows [T].
    [onComplete] has not been called while a character is missing and has
    been called exactly once from then on; when [T] is not empty the call
    directly follows the append of the last character. *)
Theorem C2_reveal_prefixes (random : nat -> Q) (p : Props) (cb : Callback) :
  onComplete p = Some cb ->
  let T := text p in
  let shown k := displayedText (state (run random p k)) in
  let events k := log (runtime (run random p k)) in
  (forall k, (k <= String.length T)%nat -> shown k = substring 0 k T) /\
  (forall k, (k < String.length T)%nat ->
     exists c, String.get k T = Some c /\
               shown (S k) = (shown k ++ String c EmptyString)%string) /\
  (forall k, (String.length T <= k)%nat -> shown k = T) /\
  (forall k, appended (events k) = chars (substring 0 k T)) /\
  (forall k, completions (events k) =
             if (k <? String.length T)%nat then 0%nat else 1%nat) /\
  ((0 < String.length T)%nat ->
   forall k, (String.length T <= k)%nat ->
     exists l c, events k = l ++ [Appended c; Completed cb]).
Proof.
  intros Hcb T shown events. subst T shown events. cbv beta.
  assert (Hshown : forall k, (k <= String.length (text p))%nat ->
            displayedText (state (run random p k)) = substring 0 k (text p)).
  { intros k Hk. apply (ty_text _ _ _ _ (Typing_run random p k Hk)). }
  repeat split.
  - exact Hshown.
  - intros k Hk. destruct (get_Some_lt (text p) k Hk) as [c Hc].
    exists c. split; [exact Hc|].
    rewrite !Hshown by lia. now apply substring_0_snoc.
  - intros k Hk. rewrite run_done by exact Hk.
    rewrite Hshown by lia. now apply substring_0_all.
  - intros k. destruct (Nat.le_gt_cases k (String.length (text p))) as [Hk | Hk].
    + apply (ty_appended _ _ _ _ (Typing_run random p k Hk)).
    + rewrite run_done by lia.
      rewrite (ty_appended _ _ _ _ (Typing_run random p _ (Nat.le_refl _))).
      now rewrite !substring_0_all by lia.
  - intros k. destruct (Nat.ltb_spec k (String.length (text p))) as [Hk | Hk].
    + rewrite (ty_completions _ _ _ _
                 (Typing_run random p k (Nat.lt_le_incl _ _ Hk))).
      apply Nat.ltb_lt in Hk. now rewrite Hk.
    + rewrite run_done by exact Hk.
      rewrite (ty_completions _ _ _ _ (Typing_run random p _ (Nat.le_refl _))).
      now rewrite Nat.ltb_irrefl, Hcb.
  - intros Hpos k Hk. rewrite run_done by exact Hk.
    now apply (ty_last _ _ _ _ (Typing_run random p _ (Nat.le_refl _))).
Qed.

Lemma C2_reveal_prefixes_witness :
  onComplete (demo "Hi.") = Some 2%nat /\
  displayedText (state (run half (demo "Hi.") 2)) = "Hi" /\
  displayedText (state (run half (demo "Hi.") 7)) = "Hi." /\
  completions (log (runtime (run half (demo "Hi.") 2))) = 0%nat /\
  completions (log (runtime (run half (demo "Hi.") 7))) = 1%nat.
Proof.
  pose proof (C2_reveal_prefixes half (demo "Hi.") 2%nat eq_refl) as H.
  cbv zeta in H. destruct H as (Hpre & _ & Hfull & _ & Hcount & _).
  split; [reflexivity|].
  split; [apply (Hpre 2%nat); simpl; lia|].
  split; [apply (Hfull 7%nat); simpl; lia|].
  split; [apply (Hcount 2%nat) | apply (Hcount 7%nat)].
Defined.

(** C10.  Mounted with the empty text, the component calls [onComplete]
    in its first effect run, before any timer: no timeout is ever set
    and [onStart] is never called, however long one waits. *)
Theorem C10_empty_text (random : nat -> Q) (p : Props) (cb : Callback) (k : nat) :
  text p = EmptyString ->
  onComplete p = Some cb ->
  log (runtime (mount random p)) = [Completed cb; Reset] /\
  run random p k = mount random p /\
  timeout (runtime (run random p k)) = None /\
  schedules (log (runtime (run random p k))) = 0%nat /\
  starts (log (runtime (run random p k))) = 0%nat.
Proof.
  intros Htext Hcb.
  assert (Hlog : log (runtime (mount random p)) = [Completed cb; Reset]).
  { rewrite mount_eq, revealEffect_end by (now rewrite Htext).
    cbn [runtime emit log fst]. now rewrite log_call, Hcb. }
  assert (Hrun : run random p k = mount random p).
  { rewrite run_done by (rewrite Htext; simpl; lia). now rewrite Htext. }
  rewrite Hrun, Hlog. repeat split.
  rewrite mount_eq, revealEffect_end by (now rewrite Htext).
  cbn [runtime emit timeout fst]. now rewrite timeout_call.
Qed.

Lemma C10_empty_text_witness :
  text (demo "") = EmptyString /\
  onComplete (demo "") = Some 2%nat /\
  log (runtime (run half (demo "") 5)) = [Completed 2%nat; Reset].
Proof.
  destruct (C10_empty_text half (demo "") 2%nat 5 eq_refl eq_refl)
    as (Hlog & Hrun & _).
  split; [reflexivity|]. split; [reflexivity|].
  rewrite Hrun. exact Hlog.
Defined.

End TypewriterClaims.

Module DelayFacts.
Import Typewriter.

Lemma split_not_nil (sep : ascii) (s : string) : split sep s <> [].
Proof.
  destruct s as [|c s]; simpl; [discriminate|].
  destruct (Ascii.eqb c sep); [discriminate|].
  destruct (split sep s); discriminate.
Qed.

Lemma split_spaceless (w : string) :
  spaceless w -> split " " w = [w].
Proof.
  unfold spaceless, chars. induction w as [|c w IH]; simpl; intros Hw.
  - reflexivity.
  - destruct (Ascii.eqb_spec c " ") as [-> | Hc].
    + exfalso. apply Hw. now left.
    + rewrite IH; [reflexivity|]. intros Hin. apply Hw. now right.
Qed.

Lemma last_cons_not_nil {A : Type} (x d : A) (l : list A) :
  l <> [] -> last (x :: l) d = last l d.
Proof. destruct l; [congruence | reflexivity]. Qed.

Lemma split_two (pre w : string) :
  exists a b rest, split " " (pre ++ String " " w) = a :: b :: rest.
Proof.
  induction pre as [|c pre IH]; simpl.
  - destruct (split " " w) as [|b rest] eqn:Hs.
    + now apply split_not_nil in Hs.
    + now exists EmptyString, b, rest.
  - destruct IH as (a & b & rest & ->).
    destruct (Ascii.eqb c " ").
    + now exists EmptyString, a, (b :: rest).
    + now exists (String c a), b, rest.
Qed.

Lemma last_split_after_space (pre w : string) :
  last (split " " (pre ++ String " " w)) EmptyString =
  last (split " " w) EmptyString.
Proof.
  induction pre as [|c pre IH].
  - simpl. apply last_cons_not_nil, split_not_nil.
  - change ((String c pre ++ String " " w)%string)
      with (String c (pre ++ String " " w)).
    cbn [split]. destruct (Ascii.eqb c " ").
    + rewrite last_cons_not_nil by apply split_not_nil. exact IH.
    + destruct (split_two pre w) as (a & b & rest & Hsplit).
      rewrite Hsplit in *. rewrite <- IH. reflexivity.
Qed.

Lemma append_assoc (a b c : string) :
  ((a ++ b) ++ c)%string = (a ++ (b ++ c))%string.
Proof. induction a as [|x a IH]; simpl; [reflexivity | now rewrite IH]. Qed.

(** The word before position [index]: what follows the last space of
    the text up to [index]. *)
Lemma wordBefore_spec (fullText : string) (index : nat) (pre w : string) :
  substring 0 index fullText = (pre ++ w)%string ->
  atWordStart pre -> spaceless w ->
  wordBefore fullText index = w.
Proof.
  intros Hsub Hpre Hw. unfold wordBefore. rewrite Hsub.
  destruct Hpre as [-> | [pre' ->]].
  - simpl. now rewrite split_spaceless.
  - rewrite append_assoc. change (" " ++ w)%string with (String " " w).
    rewrite last_split_after_space. now rewrite split_spaceless.
Qed.

Lemma includesChar_In (xs : list ascii) (c : ascii) :
  includesChar xs c = true <-> In c xs.
Proof.
  unfold includesChar. rewrite existsb_exists. split.
  - intros [y [Hy Heq]]. apply Ascii.eqb_eq in Heq. now subst.
  - intros H. exists c. split; [assumption | apply Ascii.eqb_refl].
Qed.

Lemma includesChar_false (xs : list ascii) (c : ascii) :
  includesChar xs c = false <-> ~ In c xs.
Proof.
  rewrite <- includesChar_In. destruct (includesChar xs c); split; congruence.
Qed.

(** Case folding reaches a common letter from its two ASCII forms only. *)
Lemma common_fold (c : ascii) :
  includesChar commonLetters (toLowerCase c) =
  includesChar (commonLetters ++ upperCommonLetters) c.
Proof.
  destruct c as [[] [] [] [] [] [] [] []]; reflexivity.
Qed.

End DelayFacts.

Module Utf16Facts.
Import Utf16.

(** *** The word before a position *)

Lemma units_split_not_nil (sep : CodeUnit) (s : list CodeUnit) :
  split sep s <> [].
Proof.
  destruct s as [|c s]; cbn [split]; [discriminate|].
  destruct (c =? sep)%N; [discriminate|].
  destruct (split sep s); discriminate.
Qed.

Lemma units_split_spaceless (w : list CodeUnit) :
  spaceless w -> split 32%N w = [w].
Proof.
  unfold spaceless. induction w as [|c w IH]; cbn [split]; intros Hw.
  - reflexivity.
  - destruct (N.eqb_spec c 32) as [-> | Hc].
    + exfalso. apply Hw. now left.
    + rewrite IH; [reflexivity|]. intros Hin. apply Hw. now right.
Qed.

Lemma units_split_two (pre w : list CodeUnit) :
  exists a b rest, split 32%N (pre ++ 32%N :: w) = a :: b :: rest.
Proof.
  induction pre as [|c pre IH]; cbn [List.app split].
  - cbn [N.eqb Pos.eqb]. destruct (split 32%N w) as [|b rest] eqn:Hs.
    + now apply units_split_not_nil in Hs.
    + now exists [], b, rest.
  - destruct IH as (a & b & rest & ->).
    destruct (c =? 32)%N.
    + now exists [], a, (b :: rest).
    + now exists (c :: a), b, rest.
Qed.

Lemma units_last_split (pre w : list CodeUnit) :
  last (split 32%N (pre ++ 32%N :: w)) [] = last (split 32%N w) [].
Proof.
  induction pre as [|c pre IH].
  - cbn [List.app split N.eqb Pos.eqb].
    apply DelayFacts.last_cons_not_nil, units_split_not_nil.
  - cbn [List.app split]. destruct (c =? 32)%N.
    + rewrite DelayFacts.last_cons_not_nil by apply units_split_not_nil.
      exact IH.
    + destruct (units_split_two pre w) as (a & b & rest & Hsplit).
      rewrite Hsplit in *. rewrite <- IH. reflexivity.
Qed.

(** The word before position [index]: what follows the last space of
    the text up to [index]. *)
Lemma units_wordBefore_spec (fullText : list CodeUnit) (index : nat)
    (pre w : list CodeUnit) :
  firstn index fullText = pre ++ w ->
  atWordStart pre -> spaceless w ->
  wordBefore fullText index = w.
Proof.
  intros Hsub Hpre Hw. unfold wordBefore. rewrite Hsub.
  destruct Hpre as [-> | [pre' ->]].
  - cbn [List.app]. now rewrite units_split_spaceless.
  - rewrite <- app_assoc. cbn [List.app].
    rewrite units_last_split. now rewrite units_split_spaceless.
Qed.

(** *** The character classes, as sets of code units *)

Lemma includesUnit_In (xs : list CodeUnit) (u : CodeUnit) :
  includesUnit xs u = true <-> In u xs.
Proof.
  unfold includesUnit. rewrite existsb_exists. split.
  - intros [y [Hy Heq]]. apply N.eqb_eq in Heq. now subst.
  - intros H. exists u. split; [assumption | apply N.eqb_refl].
Qed.

Lemma includesUnit_false (xs : list CodeUnit) (u : CodeUnit) :
  includesUnit xs u = false <-> ~ In u xs.
Proof.
  rewrite <- includesUnit_In. destruct (includesUnit xs u); split; congruence.
Qed.

Lemma between_iff (lo hi u : N) :
  between lo hi u = true <-> (lo <= u /\ u <= hi)%N.
Proof.
  unfold between. now rewrite andb_true_iff, !N.leb_le.
Qed.

Lemma isWhiteSpace_iff (u : CodeUnit) :
  isWhiteSpace u = true <->
  ((9 <= u /\ u <= 13) \/ u = 32 \/ u = 160 \/ u = 0x1680 \/
   (0x2000 <= u /\ u <= 0x200A) \/ u = 0x2028 \/ u = 0x2029 \/
   u = 0x202F \/ u = 0x205F \/ u = 0x3000 \/ u = 0xFEFF)%N.
Proof.
  unfold isWhiteSpace.
  rewrite !orb_true_iff, !between_iff, !N.eqb_eq. tauto.
Qed.

(** Case folding reaches a common letter from its two ASCII forms only. *)
Lemma units_common_fold (u : CodeUnit) :
  includesUnit commonLetters (toLowerCase u) =
  includesUnit (commonLetters ++ upperCommonLetters) u.
Proof.
  apply eq_true_iff_eq. rewrite !includesUnit_In.
  unfold toLowerCase, isUpperAZ.
  destruct (between 65 90 u) eqn:Hup; cbn [orb].
  - apply between_iff in Hup. cbn [commonLetters upperCommonLetters List.app In].
    lia.
  - assert (Hup' : ~ (65 <= u /\ u <= 90)%N).
    { intros H. apply between_iff in H. congruence. }
    destruct (between 192 222 u && negb (u =? 215)%N) eqn:Hlat.
    + apply andb_prop in Hlat. destruct Hlat as [Hlat _].
      apply between_iff in Hlat.
      cbn [commonLetters upperCommonLetters List.app In]. lia.
    + destruct (N.eqb_spec u 0x212A) as [-> | Hk];
        cbn [commonLetters upperCommonLetters List.app In]; lia.
Qed.

(** [getTypingSpeed] by character class. *)
Lemma units_getTypingSpeed_classes (random : nat -> Q) (s : Q) (u : CodeUnit)
    (i : nat) (T : list CodeUnit) (n : nat) :
  fst (getTypingSpeed random s u i T n) =
  (if includesUnit sentenceEnd u then s * 3
   else if includesUnit midPunctuation u then s * 2
   else if (u =? 32)%N then
     if (7 <? List.length (wordBefore T i))%nat then s * 2 else s * 1.3
   else if includesUnit (commonLetters ++ upperCommonLetters) u then s * 0.7
   else if isDigit u then s * 1.4
   else if negb (isAlphanumeric u) && negb (isWhiteSpace u) then s * 1.3
   else Qmax (s * (1 + (random n - 0.5) * 0.5)) (s * 0.3))%Q.
Proof.
  unfold getTypingSpeed. rewrite units_common_fold.
  destruct (includesUnit sentenceEnd u) eqn:H1; [reflexivity|].
  destruct (includesUnit midPunctuation u) eqn:H2; [reflexivity|].
  destruct (u =? 32)%N; [now destruct (_ <? _)%nat|].
  destruct (includesUnit (commonLetters ++ upperCommonLetters) u); [reflexivity|].
  destruct (isDigit u) eqn:H5; [reflexivity|].
  assert (H6 : includesUnit (sentenceEnd ++ midPunctuation) u = false).
  { apply includesUnit_false. intros Hin. apply in_app_or in Hin.
    apply includesUnit_false in H1. apply includesUnit_false in H2. tauto. }
  rewrite H6. unfold isOtherSymbol, isAlphanumeric. rewrite H5.
  rewrite !orb_false_r, andb_true_r.
  rewrite (negb_orb (isLowerAZ u || isUpperAZ u) (isWhiteSpace u)).
  now destruct (negb (isLowerAZ u || isUpperAZ u) && negb (isWhiteSpace u)).
Qed.

(** The classes of the policy, as conditions on the code unit. *)
Lemma units_classes (u : CodeUnit) :
  (includesUnit sentenceEnd u = true <-> (u = 46 \/ u = 33 \/ u = 63)%N) /\
  (includesUnit midPunctuation u = true <-> (u = 44 \/ u = 59 \/ u = 58)%N) /\
  (includesUnit (commonLetters ++ upperCommonLetters) u = true <->
   (u = 101 \/ u = 116 \/ u = 97 \/ u = 111 \/ u = 105 \/ u = 110 \/
    u = 115 \/ u = 104 \/ u = 114 \/ u = 69 \/ u = 84 \/ u = 65 \/ u = 79 \/
    u = 73 \/ u = 78 \/ u = 83 \/ u = 72 \/ u = 82)%N) /\
  (isDigit u = true <-> (48 <= u /\ u <= 57)%N) /\
  (isLetterAZ u = true <->
   ((97 <= u /\ u <= 122) \/ (65 <= u /\ u <= 90))%N).
Proof.
  rewrite !includesUnit_In. unfold isDigit, isLetterAZ, isLowerAZ, isUpperAZ.
  rewrite orb_true_iff, !between_iff.
  cbn [sentenceEnd midPunctuation commonLetters upperCommonLetters List.app In].
  repeat split; intros; lia.
Qed.

Lemma false_iff_not (b : bool) (P : Prop) :
  (b = true <-> P) -> (b = false <-> ~ P).
Proof. destruct b; intuition congruence. Qed.

End Utf16Facts.

(** *** Texts of code units below 256 *)

Module Latin1Facts.

Lemma unit_inj (a b : ascii) : Utf16.unit a = Utf16.unit b -> a = b.
Proof.
  unfold Utf16.unit. intros H.
  rewrite <- (ascii_N_embedding a), <- (ascii_N_embedding b). now rewrite H.
Qed.

Lemma unit_eqb (a b : ascii) :
  (Utf16.unit a =? Utf16.unit b)%N = Ascii.eqb a b.
Proof.
  destruct (Ascii.eqb_spec a b) as [-> | Hne]; [apply N.eqb_refl|].
  apply N.eqb_neq. intros H. now apply unit_inj in H.
Qed.

Lemma includesUnit_units (xs : list ascii) (c : ascii) :
  Utf16.includesUnit (map Utf16.unit xs) (Utf16.unit c) = includesChar xs c.
Proof.
  unfold Utf16.includesUnit, includesChar.
  induction xs as [|x xs IH]; [reflexivity|]. cbn [map existsb].
  now rewrite unit_eqb, IH.
Qed.

Lemma classes_units (c : ascii) :
  Utf16.isDigit (Utf16.unit c) = isDigit c /\
  Utf16.isOtherSymbol (Utf16.unit c) = isOtherSymbol c /\
  Utf16.unit (toLowerCase c) = Utf16.toLowerCase (Utf16.unit c).
Proof.
  destruct c as [[] [] [] [] [] [] [] []]; vm_compute; repeat split.
Qed.

Lemma length_units (s : string) :
  List.length (Utf16.units s) = String.length s.
Proof. induction s as [|c s IH]; cbn; [reflexivity | now rewrite IH]. Qed.

Lemma split_units (sep : ascii) (s : string) :
  Utf16.split (Utf16.unit sep) (Utf16.units s) =
  map Utf16.units (split sep s).
Proof.
  induction s as [|c s IH]; [reflexivity|].
  cbn [Utf16.units Utf16.split split].
  rewrite unit_eqb, IH. destruct (Ascii.eqb c sep); [reflexivity|].
  destruct (split sep s) as [|w ws] eqn:Hs; [|reflexivity].
  now apply DelayFacts.split_not_nil in Hs.
Qed.

Lemma substring_units (s : string) (k : nat) :
  Utf16.units (substring 0 k s) = firstn k (Utf16.units s).
Proof.
  revert k. induction s as [|c s IH]; intros [|k]; cbn; try reflexivity.
  now rewrite IH.
Qed.

Lemma last_units (l : list string) :
  last (map Utf16.units l) [] = Utf16.units (last l EmptyString).
Proof.
  induction l as [|x l IH]; [reflexivity|].
  destruct l as [|y l]; [reflexivity|]. exact IH.
Qed.

Lemma wordBefore_units (fullText : string) (index : nat) :
  Utf16.wordBefore (Utf16.units fullText) index =
  Utf16.units (wordBefore fullText index).
Proof.
  unfold Utf16.wordBefore, wordBefore.
  rewrite <- substring_units.
  change 32%N with (Utf16.unit " "%char).
  now rewrite split_units, last_units.
Qed.

(** On a text of code units below 256, [getTypingSpeed] is the function
    of the component. *)
Lemma getTypingSpeed_units (random : nat -> Q) (s : Q) (c : ascii) (i : nat)
    (T : string) (n : nat) :
  Utf16.getTypingSpeed random s (Utf16.unit c) i (Utf16.units T) n =
  Typewriter.getTypingSpeed random s c i T n.
Proof.
  unfold Utf16.getTypingSpeed, Typewriter.getTypingSpeed.
  destruct (classes_units c) as (Hd & Ho & Hl).
  change Utf16.sentenceEnd with (map Utf16.unit sentenceEnd).
  change Utf16.midPunctuation with (map Utf16.unit midPunctuation).
  change Utf16.commonLetters with (map Utf16.unit commonLetters).
  rewrite <- map_app, <- Hl, !includesUnit_units, Hd, Ho.
  change 32%N with (Utf16.unit " "%char). rewrite unit_eqb.
  now rewrite wordBefore_units, length_units.
Qed.

End Latin1Facts.

Module DelayClaims.
Import Typewriter TypewriterFacts DelayFacts.

Local Open Scope Q_scope.

(** [getTypingSpeed] by character class. *)
Lemma getTypingSpeed_classes (random : nat -> Q) (s : Q) (c : ascii)
    (i : nat) (T : string) (n : nat) :
  fst (getTypingSpeed random s c i T n) =
  if includesChar sentenceEnd c then s * 3
  else if includesChar midPunctuation c then s * 2
  else if Ascii.eqb c " " then
    if (7 <? String.length (wordBefore T i))%nat then s * 2 else s * 1.3
  else if includesChar (commonLetters ++ upperCommonLetters) c then s * 0.7
  else if isDigit c then s * 1.4
  else if negb (isAlphanumeric c) && negb (isWhiteSpace c) then s * 1.3
  else Qmax (s * (1 + (random n - 0.5) * 0.5)) (s * 0.3).
Proof.
  unfold getTypingSpeed. rewrite common_fold.
  destruct (includesChar sentenceEnd c) eqn:H1; [reflexivity|].
  destruct (includesChar midPunctuation c) eqn:H2; [reflexivity|].
  destruct (Ascii.eqb c " "); [now destruct (_ <? _)%nat|].
  destruct (includesChar (commonLetters ++ upperCommonLetters) c); [reflexivity|].
  destruct (isDigit c) eqn:H5; [reflexivity|].
  assert (H6 : includesChar (sentenceEnd ++ midPunctuation) c = false).
  { unfold includesChar in *. now rewrite existsb_app, H1, H2. }
  rewrite H6. unfold isOtherSymbol, isAlphanumeric. rewrite H5.
  rewrite !orb_false_r, andb_true_r.
  rewrite (negb_orb (isLowerAZ c || isUpperAZ c) (isWhiteSpace c)).
  now destruct (negb (isLowerAZ c || isUpperAZ c) && negb (isWhiteSpace c)).
Qed.

(** The classes of the policy exclude one another. *)
Lemma class_exclusion (c : ascii) :
  let stop := includesChar sentenceEnd c in
  let mid := includesChar midPunctuation c in
  let sp := Ascii.eqb c " " in
  let common := includesChar (commonLetters ++ upperCommonLetters) c in
  let digit := isDigit c in
  let letter := isLowerAZ c || isUpperAZ c in
  let white := isWhiteSpace c in
  (stop = true -> True) /\
  (mid = true -> stop = false) /\
  (sp = true -> stop = false /\ mid = false) /\
  (common = true -> stop = false /\ mid = false /\ sp = false /\ letter = true) /\
  (digit = true -> stop = false /\ mid = false /\ sp = false /\ common = false) /\
  (letter = true ->
   stop = false /\ mid = false /\ sp = false /\ digit = false /\ white = false) /\
  (white = true ->
   stop = false /\ mid = false /\ common = false /\ digit = false /\
   letter = false).
Proof.
  destruct c as [[] [] [] [] [] [] [] []]; vm_compute;
    repeat split; intros; trivial; discriminate.
Qed.

Lemma interval_image (r a b : Q) :
  a <= (r - 0.5) * 0.5 < b <-> 2 * a + 0.5 <= r < 2 * b + 0.5.
Proof. split; intros [H1 H2]; split; lra. Qed.

(** C5, as the code has it.  A character is a UTF-16 code unit
    [text[i]].  The timer that is pending once [i] characters are out
    appends the character at position [i]; it waits [delay] when [i = 0]
    and otherwise the value [d] of [getTypingSpeed] for that character.
    For every code unit, position and text that value is: [3 s] for
    ['.'], ['!'], ['?']; [2 s] for [','], [';'], [':']; for the character
    [' '], [2 s] when the word before it (what follows the last [' '] of
    the text so far) is longer than 7 and [1.3 s] otherwise; [0.7 s] for
    e, t, a, o, i, n, s, h, r in either case; [1.4 s] for a digit;
    [1.3 s] for a code unit that is neither a letter a-z or A-Z nor a
    digit nor white space of the class [\s] nor one of the six
    punctuation marks; and for the remaining letters a-z, A-Z and the
    white space other than [' '] the value [max (s (1 + U)) (0.3 s)],
    where [U] is the draw [r] of [Math.random()] halved and moved down by
    a quarter: it lies in [[-0.25, 0.25)] when [r] lies in [[0, 1)], and
    it lies in a part [[a, b)] of that range exactly when [r] lies in the
    part [[2a + 0.5, 2b + 0.5)] of the unit range, twice as long, so [U]
    is uniform when [r] is. *)
Theorem C5_typing_delay (random : nat -> Q) :
  (forall (p : Props) (i : nat) (c : ascii),
     String.get i (text p) = Some c ->
     exists n : nat,
       timeout (runtime (run random p i)) =
       Some {| t_index := i; t_char := c; t_onStart := onStart p;
               t_ms := if (i =? 0)%nat then delay p
                       else fst (Utf16.getTypingSpeed random (speed p)
                                   (Utf16.unit c) i (Utf16.units (text p))
                                   n) |}) /\
  (forall (s : Q) (u : Utf16.CodeUnit) (i : nat) (T : list Utf16.CodeUnit)
          (n : nat),
     let d := fst (Utf16.getTypingSpeed random s u i T n) in
     let r := random n in
     let U := (r - 0.5) * 0.5 in
     (In u Utf16.sentenceEnd -> d = s * 3) /\
     (In u Utf16.midPunctuation -> d = s * 2) /\
     (u = 32%N ->
      forall pre w, firstn i T = pre ++ w ->
        Utf16.atWordStart pre -> Utf16.spaceless w ->
        d = if (7 <? List.length w)%nat then s * 2 else s * 1.3) /\
     (In u (Utf16.commonLetters ++ Utf16.upperCommonLetters) -> d = s * 0.7) /\
     (Utf16.isDigit u = true -> d = s * 1.4) /\
     (Utf16.isAlphanumeric u = false -> Utf16.isWhiteSpace u = false ->
      ~ In u (Utf16.sentenceEnd ++ Utf16.midPunctuation) -> d = s * 1.3) /\
     ((Utf16.isLetterAZ u = true /\
       ~ In u (Utf16.commonLetters ++ Utf16.upperCommonLetters)) \/
      (Utf16.isWhiteSpace u = true /\ u <> 32%N) ->
      d = Qmax (s * (1 + U)) (s * 0.3) /\
      (0 <= r < 1 -> -0.25 <= U < 0.25) /\
      (forall a b, a <= U < b <-> 2 * a + 0.5 <= r < 2 * b + 0.5))).
Proof.
  split.
  - intros p i c Hget.
    pose proof (get_Some_inv _ _ _ Hget) as Hlt.
    pose proof (ty_timeout _ _ _ _
                  (Typing_run random p i (Nat.lt_le_incl _ _ Hlt))) as Htime.
    rewrite Hget in Htime. destruct Htime as [n Htime].
    exists n. now rewrite Latin1Facts.getTypingSpeed_units.
  - intros s u i T n d r U. subst d r U.
    rewrite Utf16Facts.units_getTypingSpeed_classes.
    destruct (Utf16Facts.units_classes u)
      as (Hstop & Hmid & Hcommon & Hdigit & Hletter).
    pose proof (Utf16Facts.isWhiteSpace_iff u) as Hwhite.
    pose proof (N.eqb_eq u 32) as Hspace.
    assert (Halnum : Utf16.isAlphanumeric u = true <->
                     (((97 <= u /\ u <= 122) \/ (65 <= u /\ u <= 90)) \/
                      (48 <= u /\ u <= 57))%N).
    { change (Utf16.isAlphanumeric u)
        with (Utf16.isLetterAZ u || Utf16.isDigit u)%bool.
      rewrite orb_true_iff. tauto. }
    assert (Hpunct : In u (Utf16.sentenceEnd ++ Utf16.midPunctuation) <->
                     ((u = 46 \/ u = 33 \/ u = 63) \/
                      (u = 44 \/ u = 59 \/ u = 58))%N).
    { rewrite in_app_iff, <- !Utf16Facts.includesUnit_In. tauto. }
    split; [|split; [|split; [|split; [|split; [|split]]]]].
    + intros Hin. apply Utf16Facts.includesUnit_In in Hin. now rewrite Hin.
    + intros Hin. apply Utf16Facts.includesUnit_In, Hmid in Hin.
      rewrite (proj2 (Utf16Facts.false_iff_not _ _ Hstop)) by lia.
      now rewrite (proj2 Hmid) by lia.
    + intros -> pre w Hsub Hpre Hw.
      rewrite (Utf16Facts.units_wordBefore_spec T i pre w Hsub Hpre Hw).
      reflexivity.
    + intros Hin. apply Utf16Facts.includesUnit_In, Hcommon in Hin.
      rewrite (proj2 (Utf16Facts.false_iff_not _ _ Hstop)) by lia.
      rewrite (proj2 (Utf16Facts.false_iff_not _ _ Hmid)) by lia.
      rewrite (proj2 (Utf16Facts.false_iff_not _ _ Hspace)) by lia.
      now rewrite (proj2 Hcommon) by lia.
    + intros Hd. pose proof Hd as Hd'. apply Hdigit in Hd'.
      rewrite (proj2 (Utf16Facts.false_iff_not _ _ Hstop)) by lia.
      rewrite (proj2 (Utf16Facts.false_iff_not _ _ Hmid)) by lia.
      rewrite (proj2 (Utf16Facts.false_iff_not _ _ Hspace)) by lia.
      rewrite (proj2 (Utf16Facts.false_iff_not _ _ Hcommon)) by lia.
      now rewrite Hd.
    + intros Ha Hw Hp. pose proof Ha as Ha'. pose proof Hw as Hw'.
      apply (Utf16Facts.false_iff_not _ _ Halnum) in Ha'.
      apply (Utf16Facts.false_iff_not _ _ Hwhite) in Hw'.
      rewrite Hpunct in Hp.
      rewrite (proj2 (Utf16Facts.false_iff_not _ _ Hstop)) by lia.
      rewrite (proj2 (Utf16Facts.false_iff_not _ _ Hmid)) by lia.
      rewrite (proj2 (Utf16Facts.false_iff_not _ _ Hspace)) by lia.
      rewrite (proj2 (Utf16Facts.false_iff_not _ _ Hcommon)) by lia.
      rewrite (proj2 (Utf16Facts.false_iff_not _ _ Hdigit)) by lia.
      now rewrite Ha, Hw.
    + intros Hcase.
      assert (Hdefault :
                Utf16.includesUnit Utf16.sentenceEnd u = false /\
                Utf16.includesUnit Utf16.midPunctuation u = false /\
                (u =? 32)%N = false /\
                Utf16.includesUnit
                  (Utf16.commonLetters ++ Utf16.upperCommonLetters) u = false /\
                Utf16.isDigit u = false /\
                (negb (Utf16.isAlphanumeric u)
                 && negb (Utf16.isWhiteSpace u))%bool = false).
      { destruct Hcase as [[Hl Hnc] | [Hw Hns]].
        - pose proof Hl as Hl'. apply Hletter in Hl'.
          rewrite <- Utf16Facts.includesUnit_In, Hcommon in Hnc.
          rewrite (proj2 (Utf16Facts.false_iff_not _ _ Hstop)) by lia.
          rewrite (proj2 (Utf16Facts.false_iff_not _ _ Hmid)) by lia.
          rewrite (proj2 (Utf16Facts.false_iff_not _ _ Hspace)) by lia.
          rewrite (proj2 (Utf16Facts.false_iff_not _ _ Hcommon)) by lia.
          rewrite (proj2 (Utf16Facts.false_iff_not _ _ Hdigit)) by lia.
          rewrite (proj2 Halnum) by lia. repeat split.
        - pose proof Hw as Hw'. apply Hwhite in Hw'.
          rewrite (proj2 (Utf16Facts.false_iff_not _ _ Hstop)) by lia.
          rewrite (proj2 (Utf16Facts.false_iff_not _ _ Hmid)) by lia.
          rewrite (proj2 (Utf16Facts.false_iff_not _ _ Hspace)) by lia.
          rewrite (proj2 (Utf16Facts.false_iff_not _ _ Hcommon)) by lia.
          rewrite (proj2 (Utf16Facts.false_iff_not _ _ Hdigit)) by lia.
          rewrite Hw. rewrite andb_false_r. repeat split. }
      destruct Hdefault as (-> & -> & -> & -> & -> & ->).
      split; [reflexivity|]. split; [intros [H0 H1]; split; lra|].
      intros a b. apply interval_image.
Qed.

(** In ["Hello, dashboard 7"], mounted with speed 50 and delay 300, the
    comma waits 100; the ideographic space U+3000 between two letters
    waits the varied time. *)
Lemma C5_typing_delay_witness :
  String.get 5 "Hello, dashboard 7" = Some ","%char /\
  (exists n,
     timeout (runtime (run half (demo "Hello, dashboard 7") 5)) =
       Some {| t_index := 5; t_char := ","; t_onStart := Some 1%nat;
               t_ms := fst (Utf16.getTypingSpeed half 50 44%N 5
                              (Utf16.units "Hello, dashboard 7") n) |}) /\
  (forall n, fst (Utf16.getTypingSpeed half 50 44%N 5
                    (Utf16.units "Hello, dashboard 7") n) = 50 * 2) /\
  fst (Utf16.getTypingSpeed half 50 0x3000%N 1 Utf16.wide 0) =
    Qmax (50 * (1 + (half 0%nat - 0.5) * 0.5)) (50 * 0.3).
Proof.
  destruct (C5_typing_delay half) as [Hsched Hpolicy].
  split; [reflexivity|]. split; [|split].
  - exact (Hsched (demo "Hello, dashboard 7") 5%nat ","%char eq_refl).
  - intros n.
    apply (Hpolicy 50 44%N 5%nat (Utf16.units "Hello, dashboard 7") n).
    cbn. tauto.
  - apply (Hpolicy 50 0x3000%N 1%nat Utf16.wide 0%nat).
    right. split; [reflexivity | discriminate].
Defined.

(** C5 as the specification words it fails at a tab: the wording gives
    every non-alphanumeric character other than the space the fixed delay
    [1.3 s], the code gives white space the varied delay. *)
Lemma C5_tab_counterexample :
  String.get 1 tabbed = Some tab /\
  ~ (fst (getTypingSpeed half 50 tab 1 tabbed 0) ==
     statedDelay 50 ((half 0%nat - 0.5) * 0.5) tabbed 1 tab).
Proof.
  split; [reflexivity|]. vm_compute. discriminate.
Qed.

(** Whatever the draw, a tab waits less than the [1.3 s] of a space. *)
Lemma tab_below_space_delay (random : nat -> Q) (s : Q) (i : nat) (T : string)
    (n : nat) :
  0 < s -> random n < 1 ->
  fst (getTypingSpeed random s tab i T n) < s * 1.3.
Proof.
  intros Hs Hr. rewrite getTypingSpeed_classes. cbn -[Qmax Qmult Qplus Qminus].
  apply Q.max_lub_lt; nra.
Qed.

End DelayClaims.

Module RestartClaims.
Import Typewriter TypewriterFacts.

Lemma State_eqb_index (a b : State) :
  currentIndex a <> currentIndex b -> State_eqb a b = false.
Proof.
  intros H. unfold State_eqb. apply Nat.eqb_neq in H.
  now rewrite H, andb_false_r.
Qed.

Lemma settle_step (random : nat -> Q) (f : nat) (first : bool) (old : Props)
    (oldIndex : nat) (p : Props) (st : State) (rt : Runtime) :
  settle random (S f) first old oldIndex p st rt =
  let '(st', rt') := pass random first old oldIndex p st rt in
  if State_eqb st' st then {| props := p; state := st; runtime := rt' |}
  else settle random f false p (currentIndex st) p st' rt'.
Proof. reflexivity. Qed.

(** Three renders always settle: more fuel gives the same instance. *)
Lemma settle_enough (random : nat -> Q) (k : nat) (first : bool) (old : Props)
    (oldIndex : nat) (p : Props) (st : State) (rt : Runtime) :
  settle random (renders + k) first old oldIndex p st rt =
  settle random renders first old oldIndex p st rt.
Proof.
  unfold renders. cbn [Nat.add]. rewrite !settle_step.
  destruct (pass random first old oldIndex p st rt) as [st1 rt1].
  destruct (State_eqb st1 st); [reflexivity|].
  rewrite !settle_step, pass_same_props.
  destruct (currentIndex st =? currentIndex st1)%nat.
  - now rewrite State_eqb_refl.
  - destruct (revealEffect random p st1 (revealCleanup rt1)) as [rt2 off].
    set (st2 := if off then typingOff st1 else st1).
    assert (Hidx : currentIndex st2 = currentIndex st1)
      by (subst st2; now destruct off).
    destruct (State_eqb st2 st1); [reflexivity|].
    assert (Hpass : pass random false p (currentIndex st1) p st2 rt2 = (st2, rt2)).
    { rewrite pass_same_props, Hidx. now rewrite Nat.eqb_refl. }
    destruct k as [|k]; cbn [settle]; rewrite Hpass; [reflexivity|].
    now rewrite State_eqb_refl.
Qed.

(** A render with a new text: the reveal effect runs for the new text
    and the state as it is, then the reset effect. *)
Lemma pass_new_text (random : nat -> Q) (p p' : Props) (old : nat)
    (st : State) (rt : Runtime) :
  String.eqb (text p) (text p') = false ->
  pass random false p old p' st rt =
  ({| displayedText := EmptyString; currentIndex := 0; isTyping := false |},
   emit [Reset] (fst (revealEffect random p' st (revealCleanup rt)))).
Proof.
  intros Heqb. unfold pass, revealDepsChanged, resetDepsChanged.
  rewrite Heqb, andb_false_r. cbn [andb negb orb].
  now destruct (revealEffect random p' st (revealCleanup rt)).
Qed.

Lemma revealEffect_past (random : nat -> Q) (p : Props) (st : State)
    (rt : Runtime) :
  (String.length (text p) < currentIndex st)%nat ->
  revealEffect random p st rt = (rt, false).
Proof.
  intros H. unfold revealEffect.
  destruct (Nat.ltb_spec (currentIndex st) (String.length (text p))); [lia|].
  destruct (Nat.eqb_spec (currentIndex st) (String.length (text p))); [lia|].
  reflexivity.
Qed.

(** The part of C6 the code keeps.  When the new text is not empty and
    its length is not the number of characters already out, the restart
    calls no callback and appends nothing: the old timer is cleared, the
    state is reset to the empty prefix, and the timer left pending is the
    one of the first character of the new text, after [delay]. *)
Lemma restart_clean (random : nat -> Q) (p p' : Props) (k : nat) :
  (0 < k < String.length (text p))%nat ->
  text p' <> text p ->
  (0 < String.length (text p'))%nat ->
  String.length (text p') <> k ->
  let before := run random p k in
  let after := rerender random p' before in
  completions (log (runtime after)) = completions (log (runtime before)) /\
  starts (log (runtime after)) = starts (log (runtime before)) /\
  appended (log (runtime after)) = appended (log (runtime before)) /\
  state after = {| displayedText := EmptyString; currentIndex := 0;
                   isTyping := false |} /\
  exists c,
    String.get 0 (text p') = Some c /\
    timeout (runtime after) =
      Some {| t_index := 0; t_char := c; t_onStart := onStart p';
              t_ms := delay p' |}.
Proof.
  intros [Hpos Hlt] Hneq H0 Hlen before after.
  pose proof (Typing_run random p k (Nat.lt_le_incl _ _ Hlt)) as Hty.
  fold before in Hty.
  destruct Hty as [Hp Hidx _ Htime _ _ _ _ _].
  destruct (get_Some_lt (text p) k Hlt) as [ck Hck]. rewrite Hck in Htime.
  destruct Htime as [n Htime].
  destruct (get_Some_lt (text p') 0 H0) as [c Hc].
  assert (Heqb : String.eqb (text p) (text p') = false).
  { apply String.eqb_neq. congruence. }
  assert (Hclean : revealCleanup (runtime before) =
            {| timeout := None; draws := draws (runtime before);
               log := log (runtime before) ++ [Cleared] |}).
  { unfold revealCleanup. now rewrite Htime. }
  subst after. unfold rerender, renders. rewrite Hp, Hidx.
  rewrite settle_step, pass_new_text by exact Heqb.
  rewrite Hclean. cbv iota beta.
  rewrite State_eqb_index by (cbn [currentIndex]; lia).
  rewrite settle_same_props by (cbn [currentIndex]; lia).
  destruct (Nat.lt_ge_cases k (String.length (text p'))) as [Hin | Hout].
  - destruct (get_Some_lt (text p') k Hin) as [c' Hc'].
    rewrite (revealEffect_char random p' (state before) _ c')
      by (now rewrite Hidx).
    cbn [fst emit timeout draws log]. unfold revealCleanup.
    cbn [emit timeout draws log].
    rewrite (revealEffect_char random p' _ _ c) by exact Hc.
    cbn [props state runtime displayedText currentIndex log timeout Nat.eqb
         emit].
    repeat rewrite completions_app. repeat rewrite starts_app.
    repeat rewrite appended_app.
    unfold completions, starts.
    cbn [filter isCompleted isStarted List.length appended].
    rewrite ?Nat.add_0_r, ?app_nil_r.
    repeat split. exists c. now split.
  - rewrite (revealEffect_past random p' (state before))
      by (rewrite Hidx; lia).
    cbn [fst emit timeout draws log]. unfold revealCleanup.
    cbn [emit timeout draws log].
    rewrite (revealEffect_char random p' _ _ c) by exact Hc.
    cbn [props state runtime displayedText currentIndex log timeout Nat.eqb
         emit].
    repeat rewrite completions_app. repeat rewrite starts_app.
    repeat rewrite appended_app.
    unfold completions, starts.
    cbn [filter isCompleted isStarted List.length appended].
    rewrite ?Nat.add_0_r, ?app_nil_r.
    repeat split. exists c. now split.
Qed.

(** C6, where the code departs from it.  A reveal of [p] is in progress
    with [k] characters out ([0 < k < length]) when the parent passes a
    new text whose length is exactly [k].  The reveal effect runs for the
    new text with the index of the old reveal still in place, finds
    [currentIndex === text.length] and calls [onComplete] at once; only
    then does the reset effect clear the state and the new reveal start. *)
Theorem C6_restart_fires_onComplete (random : nat -> Q) (p p' : Props)
    (k : nat) (cb : Callback) :
  (0 < k < String.length (text p))%nat ->
  text p' <> text p ->
  String.length (text p') = k ->
  onComplete p' = Some cb ->
  let before := run random p k in
  let after := rerender random p' before in
  displayedText (state before) = substring 0 k (text p) /\
  completions (log (runtime before)) = 0%nat /\
  exists c,
    String.get 0 (text p') = Some c /\
    log (runtime after) =
      log (runtime before) ++
      [Cleared; Completed cb; Reset; Scheduled (delay p') c] /\
    displayedText (state after) = EmptyString /\
    currentIndex (state after) = 0%nat.
Proof.
  intros [Hpos Hlt] Hneq Hlen Hcb before after.
  pose proof (Typing_run random p k (Nat.lt_le_incl _ _ Hlt)) as Hty.
  fold before in Hty.
  destruct Hty as [Hp Hidx Htext Htime _ Hcomp _ _ _].
  split; [exact Htext|].
  split; [apply Nat.ltb_lt in Hlt; now rewrite Hcomp, Hlt|].
  destruct (get_Some_lt (text p) k Hlt) as [ck Hck]. rewrite Hck in Htime.
  destruct Htime as [n Htime].
  assert (H0 : (0 < String.length (text p'))%nat) by lia.
  destruct (get_Some_lt (text p') 0 H0) as [c Hc].
  exists c. split; [exact Hc|].
  assert (Heqb : String.eqb (text p) (text p') = false).
  { apply String.eqb_neq. congruence. }
  assert (Hclean : revealCleanup (runtime before) =
            {| timeout := None; draws := draws (runtime before);
               log := log (runtime before) ++ [Cleared] |}).
  { unfold revealCleanup. now rewrite Htime. }
  subst after. unfold rerender, renders. rewrite Hp, Hidx.
  rewrite settle_step, pass_new_text by exact Heqb.
  rewrite Hclean, revealEffect_end by (now rewrite Hidx, Hlen).
  cbv iota beta. cbn [fst].
  rewrite State_eqb_index by (cbn [currentIndex]; lia).
  rewrite settle_same_props by (cbn [currentIndex]; lia).
  rewrite revealCleanup_idle by (cbn [emit timeout]; now rewrite timeout_call).
  rewrite (revealEffect_char random p' _ _ c) by exact Hc.
  cbn [props state runtime displayedText currentIndex log emit Nat.eqb fst].
  rewrite log_call, Hcb. cbn [log].
  repeat split. now rewrite <- !app_assoc.
Qed.

(** Two characters of ["abc"] are out when the text becomes ["xy"]. *)
Lemma C6_restart_fires_onComplete_witness :
  let before := run half (demo "abc") 2 in
  let after := rerender half (demo "xy") before in
  displayedText (state before) = "ab" /\
  completions (log (runtime before)) = 0%nat /\
  log (runtime after) =
    log (runtime before) ++ [Cleared; Completed 2%nat; Reset; Scheduled 300 "x"].
Proof.
  assert (H1 : (0 < 2 < String.length (text (demo "abc")))%nat)
    by (simpl; lia).
  assert (H2 : text (demo "xy") <> text (demo "abc")) by discriminate.
  destruct (C6_restart_fires_onComplete half (demo "abc") (demo "xy") 2 2%nat
              H1 H2 eq_refl eq_refl) as (Hshown & Hcount & c & Hc & Hlog & _).
  split; [exact Hshown|]. split; [exact Hcount|].
  injection Hc as <-. exact Hlog.
Defined.

End RestartClaims.

(* ------------------------------------------------------------------ *)
(** ** The playback driver *)

Module VoiceChatFacts.
Import VoiceChat.

Local Open Scope Z_scope.

Ltac Zify.zify_post_hook ::= Z.to_euclidean_division_equations.

Lemma avgTypingDuration_exact (m : Turn) :
  5 * avgTypingDuration m =
  6 * (Z.of_nat (String.length (t_message m)) * baseSpeed (t_speaker m)).
Proof.
  unfold avgTypingDuration, baseSpeed. destruct (t_speaker m); lia.
Qed.

Lemma typingDuration_nonneg (m : Turn) : 0 <= typingDuration m + 500.
Proof.
  pose proof (avgTypingDuration_exact m) as H. unfold typingDuration.
  unfold baseSpeed in H. destruct (t_speaker m); lia.
Qed.

Lemma gap_max (ph : Phase) (m : Turn) :
  ph <> Pending -> Z.max 0 (gap ph m) = gap ph m.
Proof.
  intros Hph. pose proof (typingDuration_nonneg m).
  destruct ph; cbn [gap]; try congruence; try lia.
  destruct (t_speaker m); reflexivity.
Qed.

(** *** Positions in the trace *)

Lemma phaseAt_cases (n : nat) :
  ((n mod 4 = 0)%nat /\ phaseAt n = Pending /\ phaseAt (S n) = RevealStarted) \/
  ((n mod 4 = 1)%nat /\ phaseAt n = RevealStarted /\ phaseAt (S n) = ContentVisible) \/
  ((n mod 4 = 2)%nat /\ phaseAt n = ContentVisible /\ phaseAt (S n) = Completed) \/
  ((n mod 4 = 3)%nat /\ phaseAt n = Completed /\ phaseAt (S n) = Pending).
Proof.
  unfold phaseAt.
  assert (H : (n mod 4 < 4)%nat) by (apply Nat.mod_upper_bound; lia).
  assert (HS : (S n mod 4 = if (n mod 4 =? 3)%nat then 0 else S (n mod 4))%nat).
  { destruct (Nat.eqb_spec (n mod 4) 3); lia. }
  rewrite HS.
  destruct (n mod 4)%nat as [|[|[|[|?]]]]; cbn; try lia; tauto.
Qed.

Lemma phaseAt_Pending (n : nat) : phaseAt n = Pending <-> (n mod 4 = 0)%nat.
Proof.
  destruct (phaseAt_cases n) as [H|[H|[H|H]]]; destruct H as (Hm & Hp & _);
    rewrite Hp, Hm; split; (congruence || lia).
Qed.

Lemma phaseAt_Completed (n : nat) : phaseAt n = Completed <-> (n mod 4 = 3)%nat.
Proof.
  destruct (phaseAt_cases n) as [H|[H|[H|H]]]; destruct H as (Hm & Hp & _);
    rewrite Hp, Hm; split; (congruence || lia).
Qed.

Lemma timeBefore_snoc (t0 : Z) (tr : list Entry) (e : Entry) (i : nat) :
  (i <= List.length tr)%nat ->
  timeBefore t0 (tr ++ [e]) i = timeBefore t0 tr i.
Proof.
  intros Hi. destruct i as [|j]; [reflexivity|]. cbn [timeBefore].
  now rewrite nth_error_app1 by lia.
Qed.

Lemma timeBefore_last (t0 : Z) (tr : list Entry) (e : Entry) :
  timeBefore t0 (tr ++ [e]) (S (List.length tr)) = e_time e.
Proof.
  cbn [timeBefore]. rewrite nth_error_app2 by lia.
  now rewrite Nat.sub_diag.
Qed.

Lemma traceOk_snoc (script : list Turn) (t0 : Z) (tr : list Entry) (e : Entry) :
  traceOk script t0 tr ->
  entryOk script (timeBefore t0 tr (List.length tr)) (List.length tr) e ->
  traceOk script t0 (tr ++ [e]).
Proof.
  intros Htr He i e' Hnth.
  destruct (Nat.lt_ge_cases i (List.length tr)) as [Hlt | Hge].
  - rewrite nth_error_app1 in Hnth by exact Hlt.
    rewrite timeBefore_snoc by lia. now apply Htr.
  - assert (Hi : i = List.length tr).
    { assert (Hs : nth_error (tr ++ [e]) i <> None) by congruence.
      apply nth_error_Some in Hs. rewrite length_app in Hs.
      cbn in Hs. lia. }
    subst i. rewrite nth_error_app2, Nat.sub_diag in Hnth by lia.
    injection Hnth as <-. rewrite timeBefore_snoc by lia. exact He.
Qed.

(** *** Messages *)

Lemma pending_snoc (a : App) (m : Message) :
  pendingMessages (setMessages (fun prev => prev ++ [m]) a) =
  pendingMessages a ++ (if isPendingReveal m then [m] else []).
Proof. unfold pendingMessages. cbn. now rewrite filter_app. Qed.

Lemma pending_updateMessage (a : App) (mid : MessageId) (text : string)
    (s : option Sentiment) :
  pendingMessages (updateMessage mid text s a) =
  filter (fun x => negb (MessageId_eqb (id x) mid)) (pendingMessages a).
Proof.
  unfold pendingMessages, updateMessage. cbn [messages setMessages].
  induction (messages a) as [|x l IH]; [reflexivity|]. cbn [map filter].
  destruct (MessageId_eqb (id x) mid) eqn:Hid.
  - cbn [isPendingReveal showWaveformFirst]. rewrite IH.
    destruct (isPendingReveal x); [cbn [filter]; now rewrite Hid | reflexivity].
  - rewrite IH. destruct (isPendingReveal x); [cbn [filter]; now rewrite Hid | reflexivity].
Qed.

Lemma MessageId_eqb_refl (i : MessageId) : MessageId_eqb i i = true.
Proof. destruct i; cbn; apply Z.eqb_refl. Qed.

Lemma pending_showMessageContent (a : App) (mid : MessageId) :
  pendingMessages a = [] -> pendingMessages (showMessageContent mid a) = [].
Proof.
  unfold pendingMessages, showMessageContent. cbn [messages setMessages].
  induction (messages a) as [|x l IH]; [reflexivity|]. cbn [map filter].
  intros H.
  assert (Hx : isPendingReveal
            (if MessageId_eqb (id x) mid
             then {| id := id x; speaker := speaker x; message := message x;
                     timestamp := timestamp x; sentiment := sentiment x;
                     isNew := isNew x; showWaveformFirst := showWaveformFirst x;
                     messageVisible := Some true; isAnimating := Some false |}
             else x) = isPendingReveal x).
  { now destruct (MessageId_eqb (id x) mid). }
  rewrite Hx. destruct (isPendingReveal x); [discriminate|]. now apply IH.
Qed.

Lemma In_pending (a : App) (msg : Message) :
  In msg (pendingMessages a) -> In msg (messages a).
Proof. unfold pendingMessages. intros H. now apply filter_In in H. Qed.

(** *** Steps that leave the playback alone *)

Section Preservation.

Variable conversationFlow : list Turn.
Variable t0 : Z.

Lemma Playing_frame (w w' : World) :
  Playing conversationFlow t0 w ->
  timers w' = timers w ->
  trace w' = trace w ->
  Forall (fun t => now w' <= due t) (timers w) ->
  currentMessageIndex (app w') = currentMessageIndex (app w) ->
  callStatus (app w') = callStatus (app w) ->
  currentSpeaker (app w') = currentSpeaker (app w) ->
  pendingMessages (app w') = pendingMessages (app w) ->
  (forall m, In m (messages (app w)) -> In m (messages (app w'))) ->
  Playing conversationFlow t0 w'.
Proof.
  intros [Htr Hidx Hbound Hnow Htimer] Hti Htrace Hnow' Hindex Hst Hsp Hpend Hin.
  constructor; rewrite ?Hti, ?Htrace, ?Hindex; try assumption.
  destruct (nth_error conversationFlow (List.length (trace w) / 4)) as [m|].
  - unfold pendingTimer in *. rewrite Hti, Htrace, Hpend, Hst, Hsp.
    destruct (phaseAt (List.length (trace w))); try exact Htimer.
    destruct Htimer as (i & mid & msg & H1 & H2 & H3 & H4).
    exists i, mid, msg. repeat split; try tauto. apply Hin. tauto.
  - now rewrite Hpend.
Qed.

Lemma handleSendMessage_messages (t : Z) (a : App) :
  messages (handleSendMessage t a) = messages a \/
  exists m, messages (handleSendMessage t a) = messages a ++ [m] /\
            isPendingReveal m = false.
Proof.
  unfold handleSendMessage. destruct (truthy (trim (inputMessage a))).
  - right. eexists. split; reflexivity.
  - now left.
Qed.

Lemma handleSendMessage_frame (t : Z) (a : App) :
  currentMessageIndex (handleSendMessage t a) = currentMessageIndex a /\
  callStatus (handleSendMessage t a) = callStatus a /\
  currentSpeaker (handleSendMessage t a) = currentSpeaker a /\
  pendingMessages (handleSendMessage t a) = pendingMessages a.
Proof.
  unfold handleSendMessage. destruct (truthy _); [|tauto].
  repeat split. unfold pendingMessages. cbn. rewrite filter_app. cbn.
  apply app_nil_r.
Qed.

Lemma Playing_send (w : World) (f : App -> App) :
  (f (app w) = app w \/ f (app w) = handleSendMessage (now w) (app w)) ->
  Playing conversationFlow t0 w ->
  Playing conversationFlow t0 (withApp f w).
Proof.
  intros Hf Hw.
  destruct (handleSendMessage_frame (now w) (app w)) as (H1 & H2 & H3 & H4).
  apply (Playing_frame w);
    [exact Hw | reflexivity | reflexivity | exact (pl_now _ _ _ Hw) | | | | | ];
    cbn; destruct Hf as [-> | ->]; try tauto.
  intros m Hm. destruct (handleSendMessage_messages (now w) (app w))
    as [-> | (x & -> & _)]; [assumption | apply in_or_app; now left].
Qed.

Lemma Playing_user (i : Input) (w : World) :
  i <> Fire ->
  Playing conversationFlow t0 w ->
  Playing conversationFlow t0 (step conversationFlow i w).
Proof.
  intros Hi Hw. destruct i; cbn [step]; try congruence.
  - destruct (canWait d w) eqn:Hc; [|assumption].
    apply (Playing_frame w);
      [exact Hw | reflexivity | reflexivity | cbn | reflexivity | reflexivity
      | reflexivity | reflexivity | cbn; tauto].
    unfold canWait in Hc. apply andb_prop in Hc. destruct Hc as [_ Hc].
    rewrite forallb_forall in Hc. apply Forall_forall. intros t Ht.
    apply Hc in Ht. lia.
  - destruct (inputDisabled (app w)); [assumption|].
    apply (Playing_frame w);
      [exact Hw | reflexivity | reflexivity | exact (pl_now _ _ _ Hw)
      | reflexivity | reflexivity | reflexivity | reflexivity | cbn; tauto].
  - destruct (sendDisabled (app w)); [assumption|].
    apply Playing_send; [now right | assumption].
  - destruct (inputDisabled (app w)); [assumption|].
    apply Playing_send; [|assumption].
    unfold handleKeyPress. destruct (enter && negb shift)%bool; tauto.
  - apply (Playing_frame w);
      [exact Hw | reflexivity | reflexivity | exact (pl_now _ _ _ Hw)
      | reflexivity | reflexivity | reflexivity | reflexivity | cbn; tauto].
Qed.

End Preservation.

(** *** A timer fires *)

Section Firing.

Variable conversationFlow : list Turn.
Variable t0 : Z.

Lemma fire_single (w : World) (t : Timer) :
  timers w = [t] -> now w <= due t ->
  fire conversationFlow w =
  rerender conversationFlow (currentMessageIndex (app w))
    (runAction (action t)
       {| app := app w; now := due t; timers := [];
          nextTid := nextTid w; timeoutId := timeoutId w; trace := trace w |}).
Proof.
  intros Ht Hnow. unfold fire. rewrite Ht. cbn [nextTimer filter].
  rewrite Nat.eqb_refl. cbn [negb]. now rewrite Z.max_r by exact Hnow.
Qed.

Lemma fire_no_timer (w : World) : timers w = [] -> fire conversationFlow w = w.
Proof. unfold fire. now intros ->. Qed.

Lemma rerender_same (k : nat) (w : World) :
  currentMessageIndex (app w) = k -> rerender conversationFlow k w = w.
Proof. intros <-. unfold rerender. now rewrite Nat.eqb_refl. Qed.

Lemma Playing_mount : Playing conversationFlow t0 (mount conversationFlow t0).
Proof.
  unfold mount, playbackEffect. cbn [app initialApp currentMessageIndex].
  destruct (Nat.leb_spec (List.length conversationFlow) 0) as [Hlen | Hlen].
  - assert (Hnil : conversationFlow = []) by (destruct conversationFlow; [reflexivity | cbn in Hlen; lia]).
    constructor; cbn; try reflexivity.
    + intros i e Hnth. now destruct i.
    + lia.
    + constructor.
    + rewrite Hnil. now split.
  - destruct conversationFlow as [|m rest] eqn:Hflow; [cbn in Hlen; lia|].
    cbn [nth_error]. unfold setTimeout, setTimeoutId.
    constructor; cbn.
    + intros i e Hnth. now destruct i.
    + reflexivity.
    + lia.
    + constructor; [cbn [due]; lia | constructor].
    + exists 1%nat. now split.
Qed.

Lemma entry_index_next (n : nat) :
  (n mod 4 <> 3)%nat -> (S n / 4 = n / 4)%nat.
Proof. lia. Qed.

(** [processMessage] in one record. *)
Lemma runAction_process (k : nat) (m : Turn) (w : World) :
  runAction (ProcessMessage k m) w =
  let a' :=
    setIsTyping true
      (setMessages (fun prev => prev ++ [waveformMessage (now w) (t_speaker m)])
         (setCurrentSpeaker (speakerAfter Pending (t_speaker m))
            (setCallStatus (statusAfter Pending (t_speaker m)) (app w)))) in
  {| app := a'; now := now w;
     timers := timers w ++
       [{| tid := nextTid w;
           due := now w + Z.max 0 (waveformDuration (t_speaker m));
           action := RevealStart k m (ScriptedId (now w)) |}];
     nextTid := S (nextTid w); timeoutId := timeoutId w;
     trace := trace w ++ [{| e_time := now w; e_phase := Pending; e_turn := k;
                             e_app := a' |}] |}.
Proof. unfold runAction. now destruct (t_speaker m). Qed.

Lemma Playing_fire_pending (w : World) (m : Turn) :
  Playing conversationFlow t0 w ->
  nth_error conversationFlow (List.length (trace w) / 4) = Some m ->
  phaseAt (List.length (trace w)) = Pending ->
  Playing conversationFlow t0 (fire conversationFlow w) /\
  List.length (trace (fire conversationFlow w)) = S (List.length (trace w)).
Proof.
  intros [Htr Hidx Hbound Hnow Htimer] Hm Hph.
  pose proof (phaseAt_cases (List.length (trace w))) as Hcases.
  rewrite Hph in Hcases.
  destruct Hcases as [(Hmod & _ & Hph')|[(_ & ? & _)|[(_ & ? & _)|(_ & ? & _)]]];
    try discriminate.
  rewrite Hm in Htimer. unfold pendingTimer in Htimer. rewrite Hph in Htimer.
  destruct Htimer as (i & Hti & Hpend).
  assert (Hle : now w <= timeBefore t0 (trace w) (List.length (trace w))
                         + gap Pending m).
  { rewrite Hti in Hnow. now inversion Hnow. }
  rewrite (fire_single w _ Hti) by exact Hle. cbn [action due].
  set (tnow := timeBefore t0 (trace w) (List.length (trace w)) + gap Pending m).
  assert (Hlen : (List.length (trace w) / 4 < List.length conversationFlow)%nat).
  { apply nth_error_Some. congruence. }
  rewrite runAction_process. cbv zeta. cbn [app now timers nextTid timeoutId trace].
  rewrite rerender_same by reflexivity.
  assert (Hpend' : pendingMessages
            (setIsTyping true
               (setMessages
                  (fun prev => prev ++ [waveformMessage tnow (t_speaker m)])
                  (setCurrentSpeaker (speakerAfter Pending (t_speaker m))
                     (setCallStatus (statusAfter Pending (t_speaker m)) (app w)))))
          = [waveformMessage tnow (t_speaker m)]).
  { unfold pendingMessages in *. cbn. now rewrite filter_app, Hpend. }
  split; [|cbn [trace]; rewrite length_app; cbn; lia].
  constructor; cbn [app now timers trace].
  - apply traceOk_snoc; [exact Htr|].
    unfold entryOk. rewrite Hph. cbn [e_phase e_turn e_time e_app].
    split; [reflexivity|]. split; [reflexivity|].
    exists m. split; [exact Hm|]. split; [reflexivity|].
    rewrite entry_index_next by lia.
    split; [reflexivity|]. split; [reflexivity|]. split; [exact Hidx|].
    split; [|split; [congruence | discriminate]].
    intros _. exists (waveformMessage tnow (t_speaker m)).
    split; [exact Hpend'|]. now repeat split.
  - cbn [currentMessageIndex setIsTyping setMessages setCurrentSpeaker
         setCallStatus].
    rewrite length_app. cbn [List.length]. rewrite Nat.add_1_r.
    now rewrite entry_index_next by lia.
  - rewrite length_app. cbn [List.length]. lia.
  - constructor; [cbn [due]; lia | constructor].
  - rewrite length_app. cbn [List.length]. rewrite Nat.add_1_r.
    rewrite entry_index_next by lia. rewrite Hm.
    unfold pendingTimer. cbn [trace timers app]. rewrite Hph', timeBefore_last.
    rewrite entry_index_next by lia. cbn [e_time List.app].
    exists (nextTid w), (ScriptedId tnow), (waveformMessage tnow (t_speaker m)).
    change (waveformDuration (t_speaker m)) with (gap RevealStarted m).
    rewrite gap_max by discriminate.
    split; [reflexivity|]. split; [exact Hpend'|]. now split.
Qed.

Lemma Playing_fire_reveal (w : World) (m : Turn) :
  Playing conversationFlow t0 w ->
  nth_error conversationFlow (List.length (trace w) / 4) = Some m ->
  phaseAt (List.length (trace w)) = RevealStarted ->
  Playing conversationFlow t0 (fire conversationFlow w) /\
  List.length (trace (fire conversationFlow w)) = S (List.length (trace w)).
Proof.
  intros [Htr Hidx Hbound Hnow Htimer] Hm Hph.
  pose proof (phaseAt_cases (List.length (trace w))) as Hcases.
  rewrite Hph in Hcases.
  destruct Hcases as [(_ & ? & _)|[(Hmod & _ & Hph')|[(_ & ? & _)|(_ & ? & _)]]];
    try discriminate.
  rewrite Hm in Htimer. unfold pendingTimer in Htimer. rewrite Hph in Htimer.
  destruct Htimer as (i & mid & msg & Hti & Hpend & Hid & Hsp).
  assert (Hle : now w <= timeBefore t0 (trace w) (List.length (trace w))
                         + gap RevealStarted m).
  { rewrite Hti in Hnow. now inversion Hnow. }
  rewrite (fire_single w _ Hti) by exact Hle. cbn [action due].
  set (tnow := timeBefore t0 (trace w) (List.length (trace w))
               + gap RevealStarted m).
  cbn [runAction setTimeout withApp record app now timers nextTid timeoutId
       trace List.app].
  unfold record. cbn [app now timers nextTid timeoutId trace].
  rewrite rerender_same by reflexivity.
  set (a' := updateMessage mid (t_message m) (t_sentiment m)
               (setIsTyping false
                  (setCurrentSpeaker (Some (t_speaker m))
                     (setCallStatus Speaking (app w))))).
  assert (Hpend' : pendingMessages a' = []).
  { subst a'. rewrite pending_updateMessage.
    change (pendingMessages (setIsTyping false _)) with (pendingMessages (app w)).
    rewrite Hpend. cbn [filter]. now rewrite Hid, MessageId_eqb_refl. }
  assert (Hin : exists msg',
            In msg' (messages a') /\ id msg' = mid /\
            message msg' = t_message m /\ sentiment msg' = t_sentiment m /\
            speaker msg' = t_speaker m).
  { assert (Hmsg : In msg (messages (app w))).
    { apply In_pending. rewrite Hpend. now left. }
    subst a'. unfold updateMessage. cbn [messages setMessages setIsTyping
      setCurrentSpeaker setCallStatus].
    eexists. split; [apply in_map, Hmsg|].
    rewrite Hid, MessageId_eqb_refl. cbn. now repeat split. }
  split; [|cbn [trace]; rewrite length_app; cbn; lia].
  constructor; cbn [app now timers trace].
  - apply traceOk_snoc; [exact Htr|].
    unfold entryOk. rewrite Hph. cbn [e_phase e_turn e_time e_app].
    split; [reflexivity|]. split; [reflexivity|].
    exists m. split; [exact Hm|]. split; [reflexivity|].
    rewrite entry_index_next by lia.
    split; [reflexivity|]. split; [reflexivity|]. split; [exact Hidx|].
    split; [discriminate|]. split; [intros _; exact Hpend' | discriminate].
  - change (currentMessageIndex a') with (currentMessageIndex (app w)).
    rewrite length_app. cbn [List.length]. rewrite Nat.add_1_r.
    now rewrite entry_index_next by lia.
  - rewrite length_app. cbn [List.length].
    assert ((List.length (trace w) / 4 < List.length conversationFlow)%nat)
      by (apply nth_error_Some; congruence).
    lia.
  - constructor; [cbn [due]; lia | constructor].
  - rewrite length_app. cbn [List.length]. rewrite Nat.add_1_r.
    rewrite entry_index_next by lia. rewrite Hm.
    unfold pendingTimer. cbn [trace timers app]. rewrite Hph', timeBefore_last.
    rewrite entry_index_next by lia. cbn [e_time List.app].
    destruct Hin as (msg' & Hin1 & Hin2 & Hin3 & Hin4 & Hin5).
    exists (nextTid w), mid, msg'.
    split; [reflexivity|]. now repeat split.
Qed.

Lemma Playing_fire_content (w : World) (m : Turn) :
  Playing conversationFlow t0 w ->
  nth_error conversationFlow (List.length (trace w) / 4) = Some m ->
  phaseAt (List.length (trace w)) = ContentVisible ->
  Playing conversationFlow t0 (fire conversationFlow w) /\
  List.length (trace (fire conversationFlow w)) = S (List.length (trace w)).
Proof.
  intros [Htr Hidx Hbound Hnow Htimer] Hm Hph.
  pose proof (phaseAt_cases (List.length (trace w))) as Hcases.
  rewrite Hph in Hcases.
  destruct Hcases as [(_ & ? & _)|[(_ & ? & _)|[(Hmod & _ & Hph')|(_ & ? & _)]]];
    try discriminate.
  rewrite Hm in Htimer. unfold pendingTimer in Htimer. rewrite Hph in Htimer.
  destruct Htimer
    as (i & mid & msg & Hti & Hpend & Hin & Hid & Htext & Hsent & Hsp & Hst & Hcs).
  assert (Hle : now w <= timeBefore t0 (trace w) (List.length (trace w))
                         + gap ContentVisible m).
  { rewrite Hti in Hnow. now inversion Hnow. }
  rewrite (fire_single w _ Hti) by exact Hle. cbn [action due].
  set (tnow := timeBefore t0 (trace w) (List.length (trace w))
               + gap ContentVisible m).
  cbn [runAction setTimeout withApp record app now timers nextTid timeoutId
       trace List.app].
  unfold record. cbn [app now timers nextTid timeoutId trace].
  rewrite rerender_same by reflexivity.
  split; [|cbn [trace]; rewrite length_app; cbn; lia].
  constructor; cbn [app now timers trace].
  - apply traceOk_snoc; [exact Htr|].
    unfold entryOk. rewrite Hph. cbn [e_phase e_turn e_time e_app].
    split; [reflexivity|]. split; [reflexivity|].
    exists m. split; [exact Hm|]. split; [reflexivity|].
    rewrite entry_index_next by lia.
    split; [exact Hst|]. split; [exact Hcs|]. split; [exact Hidx|].
    split; [discriminate|].
    split; [intros _; now apply pending_showMessageContent|].
    intros _. unfold showMessageContent. cbn [messages setMessages].
    eexists. split; [apply in_map, Hin|].
    rewrite Hid, MessageId_eqb_refl. cbn. now repeat split.
  - change (currentMessageIndex (showMessageContent mid (app w)))
      with (currentMessageIndex (app w)).
    rewrite length_app. cbn [List.length]. rewrite Nat.add_1_r.
    now rewrite entry_index_next by lia.
  - rewrite length_app. cbn [List.length].
    assert ((List.length (trace w) / 4 < List.length conversationFlow)%nat)
      by (apply nth_error_Some; congruence).
    lia.
  - constructor; [cbn [due]; pose proof (typingDuration_nonneg m); lia
                 | constructor].
  - rewrite length_app. cbn [List.length]. rewrite Nat.add_1_r.
    rewrite entry_index_next by lia. rewrite Hm.
    unfold pendingTimer. cbn [trace timers app]. rewrite Hph', timeBefore_last.
    rewrite entry_index_next by lia. cbn [e_time List.app].
    exists (nextTid w).
    change (typingDuration m + 500) with (gap Completed m).
    rewrite gap_max by discriminate.
    split; [reflexivity|]. now apply pending_showMessageContent.
Qed.

Lemma entry_index_completed (n : nat) :
  (n mod 4 = 3)%nat -> (S n / 4 = n / 4 + 1)%nat.
Proof. lia. Qed.

Lemma Playing_fire_complete (w : World) (m : Turn) :
  Playing conversationFlow t0 w ->
  nth_error conversationFlow (List.length (trace w) / 4) = Some m ->
  phaseAt (List.length (trace w)) = Completed ->
  Playing conversationFlow t0 (fire conversationFlow w) /\
  List.length (trace (fire conversationFlow w)) = S (List.length (trace w)).
Proof.
  intros [Htr Hidx Hbound Hnow Htimer] Hm Hph.
  pose proof (phaseAt_cases (List.length (trace w))) as Hcases.
  rewrite Hph in Hcases.
  destruct Hcases as [(_ & ? & _)|[(_ & ? & _)|[(_ & ? & _)|(Hmod & _ & Hph')]]];
    try discriminate.
  rewrite Hm in Htimer. unfold pendingTimer in Htimer. rewrite Hph in Htimer.
  destruct Htimer as (i & Hti & Hpend).
  assert (Hle : now w <= timeBefore t0 (trace w) (List.length (trace w))
                         + gap Completed m).
  { rewrite Hti in Hnow. now inversion Hnow. }
  assert (Hlen : (List.length (trace w) / 4 < List.length conversationFlow)%nat)
    by (apply nth_error_Some; congruence).
  rewrite (fire_single w _ Hti) by exact Hle. cbn [action due].
  set (tnow := timeBefore t0 (trace w) (List.length (trace w))
               + gap Completed m).
  cbn [runAction]. unfold record, withApp.
  cbn [app now timers nextTid timeoutId trace].
  set (a' := setCurrentMessageIndex (fun prev => (prev + 1)%nat)
               (setCurrentSpeaker None (setCallStatus Connected (app w)))).
  set (e := {| e_time := tnow; e_phase := Completed;
               e_turn := (List.length (trace w) / 4)%nat; e_app := a' |}).
  assert (He : entryOk conversationFlow
                 (timeBefore t0 (trace w) (List.length (trace w)))
                 (List.length (trace w)) e).
  { unfold entryOk. rewrite Hph. subst e. cbn [e_phase e_turn e_time e_app].
    split; [reflexivity|]. split; [reflexivity|].
    exists m. split; [exact Hm|]. split; [reflexivity|].
    rewrite entry_index_completed by exact Hmod.
    split; [reflexivity|]. split; [reflexivity|].
    split; [subst a'; cbn; now rewrite Hidx|].
    split; [discriminate|]. split; [intros _; exact Hpend | discriminate]. }
  unfold rerender.
  assert (Hneq : (currentMessageIndex (app w) =? currentMessageIndex a')%nat
                 = false).
  { apply Nat.eqb_neq. subst a'. cbn. lia. }
  cbn [app]. rewrite Hneq.
  assert (Hclean : forall w', timers w' = [] -> playbackCleanup w' = w').
  { intros [a n ts nt ti tr] Hw'. cbn in Hw'. subst ts.
    unfold playbackCleanup, clearTimeout. cbn. now destruct ti. }
  rewrite Hclean by reflexivity.
  unfold playbackEffect. cbn [app].
  assert (Hidx' : currentMessageIndex a'
                  = (S (List.length (trace w)) / 4)%nat).
  { subst a'. cbn [currentMessageIndex setCurrentMessageIndex setCurrentSpeaker
                   setCallStatus].
    rewrite Hidx. now rewrite entry_index_completed. }
  rewrite Hidx'.
  assert (Hlen' : List.length (trace w ++ [e]) = S (List.length (trace w))).
  { rewrite length_app. cbn. lia. }
  destruct (Nat.leb_spec (List.length conversationFlow)
              (S (List.length (trace w)) / 4)) as [Hdone | Hmore].
  - unfold setTimeoutId. cbn [trace app now timers]. rewrite Hlen'.
    split; [|reflexivity].
    assert (Hnone : nth_error conversationFlow (S (List.length (trace w)) / 4)
                    = None) by (now apply nth_error_None).
    constructor; cbn [app now timers trace]; rewrite ?Hlen'.
    + now apply traceOk_snoc.
    + exact Hidx'.
    + lia.
    + constructor.
    + rewrite Hnone. now split.
  - destruct (nth_error conversationFlow (S (List.length (trace w)) / 4))
      as [m'|] eqn:Hm'; [|apply nth_error_None in Hm'; lia].
    unfold setTimeout, setTimeoutId.
    cbn [trace app now timers nextTid List.app].
    rewrite Hlen'. split; [|reflexivity].
    constructor; cbn [app now timers trace]; rewrite ?Hlen'.
    + now apply traceOk_snoc.
    + exact Hidx'.
    + lia.
    + constructor; [cbn [due]; lia | constructor].
    + rewrite Hm'. unfold pendingTimer. cbn [trace timers app].
      rewrite Hph', timeBefore_last.
      exists (nextTid w). split; [reflexivity | exact Hpend].
Qed.

(** Every firing is one more transition until the script is done, and
    nothing after that. *)
Lemma Playing_fire (w : World) :
  Playing conversationFlow t0 w ->
  Playing conversationFlow t0 (fire conversationFlow w) /\
  List.length (trace (fire conversationFlow w)) =
    if (List.length (trace w) <? 4 * List.length conversationFlow)%nat
    then S (List.length (trace w)) else List.length (trace w).
Proof.
  intros Hw.
  destruct (nth_error conversationFlow (List.length (trace w) / 4))
    as [m|] eqn:Hm.
  - assert (Hlt : (List.length (trace w) / 4 < List.length conversationFlow)%nat)
      by (apply nth_error_Some; congruence).
    assert (Hb : (List.length (trace w) <? 4 * List.length conversationFlow)%nat
                 = true) by (apply Nat.ltb_lt; lia).
    rewrite Hb.
    destruct (phaseAt (List.length (trace w))) eqn:Hph.
    + now apply (Playing_fire_pending w m).
    + now apply (Playing_fire_reveal w m).
    + now apply (Playing_fire_content w m).
    + now apply (Playing_fire_complete w m).
  - pose proof (pl_timer _ _ _ Hw) as Ht. rewrite Hm in Ht.
    destruct Ht as [Ht _]. rewrite (fire_no_timer w Ht).
    apply nth_error_None in Hm. pose proof (pl_bound _ _ _ Hw).
    assert (Hb : (List.length (trace w) <? 4 * List.length conversationFlow)%nat
                 = false) by (apply Nat.ltb_ge; lia).
    rewrite Hb. now split.
Qed.

Lemma Playing_step (i : Input) (w : World) :
  Playing conversationFlow t0 w ->
  Playing conversationFlow t0 (step conversationFlow i w).
Proof.
  intros Hw. destruct i; try (apply Playing_user; [discriminate | exact Hw]).
  now apply Playing_fire.
Qed.

Lemma Playing_run (inputs : list Input) :
  Playing conversationFlow t0 (run conversationFlow t0 inputs).
Proof.
  unfold run.
  apply (fold_left_preserves (Playing conversationFlow t0)
           (fun w i => step conversationFlow i w)).
  - intros w i. apply Playing_step.
  - apply Playing_mount.
Qed.

End Firing.

End VoiceChatFacts.

Module PlaybackClaims.
Import VoiceChat VoiceChatFacts.

Local Open Scope Z_scope.

Ltac Zify.zify_post_hook ::= Z.to_euclidean_division_equations.

Lemma nth_error_lt {A : Type} (l : list A) (i : nat) (x : A) :
  nth_error l i = Some x -> (i < List.length l)%nat.
Proof. intros H. apply nth_error_Some. congruence. Qed.

Lemma nth_error_below {A : Type} (l : list A) (i j : nat) (x : A) :
  nth_error l i = Some x -> (j < i)%nat -> exists y, nth_error l j = Some y.
Proof.
  intros H Hj. apply nth_error_lt in H.
  destruct (nth_error l j) as [y|] eqn:Hy; [now exists y|].
  apply nth_error_None in Hy. lia.
Qed.

Lemma timeBefore_pred (t0 : Z) (tr : list Entry) (i : nat) (e : Entry) :
  nth_error tr i = Some e -> (0 < i)%nat ->
  exists e0, nth_error tr (i - 1) = Some e0 /\ timeBefore t0 tr i = e_time e0.
Proof.
  intros He Hi. destruct i as [|j]; [lia|].
  destruct (nth_error_below tr (S j) j e He) as [e0 He0]; [lia|].
  exists e0. cbn [timeBefore]. rewrite Nat.sub_1_r. cbn [Nat.pred].
  now rewrite He0.
Qed.

(** C1.  In every run of the mounted component (timers firing, time
    passing, the user typing, sending and muting in any order): the
    pending-reveal transition of turn [k + 1], which creates its one empty
    waveform message, comes in the trace after the completion of turn [k],
    and that completion left the call status at [Connected] and the turn
    index at [k + 1]; at most one turn is in flight; at most one message
    is in its waveform phase and at most one timer is pending. *)
Theorem C1_one_turn_in_flight (script : list Turn) (t0 : Z)
    (inputs : list Input) :
  let w := run script t0 inputs in
  (forall i e k,
     nth_error (trace w) i = Some e -> e_phase e = Pending ->
     e_turn e = S k ->
     (exists msg, pendingMessages (e_app e) = [msg] /\
                  message msg = EmptyString) /\
     exists j e',
       (j < i)%nat /\ nth_error (trace w) j = Some e' /\
       e_phase e' = Completed /\ e_turn e' = k /\
       callStatus (e_app e') = Connected /\
       currentMessageIndex (e_app e') = S k) /\
  (forall k k', inFlight (trace w) k -> inFlight (trace w) k' -> k = k') /\
  (List.length (pendingMessages (app w)) <= 1)%nat /\
  (List.length (timers w) <= 1)%nat.
Proof.
  intros w. pose proof (Playing_run script t0 inputs) as Hw. fold w in Hw.
  destruct Hw as [Htr Hidx Hbound Hnow Htimer].
  assert (Hpos : forall e k, In e (trace w) -> e_phase e = Pending ->
            e_turn e = k -> (4 * k < List.length (trace w))%nat).
  { intros e k Hin Hph Hk. apply In_nth_error in Hin. destruct Hin as [i Hi].
    destruct (Htr i e Hi) as (Hp & Ht & _).
    rewrite Hph in Hp. symmetry in Hp. apply phaseAt_Pending in Hp.
    apply nth_error_lt in Hi. lia. }
  assert (Hdone : forall k, (4 * k + 3 < List.length (trace w))%nat ->
            exists e, nth_error (trace w) (4 * k + 3) = Some e /\
                      e_phase e = Completed /\ e_turn e = k /\
                      callStatus (e_app e) = Connected /\
                      currentMessageIndex (e_app e) = S k).
  { intros k Hk.
    destruct (nth_error (trace w) (4 * k + 3)) as [e|] eqn:He;
      [|apply nth_error_None in He; lia].
    exists e. split; [reflexivity|].
    destruct (Htr _ e He) as (Hp & Ht & m & _ & _ & Hst & _ & Hix & _).
    assert (Hc : phaseAt (4 * k + 3) = Completed)
      by (apply phaseAt_Completed; lia).
    rewrite Hc in *. repeat split.
    - exact Hp.
    - rewrite Ht. lia.
    - exact Hst.
    - rewrite Hix. lia. }
  repeat split.
  - destruct (Htr i e H) as (Hp & _ & m & _ & _ & _ & _ & _ & Hmsg & _).
    rewrite <- Hp in Hmsg. destruct (Hmsg H0) as (msg & Hpm & Hempty & _).
    now exists msg.
  - destruct (Htr i e H) as (Hp & Ht & _).
    rewrite H0 in Hp. symmetry in Hp. apply phaseAt_Pending in Hp.
    pose proof (nth_error_lt _ _ _ H) as Hi.
    destruct (Hdone k) as (e' & He' & Hrest); [lia|].
    exists (4 * k + 3)%nat, e'. split; [lia|]. now split.
  - intros k k' [(e & Hin & Hph & Hk) Hnot] [(e' & Hin' & Hph' & Hk') Hnot'].
    pose proof (Hpos e k Hin Hph Hk) as H1.
    pose proof (Hpos e' k' Hin' Hph' Hk') as H2.
    assert (H3 : (List.length (trace w) <= 4 * k + 3)%nat).
    { destruct (Nat.le_gt_cases (List.length (trace w)) (4 * k + 3)) as [|Hgt];
        [assumption|].
      destruct (Hdone k Hgt) as (x & Hx & Hxp & Hxt & _).
      exfalso. apply Hnot. exists x. split; [|now split].
      eapply nth_error_In, Hx. }
    assert (H4 : (List.length (trace w) <= 4 * k' + 3)%nat).
    { destruct (Nat.le_gt_cases (List.length (trace w)) (4 * k' + 3)) as [|Hgt];
        [assumption|].
      destruct (Hdone k' Hgt) as (x & Hx & Hxp & Hxt & _).
      exfalso. apply Hnot'. exists x. split; [|now split].
      eapply nth_error_In, Hx. }
    lia.
  - destruct (nth_error script (List.length (trace w) / 4)) as [m|].
    + unfold pendingTimer in Htimer.
      destruct (phaseAt (List.length (trace w))).
      * destruct Htimer as (i & _ & ->). cbn. lia.
      * destruct Htimer as (i & mid & msg & _ & -> & _). cbn. lia.
      * destruct Htimer as (i & mid & msg & _ & -> & _). cbn. lia.
      * destruct Htimer as (i & _ & ->). cbn. lia.
    + destruct Htimer as [_ ->]. cbn. lia.
  - destruct (nth_error script (List.length (trace w) / 4)) as [m|].
    + unfold pendingTimer in Htimer.
      destruct (phaseAt (List.length (trace w))).
      * destruct Htimer as (i & -> & _). cbn. lia.
      * destruct Htimer as (i & mid & msg & -> & _). cbn. lia.
      * destruct Htimer as (i & mid & msg & -> & _). cbn. lia.
      * destruct Htimer as (i & -> & _). cbn. lia.
    + destruct Htimer as [-> _]. cbn. lia.
Qed.

Lemma scenario_second_turn :
  exists e,
    nth_error (trace (run scenario 0 (repeat Fire 6))) 4 = Some e /\
    e_phase e = Pending /\ e_turn e = 1%nat.
Proof. vm_compute. eexists. repeat split. Qed.

Lemma C1_one_turn_in_flight_witness :
  exists e j e',
    nth_error (trace (run scenario 0 (repeat Fire 6))) 4 = Some e /\
    e_phase e = Pending /\ e_turn e = 1%nat /\
    (j < 4)%nat /\
    nth_error (trace (run scenario 0 (repeat Fire 6))) j = Some e' /\
    e_phase e' = Completed /\ e_turn e' = 0%nat.
Proof.
  pose proof (C1_one_turn_in_flight scenario 0 (repeat Fire 6)) as H.
  cbv zeta in H. destruct H as (Hord & _).
  destruct scenario_second_turn as (e & He & Hp & Ht).
  destruct (Hord 4%nat e 0%nat He Hp Ht) as (_ & j & e' & Hj & He' & Hp' & Ht' & _).
  exists e, j, e'. repeat split; assumption.
Defined.

Lemma steps_idle (script : list Turn) (more : list Input) (w : World) :
  timers w = [] ->
  let w' := fold_left (fun w i => step script i w) more w in
  timers w' = [] /\ trace w' = trace w /\
  callStatus (app w') = callStatus (app w) /\
  currentSpeaker (app w') = currentSpeaker (app w) /\
  currentMessageIndex (app w') = currentMessageIndex (app w).
Proof.
  revert w. induction more as [|i more IH]; intros w Hw; cbn [fold_left].
  - tauto.
  - assert (Hstep : timers (step script i w) = [] /\
                    trace (step script i w) = trace w /\
                    callStatus (app (step script i w)) = callStatus (app w) /\
                    currentSpeaker (app (step script i w))
                      = currentSpeaker (app w) /\
                    currentMessageIndex (app (step script i w))
                      = currentMessageIndex (app w)).
    { destruct i; cbn [step].
      - rewrite (fire_no_timer script w Hw). tauto.
      - destruct (canWait d w); cbn; tauto.
      - destruct (inputDisabled (app w)); cbn; tauto.
      - destruct (sendDisabled (app w)); [tauto|]. cbn.
        destruct (handleSendMessage_frame (now w) (app w)) as (?&?&?&?). tauto.
      - destruct (inputDisabled (app w)); [tauto|]. cbn.
        unfold handleKeyPress. destruct (enter && negb shift)%bool; [|tauto].
        destruct (handleSendMessage_frame (now w) (app w)) as (?&?&?&?). tauto.
      - cbn. tauto. }
    destruct Hstep as (H1 & H2 & H3 & H4 & H5).
    destruct (IH (step script i w) H1) as (I1 & I2 & I3 & I4 & I5).
    cbv zeta. rewrite I2, I3, I4, I5. tauto.
Qed.

Lemma fires_length (script : list Turn) (t0 : Z) (n : nat) :
  List.length (trace (run script t0 (repeat Fire n))) =
  Nat.min n (4 * List.length script).
Proof.
  induction n as [|n IH].
  - cbn [repeat Nat.min]. unfold run. cbn [fold_left].
    unfold mount, playbackEffect. cbn [app currentMessageIndex initialApp].
    destruct (List.length script <=? 0)%nat; [reflexivity|].
    now destruct (nth_error script 0).
  - replace (repeat Fire (S n)) with (repeat Fire n ++ [Fire])
      by (symmetry; apply (repeat_cons n Fire)).
    unfold run in *. rewrite fold_left_app. cbn [fold_left step].
    destruct (Playing_fire script t0 _ (Playing_run script t0 (repeat Fire n)))
      as [_ Hlen].
    unfold run in Hlen. rewrite Hlen, IH.
    destruct (Nat.ltb_spec (Nat.min n (4 * List.length script))
                (4 * List.length script)); lia.
Qed.

(** C7.  In every run, each transition in the trace is that of a turn
    [m] of the script.  Pending-reveal leaves the status at [Listening]
    for a customer and [Processing] otherwise; reveal-start follows it by
    1500 ms (ai) or 1200 ms (customer); the content is visible 600 ms
    after reveal-start; completion follows the content by
    [length * perChar * 1.2 + 300 + 500] ms with [perChar] 40 (ai) or 60
    (customer), leaves the status at [Connected], the speaker cleared and
    the index one further.  Left to its timers the playback makes its
    four transitions per turn; with the index at the end of the script no
    timer is left and no input changes trace, status or index any more. *)
Theorem C7_turn_phases (script : list Turn) (t0 : Z) (inputs : list Input) :
  let w := run script t0 inputs in
  (forall i e,
     nth_error (trace w) i = Some e ->
     exists m,
       nth_error script (e_turn e) = Some m /\
       match e_phase e with
       | Pending =>
           callStatus (e_app e) =
             match t_speaker m with customer => Listening | ai => Processing end /\
           currentMessageIndex (e_app e) = e_turn e
       | RevealStarted =>
           exists e0,
             nth_error (trace w) (i - 1) = Some e0 /\
             e_phase e0 = Pending /\ e_turn e0 = e_turn e /\
             e_time e = e_time e0 +
               match t_speaker m with ai => 1500 | customer => 1200 end
       | ContentVisible =>
           exists e0,
             nth_error (trace w) (i - 1) = Some e0 /\
             e_phase e0 = RevealStarted /\ e_turn e0 = e_turn e /\
             e_time e = e_time e0 + 600 /\
             exists msg, In msg (messages (e_app e)) /\
                         message msg = t_message m /\
                         messageVisible msg = Some true
       | Completed =>
           exists e0,
             nth_error (trace w) (i - 1) = Some e0 /\
             e_phase e0 = ContentVisible /\ e_turn e0 = e_turn e /\
             5 * (e_time e - e_time e0 - 300 - 500) =
               6 * (Z.of_nat (String.length (t_message m)) *
                    match t_speaker m with ai => 40 | customer => 60 end) /\
             callStatus (e_app e) = Connected /\
             currentSpeaker (e_app e) = None /\
             currentMessageIndex (e_app e0) = e_turn e /\
             currentMessageIndex (e_app e) = S (e_turn e)
       end) /\
  (forall n, List.length (trace (run script t0 (repeat Fire n))) =
             Nat.min n (4 * List.length script)) /\
  ((List.length script <= currentMessageIndex (app w))%nat ->
   timers w = [] /\
   forall more,
     let w' := fold_left (fun w i => step script i w) more w in
     trace w' = trace w /\
     callStatus (app w') = callStatus (app w) /\
     currentMessageIndex (app w') = currentMessageIndex (app w)).
Proof.
  intros w. pose proof (Playing_run script t0 inputs) as Hw. fold w in Hw.
  destruct Hw as [Htr Hidx Hbound Hnow Htimer].
  split; [|split].
  - intros i e He.
    destruct (Htr i e He)
      as (Hp & Ht & m & Hm & Htime & Hst & Hsp & Hix & _ & _ & Hvis).
    exists m. rewrite Ht. split; [exact Hm|].
    rewrite Hp.
    destruct (phaseAt_cases i) as [H|[H|[H|H]]]; destruct H as (Hmod & Hph & _);
      rewrite Hph in *.
    + split; [rewrite Hst; now destruct (t_speaker m) | rewrite Hix; lia].
    + destruct (timeBefore_pred t0 _ i e He) as (e0 & He0 & Hbefore); [lia|].
      destruct (Htr _ e0 He0) as (Hp0 & Ht0 & _).
      exists e0. split; [exact He0|].
      assert (Hph0 : phaseAt (i - 1) = Pending) by (apply phaseAt_Pending; lia).
      rewrite Hph0 in Hp0. split; [exact Hp0|]. split; [rewrite Ht0; lia|].
      rewrite Htime, Hbefore. cbn [gap]. now destruct (t_speaker m).
    + destruct (timeBefore_pred t0 _ i e He) as (e0 & He0 & Hbefore); [lia|].
      destruct (Htr _ e0 He0) as (Hp0 & Ht0 & _).
      exists e0. split; [exact He0|].
      assert (Hph0 : phaseAt (i - 1) = RevealStarted).
      { destruct (phaseAt_cases (i - 1)) as [H|[H|[H|H]]];
          destruct H as (Hmod0 & Hph0 & _); try lia. exact Hph0. }
      rewrite Hph0 in Hp0. split; [exact Hp0|]. split; [rewrite Ht0; lia|].
      split; [rewrite Htime, Hbefore; reflexivity|].
      destruct (Hvis eq_refl) as (msg & Hin & Htext & _ & _ & Hshown).
      now exists msg.
    + destruct (timeBefore_pred t0 _ i e He) as (e0 & He0 & Hbefore); [lia|].
      destruct (Htr _ e0 He0) as (Hp0 & Ht0 & m0 & _ & _ & _ & _ & Hix0 & _).
      exists e0. split; [exact He0|].
      assert (Hph0 : phaseAt (i - 1) = ContentVisible).
      { destruct (phaseAt_cases (i - 1)) as [H|[H|[H|H]]];
          destruct H as (Hmod0 & Hph0 & _); try lia. exact Hph0. }
      rewrite Hph0 in Hp0. split; [exact Hp0|]. split; [rewrite Ht0; lia|].
      split.
      { rewrite Htime, Hbefore. cbn [gap]. unfold typingDuration.
        pose proof (avgTypingDuration_exact m) as Hex.
        unfold baseSpeed in Hex. destruct (t_speaker m); lia. }
      split; [exact Hst|]. split; [exact Hsp|].
      split; [rewrite Hix0; lia | rewrite Hix; lia].
  - apply fires_length.
  - intros Hend.
    assert (Hnone : nth_error script (List.length (trace w) / 4) = None).
    { apply nth_error_None. lia. }
    rewrite Hnone in Htimer. destruct Htimer as [Hti _].
    split; [exact Hti|]. intros more.
    destruct (steps_idle script more w Hti) as (_ & H2 & H3 & _ & H5).
    cbv zeta. tauto.
Qed.

Lemma scenario_exhausted :
  (List.length scenario <=
   currentMessageIndex (app (run scenario 0 (repeat Fire 8))))%nat.
Proof. vm_compute. lia. Qed.

Lemma C7_turn_phases_witness :
  (List.length scenario <=
   currentMessageIndex (app (run scenario 0 (repeat Fire 8))))%nat /\
  timers (run scenario 0 (repeat Fire 8)) = [] /\
  List.length (trace (run scenario 0 (repeat Fire 8))) = Nat.min 8 (4 * 2) /\
  forall more,
    trace (fold_left (fun w i => step scenario i w) more
             (run scenario 0 (repeat Fire 8))) =
    trace (run scenario 0 (repeat Fire 8)).
Proof.
  pose proof (C7_turn_phases scenario 0 (repeat Fire 8)) as H.
  cbv zeta in H. destruct H as (_ & Hlen & Hstop).
  destruct (Hstop scenario_exhausted) as [Hti Hmore].
  split; [exact scenario_exhausted|]. split; [exact Hti|].
  split; [exact (Hlen 8%nat)|].
  intros more. apply (Hmore more).
Defined.

(** The scenario of the specification: the statuses the transitions
    leave, and the two messages at the end. *)
Lemma scenario_statuses :
  map (fun e => callStatus (e_app e)) (trace (run scenario 0 (repeat Fire 8))) =
  [Processing; Speaking; Speaking; Connected;
   Listening; Speaking; Speaking; Connected] /\
  map message (messages (app (run scenario 0 (repeat Fire 8)))) =
  ["Hi"%string; "Hello"%string] /\
  callStatus (app (mount scenario 0)) = Connected.
Proof. vm_compute. repeat split. Qed.

(** The shipped script of thirteen turns plays out in 52 transitions. *)
Lemma shipped_script_plays_out :
  List.length (trace (run conversationFlow 0 (repeat Fire 60))) = 52%nat /\
  currentMessageIndex (app (run conversationFlow 0 (repeat Fire 60))) = 13%nat /\
  callStatus (app (run conversationFlow 0 (repeat Fire 60))) = Connected /\
  timers (run conversationFlow 0 (repeat Fire 60)) = [].
Proof. vm_compute. repeat split. Qed.

End PlaybackClaims.

(* ------------------------------------------------------------------ *)
(** ** Sending a message *)

Module SendClaims.
Import VoiceChat.

Lemma trimStart_whitespace (s : string) :
  whitespaceOnly (trimStart s) <-> whitespaceOnly s.
Proof.
  unfold whitespaceOnly, chars. induction s as [|c s IH]; cbn [trimStart].
  - tauto.
  - destruct (isWhiteSpace c) eqn:Hc; [|tauto].
    rewrite IH. cbn. split; [now constructor | intros H; now inversion H].
Qed.

Lemma trimEnd_empty (s : string) :
  trimEnd s = EmptyString <-> whitespaceOnly s.
Proof.
  unfold whitespaceOnly, chars. induction s as [|c s IH]; cbn [trimEnd].
  - split; [constructor | reflexivity].
  - cbn [list_ascii_of_string]. destruct (isWhiteSpace c) eqn:Hc; cbn [andb].
    + destruct (String.eqb_spec (trimEnd s) EmptyString) as [He | Hne].
      * split; [|reflexivity]. intros _. constructor; [exact Hc | now apply IH].
      * split; [discriminate|]. intros H. inversion H; subst.
        exfalso. apply Hne. now apply IH.
    + split; [discriminate|]. intros H. inversion H; subst. congruence.
Qed.

Lemma trim_empty (s : string) : truthy (trim s) = false <-> whitespaceOnly s.
Proof.
  unfold truthy, trim. rewrite negb_false_iff, String.eqb_eq.
  now rewrite trimEnd_empty, trimStart_whitespace.
Qed.

Lemma trim_nonempty (s : string) :
  truthy (trim s) = true <-> ~ whitespaceOnly s.
Proof.
  rewrite <- trim_empty. destruct (truthy (trim s)); split; congruence.
Qed.

Lemma isProcessing_iff (c : CallStatus) :
  isProcessing c = true <-> c = Processing.
Proof. destruct c; cbn; split; congruence. Qed.

Lemma snoc_neq {A : Type} (l : list A) (x : A) : l ++ [x] <> l.
Proof.
  intros H. apply (f_equal (@List.length A)) in H.
  rewrite length_app in H. cbn in H. lia.
Qed.

(** [handleSendMessage] itself looks at the input only; the status is
    checked by the [disabled] attributes of the input and the button. *)
Lemma handleSendMessage_checks_input_only (t : Z) (a : App) :
  ~ whitespaceOnly (inputMessage a) ->
  exists m, messages (handleSendMessage t a) = messages a ++ [m].
Proof.
  intros H. apply trim_nonempty in H. unfold handleSendMessage.
  rewrite H. cbn. now eexists.
Qed.

(** What a submission does, by the two conditions. *)
Lemma submit_cases (script : list Turn) (i : Input) (w : World) :
  isSubmit i ->
  step script i w =
  if truthy (trim (inputMessage (app w)))
     && negb (isProcessing (callStatus (app w)))
  then withApp (handleSendMessage (now w)) w
  else w.
Proof.
  intros [-> | ->]; cbn [step]; unfold sendDisabled, inputDisabled.
  - destruct (truthy (trim (inputMessage (app w))));
      destruct (isProcessing (callStatus (app w))); reflexivity.
  - change (handleKeyPress true false (now w)) with (handleSendMessage (now w)).
    destruct (isProcessing (callStatus (app w))); cbn [andb negb];
      [now rewrite andb_false_r|].
    rewrite andb_true_r.
    destruct (truthy (trim (inputMessage (app w)))) eqn:Ht; [reflexivity|].
    unfold withApp, handleSendMessage. rewrite Ht. now destruct w.
Qed.

(** C3.  A submission (send button or Enter key) leaves the whole
    component (messages, every state cell, timers, clock and trace)
    as it was exactly when the input is empty or white space only or the
    call status is [Processing]; in every other case it appends exactly
    one message. *)
Theorem C3_submit_rejected (script : list Turn) (i : Input) (w : World) :
  isSubmit i ->
  let rejected :=
    whitespaceOnly (inputMessage (app w)) \/ callStatus (app w) = Processing in
  (step script i w = w <-> rejected) /\
  (~ rejected ->
   exists m, messages (app (step script i w)) = messages (app w) ++ [m]).
Proof.
  intros Hi rejected. subst rejected. rewrite (submit_cases script i w Hi).
  destruct (truthy (trim (inputMessage (app w)))) eqn:Ht;
    destruct (isProcessing (callStatus (app w))) eqn:Hp; cbn [andb negb].
  - apply isProcessing_iff in Hp. split; [tauto|]. intros H. tauto.
  - apply trim_nonempty in Ht.
    assert (Hnp : callStatus (app w) <> Processing).
    { intros H. apply isProcessing_iff in H. congruence. }
    assert (Hmsg : exists m, messages (app (withApp (handleSendMessage (now w)) w))
                             = messages (app w) ++ [m]).
    { cbn. unfold handleSendMessage.
      apply trim_nonempty in Ht. rewrite Ht. cbn. now eexists. }
    split; [|intros _; exact Hmsg].
    split; [|tauto]. intros Heq. exfalso.
    destruct Hmsg as [m Hm]. rewrite Heq in Hm. symmetry in Hm.
    now apply snoc_neq in Hm.
  - apply trim_empty in Ht. split; [tauto|]. intros H. tauto.
  - apply trim_empty in Ht. split; [tauto|]. intros H. tauto.
Qed.

Lemma C3_submit_rejected_witness :
  isSubmit ClickSend /\
  step scenario ClickSend (typed "  " Connected) = typed "  " Connected /\
  step scenario ClickSend (typed "hello" Processing) = typed "hello" Processing /\
  exists m, messages (app (step scenario ClickSend (typed " hello " Connected)))
            = [] ++ [m].
Proof.
  assert (Hs : isSubmit ClickSend) by (now left).
  split; [exact Hs|].
  split; [|split].
  - apply (C3_submit_rejected scenario ClickSend (typed "  " Connected) Hs).
    left. unfold whitespaceOnly. cbn. repeat constructor.
  - apply (C3_submit_rejected scenario ClickSend (typed "hello" Processing) Hs).
    now right.
  - apply (C3_submit_rejected scenario ClickSend (typed " hello " Connected) Hs).
    intros [H | H]; [|discriminate H].
    revert H. now apply trim_nonempty.
Defined.

(** C4.  An accepted submission appends one message: from the customer,
    with sentiment [neutral], the trimmed input as its text, visible and
    not animating, never in the waveform phase.  The turn index, the call
    status, the speaker indicator, the timers, the trace and every
    message that was there stay as they were. *)
Theorem C4_submit_accepted (script : list Turn) (i : Input) (w : World) :
  isSubmit i ->
  ~ whitespaceOnly (inputMessage (app w)) ->
  callStatus (app w) <> Processing ->
  let w' := step script i w in
  exists m,
    messages (app w') = messages (app w) ++ [m] /\
    speaker m = customer /\
    sentiment m = Some neutral /\
    message m = trim (inputMessage (app w)) /\
    messageVisible m = Some true /\
    isAnimating m = Some false /\
    isPendingReveal m = false /\
    currentMessageIndex (app w') = currentMessageIndex (app w) /\
    callStatus (app w') = callStatus (app w) /\
    currentSpeaker (app w') = currentSpeaker (app w) /\
    timers w' = timers w /\
    trace w' = trace w /\
    (forall j old, nth_error (messages (app w)) j = Some old ->
                   nth_error (messages (app w')) j = Some old).
Proof.
  intros Hi Hinput Hstatus w'. subst w'. rewrite (submit_cases script i w Hi).
  apply trim_nonempty in Hinput.
  assert (Hp : isProcessing (callStatus (app w)) = false).
  { destruct (isProcessing (callStatus (app w))) eqn:H; [|reflexivity].
    apply isProcessing_iff in H. congruence. }
  rewrite Hinput, Hp. cbn [andb negb]. unfold withApp, handleSendMessage.
  rewrite Hinput. cbn.
  eexists. split; [reflexivity|]. repeat split.
  intros j old Hold. rewrite nth_error_app1; [exact Hold|].
  apply nth_error_Some. congruence.
Qed.

Lemma C4_submit_accepted_witness :
  isSubmit (KeyPress true false) /\
  ~ whitespaceOnly (inputMessage (app (typed " hello " Listening))) /\
  exists m,
    messages (app (step scenario (KeyPress true false) (typed " hello " Listening)))
      = [] ++ [m] /\
    message m = "hello" /\ sentiment m = Some neutral /\
    messageVisible m = Some true.
Proof.
  assert (Hs : isSubmit (KeyPress true false)) by (now right).
  assert (Hn : ~ whitespaceOnly (inputMessage (app (typed " hello " Listening)))).
  { now apply trim_nonempty. }
  assert (Hc : callStatus (app (typed " hello " Listening)) <> Processing)
    by discriminate.
  split; [exact Hs|]. split; [exact Hn|].
  destruct (C4_submit_accepted scenario (KeyPress true false)
              (typed " hello " Listening) Hs Hn Hc)
    as (m & Hm & _ & Hsent & Htext & Hvis & _).
  exists m. split; [exact Hm|]. split; [exact Htext|]. now split.
Defined.

End SendClaims.

(* ================================================================== *)
(** * Further properties of the components *)

(* ------------------------------------------------------------------ *)
(** ** The sentiment panel: history window and emotion entries *)

Module SentimentMore.
Import SentimentPanel SentimentFacts.

#[local] Arguments Nat.sub : simpl never.

Lemma slice_last_short {A : Type} (n : nat) (l : list A) :
  (List.length l <= n)%nat -> slice_last n l = l.
Proof.
  intros H. unfold slice_last.
  replace (List.length l - n)%nat with 0%nat by lia. reflexivity.
Qed.

Lemma slice_last_length {A : Type} (n : nat) (l : list A) :
  List.length (slice_last n l) = Nat.min n (List.length l).
Proof. unfold slice_last. rewrite length_skipn. lia. Qed.

(** Cutting to the last [n] before and after an append is cutting once. *)
Lemma slice_last_snoc {A : Type} (n : nat) (l : list A) (x : A) :
  (1 <= n)%nat ->
  slice_last n (slice_last n l ++ [x]) = slice_last n (l ++ [x]).
Proof.
  intros Hn. destruct (Nat.le_gt_cases (List.length l) n) as [Hle | Hgt].
  - now rewrite (slice_last_short n l Hle).
  - assert (Hcut : List.length (slice_last n l) = n)
      by (rewrite slice_last_length; lia).
    unfold slice_last at 1. rewrite length_app, Hcut. cbn [List.length].
    replace (n + 1 - n)%nat with 1%nat by lia.
    unfold slice_last. rewrite length_app. cbn [List.length].
    replace (List.length l + 1 - n)%nat
      with (1 + (List.length l - n))%nat by lia.
    rewrite <- skipn_skipn. f_equal.
    rewrite skipn_app.
    replace (List.length l - n - List.length l)%nat with 0%nat by lia.
    reflexivity.
Qed.

Lemma firstn_S_nth {A : Type} (l : list A) (k : nat) (x : A) :
  nth_error l k = Some x -> firstn (S k) l = firstn k l ++ [x].
Proof.
  revert k. induction l as [|a l IH]; intros k Hk.
  - now destruct k.
  - destruct k as [|k]; cbn in Hk.
    + now injection Hk as ->.
    + change (firstn (S (S k)) (a :: l)) with (a :: firstn (S k) l).
      rewrite (IH k Hk). reflexivity.
Qed.

Section History.

Variable script : list SentimentPoint.

Lemma history_after (n : nat) :
  let s := iter n (tick script) (initial script) in
  sentimentHistory s =
  slice_last 8 (firstn (S (currentProgressionIndex s)) script).
Proof.
  induction n as [|n IH]; cbn [iter].
  - unfold initial. cbn [sentimentHistory currentProgressionIndex].
    rewrite slice_last_short; [reflexivity|].
    rewrite length_firstn. lia.
  - cbv zeta in IH. set (s := iter n (tick script) (initial script)) in *.
    destruct (Nat.lt_ge_cases (currentProgressionIndex s)
                (List.length script - 1)) as [Hlt | Hge].
    + destruct (tick_advance script s Hlt) as [pt [Hnth ->]].
      cbn [sentimentHistory currentProgressionIndex].
      rewrite IH, slice_last_snoc by lia.
      rewrite Nat.add_1_r in *. now rewrite (firstn_S_nth script _ pt Hnth).
    + rewrite tick_noop by exact Hge. exact IH.
Qed.

End History.

(** X1.  The trailing history after any number of ticks: it is the block of
    the script that ends with the snapshot under the cursor, cut to its
    last eight entries, oldest first; so it never holds more than eight
    entries, and for a script that is not empty its newest entry is the
    snapshot under the cursor. *)
Theorem history_window (script : list SentimentPoint) (t0 : Z) (n : nat) :
  let s := panel (iter n (fireInterval script) (mount script t0)) in
  sentimentHistory s =
    slice_last 8 (firstn (S (currentProgressionIndex s)) script) /\
  List.length (sentimentHistory s) =
    Nat.min 8 (Nat.min (S (currentProgressionIndex s)) (List.length script)) /\
  (script <> [] ->
   nth_error script (currentProgressionIndex s) =
   nth_error (sentimentHistory s) (List.length (sentimentHistory s) - 1)).
Proof.
  intros s. subst s. rewrite timed_after. cbn [panel].
  set (s := iter n (tick script) (initial script)).
  pose proof (history_after script n) as H. cbv zeta in H. fold s in H.
  assert (Hc : currentProgressionIndex s = Nat.min n (List.length script - 1))
    by apply cursor_after.
  split; [exact H|]. split.
  - rewrite H, slice_last_length, length_firstn. reflexivity.
  - intros Hne.
    assert (Hlen : (1 <= List.length script)%nat).
    { destruct script; [congruence | cbn; lia]. }
    rewrite H. unfold slice_last. rewrite length_skipn, nth_error_skipn.
    rewrite length_firstn.
    replace (Nat.min (S (currentProgressionIndex s)) (List.length script))
      with (S (currentProgressionIndex s)) by lia.
    replace (S (currentProgressionIndex s) - 8
             + (S (currentProgressionIndex s)
                - (S (currentProgressionIndex s) - 8) - 1))%nat
      with (currentProgressionIndex s) by lia.
    now rewrite nth_error_firstn, (proj2 (Nat.ltb_lt _ _) (Nat.lt_succ_diag_r _)).
Qed.

Lemma history_window_witness :
  map time (sentimentHistory
              (panel (iter 10 (fireInterval sentimentProgression)
                              (mount sentimentProgression 0)))) =
  ["1:15"; "1:45"; "2:30"; "3:15"; "4:00"; "4:45"; "5:30"; "6:15"]%string /\
  nth_error sentimentProgression 9 =
  nth_error (sentimentHistory
               (panel (iter 9 (fireInterval sentimentProgression)
                              (mount sentimentProgression 0)))) 7.
Proof.
  split; [reflexivity|].
  pose proof (history_window sentimentProgression 0 9) as H.
  cbv zeta in H. destruct H as (_ & _ & H).
  assert (Hne : sentimentProgression <> []) by discriminate.
  exact (H Hne).
Defined.

(** An entry made from an authored tag, and one made from the pool. *)
Lemma rebuild_entries (pt : SentimentPoint) (e : Emotion) :
  In e (rebuildEmotions pt) ->
  (In (name e) (pt_emotions pt) /\ active e = true /\
   color e = getEmotionColor (name e)) \/
  (In (name e) defaultEmotions /\ ~ In (name e) (pt_emotions pt) /\
   active e = Sentiment_eqb (pt_currentSentiment pt) positive /\
   color e = "bg-blue-500"%string).
Proof.
  unfold rebuildEmotions.
  set (P := fun (seen : list string) (acc : Acc) =>
    (forall x, In x seen -> x <> EmptyString -> In x (fst acc)) /\
    (forall e, In e (snd acc) ->
       In (name e) (pt_emotions pt) /\ active e = true /\
       color e = getEmotionColor (name e))).
  assert (Hauth : forall l seen acc,
            (forall x, In x (seen ++ l) -> In x (pt_emotions pt)) ->
            P seen acc -> P (seen ++ l) (fold_left addAuthored l acc)).
  { induction l as [|a l IH]; intros seen [s es] Hsub HP; cbn [fold_left].
    - now rewrite app_nil_r.
    - replace (seen ++ a :: l) with ((seen ++ [a]) ++ l) in *
        by (now rewrite <- app_assoc).
      apply IH; [exact Hsub|].
      destruct HP as [Hset Hent]. unfold addAuthored, P. cbn [fst snd] in *.
      destruct (String.eqb_spec a EmptyString) as [-> | Hne]; cbn [negb andb].
      + split; [|exact Hent]. intros x Hx Hnx.
        apply in_app_or in Hx. destruct Hx as [Hx | [<- | []]]; [|congruence].
        now apply Hset.
      + destruct (includes s a) eqn:Hin; cbn [negb fst snd].
        * split; [|exact Hent]. intros x Hx Hnx.
          apply in_app_or in Hx. destruct Hx as [Hx | [<- | []]];
            [now apply Hset | now apply includes_In].
        * split.
          -- intros x Hx Hnx. apply in_app_or in Hx.
             destruct Hx as [Hx | [<- | []]]; [right; now apply Hset | now left].
          -- intros e0 He0. apply in_app_or in He0.
             destruct He0 as [He0 | [<- | []]]; [now apply Hent|].
             cbn. repeat split. apply Hsub. apply in_or_app. left.
             apply in_or_app. right. now left. }
  set (Q := fun (acc : Acc) =>
    (forall x, In x (pt_emotions pt) -> x <> EmptyString -> In x (fst acc)) /\
    (forall e, In e (snd acc) ->
       (In (name e) (pt_emotions pt) /\ active e = true /\
        color e = getEmotionColor (name e)) \/
       (In (name e) defaultEmotions /\ ~ In (name e) (pt_emotions pt) /\
        active e = Sentiment_eqb (pt_currentSentiment pt) positive /\
        color e = "bg-blue-500"%string))).
  assert (Hdef : forall l acc,
            (forall x, In x l -> In x defaultEmotions) ->
            Q acc -> Q (fold_left (addDefault pt) l acc)).
  { induction l as [|d l IH]; intros [s es] Hsub HQ; cbn [fold_left];
      [exact HQ|].
    apply IH; [intros x Hx; apply Hsub; now right|].
    destruct HQ as [Hset Hent]. unfold addDefault, Q. cbn [fst snd] in *.
    destruct (List.length es <? 4)%nat; cbn [andb]; [|now split].
    destruct (includes s d) eqn:Hin; cbn [negb fst snd]; [now split|].
    split.
    - intros x Hx Hnx. right. now apply Hset.
    - intros e0 He0. apply in_app_or in He0.
      destruct He0 as [He0 | [<- | []]]; [now apply Hent|].
      right. cbn. repeat split.
      + apply Hsub. now left.
      + intros Hd. apply includes_false in Hin. apply Hin, Hset; [exact Hd|].
        assert (Hdd : In d defaultEmotions) by (apply Hsub; now left).
        intros ->. cbn in Hdd. intuition discriminate. }
  intros He.
  refine (proj2 (Hdef defaultEmotions _ (fun x H => H) _) e He).
  destruct (Hauth (pt_emotions pt) [] ([], [])) as [H1 H2].
  - intros x Hx. exact Hx.
  - split; [intros x [] | intros e0 []].
  - split; [exact H1|]. intros e0 He0. left. now apply H2.
Qed.

(** X2.  What the panel shows for each emotion after a tick that moved
    the cursor to a snapshot [pt] of any content: an entry named by one of
    the snapshot's tags is active and has the colour [getEmotionColor]
    gives its name; any other entry is a name of the default pool that is
    not a tag of the snapshot, is blue, and is active only when the
    snapshot is positive. *)
Theorem emotion_entries (script : list SentimentPoint) (t0 : Z) (n : nat)
    (e : Emotion) :
  let s := panel (iter n (fireInterval script) (mount script t0)) in
  (1 <= currentProgressionIndex s)%nat ->
  In e (emotions s) ->
  exists pt,
    nth_error script (currentProgressionIndex s) = Some pt /\
    ((In (name e) (pt_emotions pt) /\ active e = true /\
      color e = getEmotionColor (name e)) \/
     (In (name e) defaultEmotions /\ ~ In (name e) (pt_emotions pt) /\
      active e = Sentiment_eqb (pt_currentSentiment pt) positive /\
      color e = "bg-blue-500"%string)).
Proof.
  intros s. subst s. rewrite timed_after. cbn [panel]. intros Hc He.
  destruct (values_after script n Hc) as (pt & Hnth & _ & _ & Hemo).
  exists pt. split; [exact Hnth|]. apply rebuild_entries.
  now rewrite <- Hemo.
Qed.

Lemma emotion_entries_witness :
  exists pt,
    nth_error sentimentProgression 4 = Some pt /\
    In "Attentive"%string (pt_emotions pt) /\
    getEmotionColor "Attentive" = "bg-blue-500"%string.
Proof.
  pose proof (emotion_entries sentimentProgression 0 4
                {| name := "Attentive"; active := true; color := "bg-blue-500" |})
    as H.
  cbv zeta in H.
  destruct H as (pt & Hpt & Hcase).
  - vm_compute. lia.
  - vm_compute. tauto.
  - exists pt. split; [exact Hpt|].
    destruct Hcase as [(Hin & _ & Hcol) | (_ & Hnot & _)].
    + split; [exact Hin | now symmetry].
    + exfalso. apply Hnot.
      assert (Hq : Some pt = nth_error sentimentProgression 4).
      { symmetry. exact Hpt. }
      cbn in Hq. injection Hq as ->. cbn. tauto.
Defined.

End SentimentMore.

(* ------------------------------------------------------------------ *)
(** ** The reveal engine: cursor, start callback, pace, re-renders *)

Module TypewriterMore.
Import Typewriter TypewriterFacts TypewriterTerms.

Section Fixed.

Variable random : nat -> Q.
Variable p : Props.

(** What one firing adds to the log and does to the cursor flag. *)
Lemma fire_step (k : nat) (i : Instance) (c : ascii) :
  Typing random p k i ->
  String.get k (text p) = Some c ->
  log (runtime (fire random i)) =
    log (runtime i)
    ++ (if (k =? 0)%nat
        then match onStart p with Some f => [Started f] | None => [] end
        else [])
    ++ [Appended c]
    ++ match String.get (S k) (text p) with
       | Some c' =>
           [Scheduled (fst (getTypingSpeed random (speed p) c' (S k) (text p)
                              (draws (runtime i)))) c']
       | None => match onComplete p with
                 | Some f => [Completed f]
                 | None => []
                 end
       end /\
  isTyping (state (fire random i)) =
    match String.get (S k) (text p) with
    | Some _ => if (k =? 0)%nat then true else isTyping (state i)
    | None => false
    end.
Proof.
  intros [Hp Hidx _ Htime _ _ _ _ _] Hget.
  rewrite Hget in Htime. destruct Htime as [n Htime].
  rewrite (fire_typing random p i _ Hp Htime) by (symmetry; exact Hidx).
  cbn [t_index t_char t_onStart]. cbv zeta.
  set (rt0 := {| timeout := None; draws := draws (runtime i);
                 log := log (runtime i) |}).
  set (rt1 := if (k =? 0)%nat then call (onStart p) Started rt0 else rt0).
  assert (Hlog1 : log rt1 = log (runtime i) ++
            if (k =? 0)%nat then
              match onStart p with Some f => [Started f] | None => [] end
            else []).
  { subst rt1. destruct (k =? 0)%nat.
    - now rewrite log_call.
    - cbn. now rewrite app_nil_r. }
  assert (Hdraws1 : draws rt1 = draws (runtime i)).
  { subst rt1. destruct (k =? 0)%nat; [now rewrite draws_call | reflexivity]. }
  set (st' := {| displayedText := _; currentIndex := _; isTyping := _ |}).
  assert (Hidx' : currentIndex st' = S k) by (subst st'; cbn; lia).
  destruct (String.get (S k) (text p)) as [c'|] eqn:Hget'.
  - rewrite (revealEffect_char random p st' _ c') by (now rewrite Hidx').
    cbn [runtime state log emit draws]. rewrite Hidx', Hlog1, Hdraws1.
    cbn [Nat.eqb]. split; [now rewrite <- !app_assoc | reflexivity].
  - assert (Hend : S k = String.length (text p)).
    { pose proof (get_Some_inv _ _ _ Hget).
      destruct (Nat.lt_ge_cases (S k) (String.length (text p))) as [Hl | Hg];
        [|lia].
      destruct (get_Some_lt (text p) (S k) Hl) as [x Hx]. congruence. }
    rewrite revealEffect_end by (now rewrite Hidx').
    cbn [runtime state typingOff isTyping].
    rewrite log_call. cbn [emit log]. rewrite Hlog1.
    split; [|reflexivity].
    destruct (onComplete p); now rewrite <- !app_assoc.
Qed.

Lemma isTyping_run (k : nat) :
  (k <= String.length (text p))%nat ->
  isTyping (state (run random p k)) =
  ((0 <? k) && (k <? String.length (text p)))%nat.
Proof.
  induction k as [|k IH]; intros Hk.
  - unfold run. cbn [iter]. now rewrite mount_eq.
  - destruct (get_Some_lt (text p) k) as [c Hc]; [lia|].
    change (run random p (S k)) with (fire random (run random p k)).
    destruct (fire_step k _ c (Typing_run random p k (Nat.lt_le_incl _ _ Hk)) Hc)
      as [_ ->].
    destruct (String.get (S k) (text p)) as [c'|] eqn:Hc'.
    + apply get_Some_inv in Hc'.
      assert (H1 : (S k <? String.length (text p))%nat = true)
        by (apply Nat.ltb_lt; exact Hc').
      rewrite H1.
      destruct k as [|k]; [reflexivity|].
      rewrite IH by lia.
      change (S k =? 0)%nat with false. change (0 <? S k)%nat with true.
      change (0 <? S (S k))%nat with true.
      assert (H2 : (S k <? String.length (text p))%nat = true)
        by (apply Nat.ltb_lt; lia).
      now rewrite H2.
    + assert (Hend : (String.length (text p) <= S k)%nat).
      { destruct (Nat.lt_ge_cases (S k) (String.length (text p))) as [Hl | Hg];
          [|lia].
        destruct (get_Some_lt (text p) (S k) Hl) as [x Hx]. congruence. }
      apply Nat.ltb_ge in Hend. rewrite Hend. now rewrite andb_false_r.
Qed.

End Fixed.

Lemma frames_last (random : nat -> Q) (fuel : nat) (first : bool)
    (old : Props) (oldIndex : nat) (p : Props) (st : State) (rt : Runtime)
    (d : State) :
  last (frames random fuel first old oldIndex p st rt) d =
  state (settle random fuel first old oldIndex p st rt).
Proof.
  revert first old oldIndex st rt.
  induction fuel as [|fuel IH]; intros first old oldIndex st rt;
    cbn [frames settle];
    destruct (pass random first old oldIndex p st rt) as [st' rt'].
  - destruct (State_eqb st' st) eqn:Heq; [|reflexivity].
    apply State_eqb_eq in Heq. now subst.
  - destruct (State_eqb st' st); [reflexivity|].
    specialize (IH false p (currentIndex st) st' rt').
    destruct (frames random fuel false p (currentIndex st) p st' rt') eqn:Hf;
      [|exact IH].
    exfalso. destruct fuel; cbn [frames] in Hf;
      destruct (pass random false p (currentIndex st) p st' rt');
      destruct (State_eqb _ _); discriminate.
Qed.

(** X3.  The typing cursor ([isTyping]), render by render.  The firing
    that appends the character at position [k] is followed by a render
    that shows the text up to and with that character and the cursor on;
    this holds for the last character too, and for the only character of
    a text of one.  While characters remain that is the only render.
    With the last character a second render follows, in which the effect
    has turned the cursor off: it is the state that is left.  Before the
    first firing the cursor is off. *)
Theorem cursor_frames (random : nat -> Q) (p : Props) (k : nat) (c : ascii) :
  String.get k (text p) = Some c ->
  let before := run random p k in
  let shown := substring 0 (S k) (text p) in
  fireFrames random before =
    {| displayedText := shown; currentIndex := S k; isTyping := true |}
    :: (if (S k <? String.length (text p))%nat then []
        else [{| displayedText := shown; currentIndex := S k;
                 isTyping := false |}]) /\
  last (fireFrames random before) (state before) =
    state (run random p (S k)) /\
  isTyping (state (run random p 0)) = false.
Proof.
  intros Hget. cbv zeta.
  pose proof (get_Some_inv _ _ _ Hget) as Hlt.
  pose proof (Typing_run random p k (Nat.lt_le_incl _ _ Hlt)) as Hty.
  pose proof (isTyping_run random p k (Nat.lt_le_incl _ _ Hlt)) as Hcur.
  destruct Hty as [Hp Hidx Htext Htime _ _ _ _ _].
  rewrite Hget in Htime. destruct Htime as [n Htime].
  split; [|split].
  - unfold fireFrames. rewrite Htime. cbv zeta.
    cbn [t_index t_char t_onStart]. rewrite Hp, Hidx, Htext, Hcur.
    rewrite <- (substring_0_snoc _ _ _ Hget).
    assert (Hon : (if (k =? 0)%nat then true
                   else ((0 <? k) && (k <? String.length (text p)))%nat)
                  = true).
    { apply Nat.ltb_lt in Hlt. rewrite Hlt.
      destruct k; [reflexivity|]. reflexivity. }
    rewrite Hon. rewrite Nat.add_1_r.
    set (st' := {| displayedText := substring 0 (S k) (text p);
                   currentIndex := S k; isTyping := true |}).
    set (rt := emit [Appended c] _).
    unfold renders. cbn [frames].
    rewrite pass_same_props.
    replace (k =? currentIndex st')%nat with false
      by (symmetry; apply Nat.eqb_neq; cbn; lia).
    destruct (String.get (S k) (text p)) as [c'|] eqn:Hnext.
    + pose proof (get_Some_inv _ _ _ Hnext) as Hlt'.
      apply Nat.ltb_lt in Hlt'. rewrite Hlt'.
      rewrite (revealEffect_char random p st' _ c') by exact Hnext.
      cbv iota beta. now rewrite State_eqb_refl.
    + assert (Hend : S k = String.length (text p)).
      { destruct (Nat.lt_ge_cases (S k) (String.length (text p))) as [Hl | Hg];
          [|lia].
        destruct (get_Some_lt (text p) (S k) Hl) as [x Hx]. congruence. }
      rewrite <- Hend, Nat.ltb_irrefl.
      rewrite revealEffect_end by (cbn; exact Hend).
      cbv iota beta.
      assert (Hne : State_eqb (typingOff st') st' = false).
      { unfold State_eqb. cbn. now rewrite andb_false_r. }
      rewrite Hne. rewrite pass_same_props.
      change (currentIndex (typingOff st')) with (currentIndex st').
      rewrite Nat.eqb_refl. now rewrite State_eqb_refl.
  - unfold fireFrames. rewrite Htime. cbv zeta. rewrite frames_last.
    change (run random p (S k)) with (fire random (run random p k)).
    unfold fire. now rewrite Htime.
  - unfold run. cbn [iter]. now rewrite mount_eq.
Qed.

Lemma cursor_frames_witness :
  fireFrames half (run half (demo "a") 0) =
    [{| displayedText := "a"; currentIndex := 1; isTyping := true |};
     {| displayedText := "a"; currentIndex := 1; isTyping := false |}].
Proof.
  exact (proj1 (cursor_frames half (demo "a") 0 "a"%char eq_refl)).
Defined.

Section Log.

Variable random : nat -> Q.
Variable p : Props.

Lemma mount_log (c : ascii) :
  String.get 0 (text p) = Some c ->
  log (runtime (mount random p)) = [Scheduled (delay p) c; Reset].
Proof.
  intros Hget. rewrite mount_eq.
  rewrite (revealEffect_char random p _ _ c) by exact Hget.
  reflexivity.
Qed.

(** Firing only adds to the log. *)
Lemma run_log_grows (k : nat) :
  exists l, log (runtime (run random p (S k))) =
            log (runtime (run random p k)) ++ l /\ starts l = 0%nat \/
            k = 0%nat.
Proof.
  destruct k as [|k]; [exists []; now right|].
  destruct (Nat.lt_ge_cases (S k) (String.length (text p))) as [Hlt | Hge].
  - destruct (get_Some_lt (text p) (S k) Hlt) as [c Hc].
    change (run random p (S (S k))) with (fire random (run random p (S k))).
    destruct (fire_step random p (S k) _ c
                (Typing_run random p (S k) (Nat.lt_le_incl _ _ Hlt)) Hc)
      as [-> _].
    eexists; left; split; [reflexivity|].
    cbn [Nat.eqb app]. destruct (String.get (S (S k)) (text p)).
    + reflexivity.
    + now destruct (onComplete p).
  - exists []. left. rewrite app_nil_r. split; [|reflexivity].
    now rewrite (run_done random p (S (S k))), (run_done random p (S k)) by lia.
Qed.

End Log.

(** X4.  For a text that is not empty, the log of a component left to its
    timers begins: the timer of [delay] ms for the first character, the
    reset, then, once that timer has fired, the call of [onStart] (when
    the prop is given) directly followed by the first character; whatever
    follows holds no further call of [onStart]. *)
Theorem onStart_first (random : nat -> Q) (p : Props) (c : ascii) (k : nat) :
  String.get 0 (text p) = Some c ->
  log (runtime (run random p 0)) = [Scheduled (delay p) c; Reset] /\
  exists rest,
    log (runtime (run random p (S k))) =
      [Scheduled (delay p) c; Reset]
      ++ match onStart p with Some f => [Started f] | None => [] end
      ++ [Appended c] ++ rest /\
    starts rest = 0%nat.
Proof.
  intros Hget. split; [now apply mount_log|].
  induction k as [|k IH].
  - change (run random p 1) with (fire random (run random p 0)).
    destruct (fire_step random p 0 _ c (Typing_run random p 0 (Nat.le_0_l _)) Hget)
      as [-> _].
    change (run random p 0) with (mount random p). rewrite (mount_log random p c Hget).
    cbn [Nat.eqb]. eexists. split; [reflexivity|].
    destruct (String.get 1 (text p)); [reflexivity|].
    now destruct (onComplete p).
  - destruct IH as (rest & Hlog & Hrest).
    destruct (run_log_grows random p (S k)) as [l [[Hl Hs] | Hk]]; [|discriminate].
    exists (rest ++ l). split.
    + rewrite Hl, Hlog. now rewrite <- !app_assoc.
    + rewrite starts_app. lia.
Qed.

Lemma onStart_first_witness :
  exists rest,
    log (runtime (run half (demo "Hi") 2)) =
      [Scheduled 300 "H"%char; Reset; Started 1%nat; Appended "H"%char] ++ rest /\
    starts rest = 0%nat.
Proof.
  exact (proj2 (onStart_first half (demo "Hi") "H"%char 1 eq_refl)).
Defined.

Local Open Scope Q_scope.




Section Pace.

Variable random : nat -> Q.
Variable p : Props.
Hypothesis speed_nonneg : 0 <= speed p.
Hypothesis random_unit : forall n, 0 <= random n /\ random n < 1.


End Pace.




Close Scope Q_scope.

(** X6.  A render by the parent that passes the props the component
    already has (the same text, speed, delay and callback functions) runs
    no effect: no timer is cleared or set, no callback is called, the
    state stays as it is. *)
Theorem rerender_unchanged (random : nat -> Q) (i : Instance) :
  rerender random (props i) i = i.
Proof.
  unfold rerender, renders. rewrite RestartClaims.settle_step.
  rewrite pass_same_props, Nat.eqb_refl, State_eqb_refl.
  now destruct i.
Qed.

Lemma pass_new_callbacks (random : nat -> Q) (p : Props)
    (s' c' : option Callback) (st : State) (rt : Runtime) :
  option_eqb (onStart p) s' && option_eqb (onComplete p) c' = false ->
  pass random false p (currentIndex st) (withCallbacks s' c' p) st rt =
  let '(rt2, off) :=
    revealEffect random (withCallbacks s' c' p) st (revealCleanup rt) in
  (if off then typingOff st else st, rt2).
Proof.
  intros Hcb. unfold pass, revealDepsChanged, resetDepsChanged.
  cbn [withCallbacks text speed delay onStart onComplete orb].
  rewrite String.eqb_refl, Nat.eqb_refl.
  assert (Hq : forall q, Qeq_bool q q = true)
    by (intros q; apply Qeq_bool_iff; reflexivity).
  rewrite !Hq. cbn [andb negb].
  assert (Hrun : negb (option_eqb (onComplete p) c' && option_eqb (onStart p) s')
                 = true).
  { rewrite andb_comm, Hcb. reflexivity. }
  rewrite Hrun. cbn [andb negb].
  destruct (revealEffect random (withCallbacks s' c' p) st (revealCleanup rt))
    as [rt2 off].
  reflexivity.
Qed.

(** X7.  A render by the parent that passes a different function as
    [onStart] or [onComplete] (the text, speed and delay as before) runs
    the reveal effect again.  While characters are outstanding the pending
    timer is cleared and set anew, for the same character and with a
    waiting time computed afresh, so the wait for that character starts
    over.  Once the text is out, [onComplete] is called again at once.
    The characters shown stay as they are in both cases. *)
Theorem rerender_new_callbacks (random : nat -> Q) (p : Props)
    (s' c' : option Callback) (k : nat) :
  option_eqb (onStart p) s' && option_eqb (onComplete p) c' = false ->
  let before := run random p k in
  let after := rerender random (withCallbacks s' c' p) before in
  state after = state before /\
  ((k < String.length (text p))%nat ->
   exists c,
     String.get k (text p) = Some c /\
     let ms := if (k =? 0)%nat then delay p
               else fst (getTypingSpeed random (speed p) c k (text p)
                           (draws (runtime before))) in
     log (runtime after) = log (runtime before) ++ [Cleared; Scheduled ms c] /\
     timeout (runtime after) =
       Some {| t_index := k; t_char := c; t_onStart := s'; t_ms := ms |}) /\
  ((String.length (text p) <= k)%nat ->
   log (runtime after) =
     log (runtime before)
     ++ match c' with Some f => [Completed f] | None => [] end /\
   timeout (runtime after) = None).
Proof.
  intros Hcb. cbv zeta.
  set (j := Nat.min k (String.length (text p))).
  assert (Hrun : run random p k = run random p j).
  { destruct (Nat.le_gt_cases k (String.length (text p))).
    - now replace j with k by lia.
    - replace j with (String.length (text p)) by lia. apply run_done. lia. }
  rewrite Hrun.
  pose proof (Typing_run random p j ltac:(lia)) as Hty.
  pose proof (isTyping_run random p j ltac:(lia)) as Hcur.
  destruct Hty as [Hp Hidx _ Htime _ _ _ _ _].
  unfold rerender, renders. rewrite RestartClaims.settle_step.
  rewrite Hp.
  rewrite (pass_new_callbacks random p s' c' (state (run random p j))
             (runtime (run random p j)) Hcb).
  destruct (Nat.lt_ge_cases k (String.length (text p))) as [Hlt | Hge].
  - assert (Hj : j = k) by lia. rewrite Hj in *.
    destruct (get_Some_lt (text p) k Hlt) as [c Hc].
    rewrite Hc in Htime. destruct Htime as [n Htime].
    unfold revealCleanup. rewrite Htime.
    rewrite (revealEffect_char random (withCallbacks s' c' p) _ _ c)
      by (cbn [withCallbacks text]; now rewrite Hidx).
    cbv zeta. rewrite State_eqb_refl. cbn [state runtime log timeout draws].
    split; [reflexivity|]. split; [|intros; lia].
    intros _. exists c. split; [exact Hc|].
    cbn [withCallbacks text speed delay onStart]. rewrite Hidx.
    rewrite <- app_assoc. split; reflexivity.
  - assert (Hj : j = String.length (text p)) by lia. rewrite Hj in *.
    assert (Hnone : timeout (runtime (run random p (String.length (text p))))
                    = None).
    { now rewrite (get_None_ge (text p) _ (Nat.le_refl _)) in Htime. }
    rewrite revealCleanup_idle by exact Hnone.
    rewrite (revealEffect_end random (withCallbacks s' c' p))
      by (cbn [withCallbacks text]; exact Hidx).
    assert (Hoff : typingOff (state (run random p (String.length (text p))))
                   = state (run random p (String.length (text p)))).
    { unfold typingOff. rewrite Nat.ltb_irrefl, andb_false_r in Hcur.
      destruct (state (run random p (String.length (text p)))).
      cbn in *. now rewrite Hcur. }
    rewrite Hoff, State_eqb_refl. cbn [state runtime].
    split; [reflexivity|]. split; [intros; lia|].
    intros _. cbn [withCallbacks onComplete].
    rewrite log_call, timeout_call. split; [reflexivity | exact Hnone].
Qed.

Lemma rerender_new_callbacks_witness :
  log (runtime (rerender half (withCallbacks (Some 1%nat) (Some 7%nat) (demo "Hi"))
                  (run half (demo "Hi") 2))) =
    log (runtime (run half (demo "Hi") 2)) ++ [Completed 7%nat] /\
  timeout (runtime (rerender half (withCallbacks (Some 1%nat) (Some 7%nat) (demo "Hi"))
                      (run half (demo "Hi") 2))) = None.
Proof.
  apply (rerender_new_callbacks half (demo "Hi") (Some 1%nat) (Some 7%nat) 2).
  - reflexivity.
  - cbn. lia.
Defined.

(** X20.  A new text in the middle of a reveal.  With [k] characters of
    the old text out ([0 < k < length]) and a text that differs from it:
    the pending timer is cleared, the state is reset to the empty prefix,
    no character is appended and [onStart] is not called; the timer left
    pending is that of the first character of the new text, after
    [delay] (none for the empty text).  [onComplete] is called at once in
    two cases and in no other: when the new text is empty, which is
    complete from the start, and when it has exactly [k] characters, none
    of which has been shown. *)
Theorem restart_outcome (random : nat -> Q) (p p' : Props) (k : nat) :
  (0 < k < String.length (text p))%nat ->
  text p' <> text p ->
  let before := run random p k in
  let after := rerender random p' before in
  state after = {| displayedText := EmptyString; currentIndex := 0;
                   isTyping := false |} /\
  appended (log (runtime after)) = appended (log (runtime before)) /\
  starts (log (runtime after)) = starts (log (runtime before)) /\
  completions (log (runtime after)) =
    (completions (log (runtime before))
     + if ((String.length (text p') =? k) || (String.length (text p') =? 0))%nat
       then given (onComplete p') else 0)%nat /\
  timeout (runtime after) =
    match String.get 0 (text p') with
    | Some c => Some {| t_index := 0; t_char := c; t_onStart := onStart p';
                        t_ms := delay p' |}
    | None => None
    end.
Proof.
  intros [Hpos Hlt] Hneq. cbv zeta.
  destruct (Nat.eq_dec (String.length (text p')) 0) as [Hempty | Hfull].
  - (* the new text is empty *)
    pose proof (Typing_run random p k (Nat.lt_le_incl _ _ Hlt)) as Hty.
    destruct Hty as [Hp Hidx _ Htime _ _ _ _ _].
    destruct (get_Some_lt (text p) k Hlt) as [ck Hck]. rewrite Hck in Htime.
    destruct Htime as [n Htime].
    assert (Heqb : String.eqb (text p) (text p') = false).
    { apply String.eqb_neq. congruence. }
    assert (Hclean : revealCleanup (runtime (run random p k)) =
              {| timeout := None; draws := draws (runtime (run random p k));
                 log := log (runtime (run random p k)) ++ [Cleared] |}).
    { unfold revealCleanup. now rewrite Htime. }
    assert (Hnone : String.get 0 (text p') = None)
      by (apply get_None_ge; lia).
    unfold rerender, renders. rewrite Hp, Hidx.
    rewrite RestartClaims.settle_step, RestartClaims.pass_new_text
      by exact Heqb.
    rewrite Hclean.
    rewrite (RestartClaims.revealEffect_past random p')
      by (rewrite Hidx; lia).
    cbv iota beta. cbn [fst].
    rewrite RestartClaims.State_eqb_index by (cbn [currentIndex]; lia).
    rewrite settle_same_props by (cbn [currentIndex]; lia).
    rewrite revealCleanup_idle by reflexivity.
    rewrite revealEffect_end by (cbn [currentIndex]; now rewrite Hempty).
    cbn [props state runtime typingOff displayedText currentIndex].
    rewrite log_call, timeout_call. cbn [emit log timeout].
    rewrite Hnone, Hempty.
    replace (0 =? k)%nat with false by (symmetry; apply Nat.eqb_neq; lia).
    cbn [orb Nat.eqb].
    repeat rewrite completions_app. repeat rewrite starts_app.
    repeat rewrite appended_app.
    destruct (onComplete p'); unfold completions, starts;
      cbn [filter isCompleted isStarted List.length appended given];
      rewrite ?Nat.add_0_r, ?app_nil_r; repeat split; lia.
  - destruct (Nat.eq_dec (String.length (text p')) k) as [Hlen | Hlen].
    + (* as many characters as are out *)
      pose proof (Typing_run random p k (Nat.lt_le_incl _ _ Hlt)) as Hty.
      destruct Hty as [Hp Hidx _ Htime _ _ _ _ _].
      destruct (get_Some_lt (text p) k Hlt) as [ck Hck]. rewrite Hck in Htime.
      destruct Htime as [n Htime].
      destruct (get_Some_lt (text p') 0) as [c Hc]; [lia|].
      assert (Heqb : String.eqb (text p) (text p') = false).
      { apply String.eqb_neq. congruence. }
      assert (Hclean : revealCleanup (runtime (run random p k)) =
                {| timeout := None; draws := draws (runtime (run random p k));
                   log := log (runtime (run random p k)) ++ [Cleared] |}).
      { unfold revealCleanup. now rewrite Htime. }
      unfold rerender, renders. rewrite Hp, Hidx.
      rewrite RestartClaims.settle_step, RestartClaims.pass_new_text
        by exact Heqb.
      rewrite Hclean, revealEffect_end by (now rewrite Hidx, Hlen).
      cbv iota beta. cbn [fst].
      rewrite RestartClaims.State_eqb_index by (cbn [currentIndex]; lia).
      rewrite settle_same_props by (cbn [currentIndex]; lia).
      rewrite revealCleanup_idle
        by (cbn [emit timeout]; now rewrite timeout_call).
      rewrite (revealEffect_char random p' _ _ c) by exact Hc.
      cbn [props state runtime displayedText currentIndex log emit Nat.eqb
           fst timeout].
      rewrite log_call. cbn [log]. rewrite Hc, Hlen, Nat.eqb_refl.
      cbn [orb].
      repeat rewrite completions_app. repeat rewrite starts_app.
      repeat rewrite appended_app.
      destruct (onComplete p'); unfold completions, starts;
        cbn [filter isCompleted isStarted List.length appended given];
        rewrite ?Nat.add_0_r, ?app_nil_r; repeat split; lia.
    + (* any other text *)
      destruct (RestartClaims.restart_clean random p p' k
                  (conj Hpos Hlt) Hneq ltac:(lia) Hlen)
        as (Hcomp & Hst & Happ & Hstate & c & Hc & Htime).
      rewrite Hc, Htime, Hcomp, Hst, Happ, Hstate.
      replace (String.length (text p') =? k)%nat with false
        by (symmetry; apply Nat.eqb_neq; lia).
      replace (String.length (text p') =? 0)%nat with false
        by (symmetry; apply Nat.eqb_neq; lia).
      cbn [orb]. repeat split. lia.
Qed.

Lemma restart_outcome_witness :
  completions
    (log (runtime (rerender half (demo "xy") (run half (demo "abc") 2)))) =
  (completions (log (runtime (run half (demo "abc") 2))) + 1)%nat /\
  completions
    (log (runtime (rerender half (demo "xyz") (run half (demo "abc") 2)))) =
  (completions (log (runtime (run half (demo "abc") 2))) + 0)%nat.
Proof.
  split.
  - apply (restart_outcome half (demo "abc") (demo "xy") 2);
      [cbn; lia | discriminate].
  - apply (restart_outcome half (demo "abc") (demo "xyz") 2);
      [cbn; lia | discriminate].
Defined.

(** *** After a restart *)

Lemma revealCleanup_none (rt : Runtime) : timeout (revealCleanup rt) = None.
Proof.
  unfold revealCleanup. destruct (timeout rt) eqn:Ht; [reflexivity | exact Ht].
Qed.

Section Simulation.

Variable random : nat -> Q.
Variable d : nat.
Variables l1 l2 : list Event.

Lemma getTypingSpeed_shift (s : Q) (c : ascii) (i : nat) (T : string)
    (n : nat) :
  getTypingSpeed random s c i T (n + d) =
  (fst (getTypingSpeed (shift d random) s c i T n),
   (snd (getTypingSpeed (shift d random) s c i T n) + d)%nat).
Proof.
  unfold getTypingSpeed, shift.
  repeat match goal with
         | |- context [if ?b then _ else _] => destruct b
         end; reflexivity.
Qed.

Lemma Sim_emit (es : list Event) (rt1 rt2 : Runtime) :
  Sim d l1 l2 rt1 rt2 -> Sim d l1 l2 (emit es rt1) (emit es rt2).
Proof.
  intros [Ht Hd (l & H1 & H2)]. constructor; cbn [emit timeout draws log];
    try assumption.
  exists (l ++ es). now rewrite H1, H2, !app_assoc.
Qed.

Lemma Sim_call (cb : option Callback) (ev : Callback -> Event)
    (rt1 rt2 : Runtime) :
  Sim d l1 l2 rt1 rt2 -> Sim d l1 l2 (call cb ev rt1) (call cb ev rt2).
Proof. intros H. destruct cb; cbn [call]; [now apply Sim_emit | exact H]. Qed.

Lemma Sim_cleanup (rt1 rt2 : Runtime) :
  Sim d l1 l2 rt1 rt2 ->
  Sim d l1 l2 (revealCleanup rt1) (revealCleanup rt2).
Proof.
  intros H. pose proof H as [Ht Hd (l & H1 & H2)].
  unfold revealCleanup. rewrite Ht. destruct (timeout rt2); [|exact H].
  constructor; cbn [timeout draws log]; try reflexivity; try assumption.
  exists (l ++ [Cleared]). now rewrite H1, H2, !app_assoc.
Qed.

Lemma Sim_revealEffect (p : Props) (st : State) (rt1 rt2 : Runtime) :
  Sim d l1 l2 rt1 rt2 ->
  snd (revealEffect random p st rt1) =
  snd (revealEffect (shift d random) p st rt2) /\
  Sim d l1 l2 (fst (revealEffect random p st rt1))
              (fst (revealEffect (shift d random) p st rt2)).
Proof.
  intros H. pose proof H as [Ht Hd (l & H1 & H2)]. unfold revealEffect.
  destruct (currentIndex st <? String.length (text p))%nat.
  - destruct (String.get (currentIndex st) (text p)) as [c|]; [|now split].
    rewrite Hd, getTypingSpeed_shift.
    destruct (getTypingSpeed (shift d random) (speed p) c (currentIndex st)
                (text p) (draws rt2)) as [v n'].
    cbn [fst snd]. split; [reflexivity|].
    constructor; cbn [timeout draws log]; try reflexivity.
    eexists. rewrite H1, H2, <- !app_assoc. split; reflexivity.
  - destruct (currentIndex st =? String.length (text p))%nat;
      cbn [fst snd]; split; try reflexivity; [now apply Sim_call | exact H].
Qed.

Lemma Sim_pass (first : bool) (old : Props) (oldIndex : nat) (p : Props)
    (st : State) (rt1 rt2 : Runtime) :
  Sim d l1 l2 rt1 rt2 ->
  fst (pass random first old oldIndex p st rt1) =
  fst (pass (shift d random) first old oldIndex p st rt2) /\
  Sim d l1 l2 (snd (pass random first old oldIndex p st rt1))
              (snd (pass (shift d random) first old oldIndex p st rt2)).
Proof.
  intros H. unfold pass.
  set (run1 := (first || revealDepsChanged old oldIndex p st)%bool).
  set (run2 := (first || resetDepsChanged old p)%bool).
  assert (Hc : Sim d l1 l2
                 (if (run1 && negb first)%bool then revealCleanup rt1 else rt1)
                 (if (run1 && negb first)%bool then revealCleanup rt2 else rt2)).
  { destruct (run1 && negb first)%bool; [now apply Sim_cleanup | exact H]. }
  set (c1 := if (run1 && negb first)%bool then revealCleanup rt1 else rt1) in *.
  set (c2 := if (run1 && negb first)%bool then revealCleanup rt2 else rt2) in *.
  destruct run1.
  - destruct (Sim_revealEffect p st c1 c2 Hc) as [Hoff Hsim].
    destruct (revealEffect random p st c1) as [r1 o1].
    destruct (revealEffect (shift d random) p st c2) as [r2 o2].
    cbn [fst snd] in *. subst o2.
    destruct run2; cbn [fst snd]; split; try reflexivity;
      [now apply Sim_emit | exact Hsim].
  - destruct run2; cbn [fst snd]; split; try reflexivity;
      [now apply Sim_emit | exact Hc].
Qed.

Lemma Sim_settle (fuel : nat) (first : bool) (old : Props) (oldIndex : nat)
    (p : Props) (st : State) (rt1 rt2 : Runtime) :
  Sim d l1 l2 rt1 rt2 ->
  props (settle random fuel first old oldIndex p st rt1) =
  props (settle (shift d random) fuel first old oldIndex p st rt2) /\
  state (settle random fuel first old oldIndex p st rt1) =
  state (settle (shift d random) fuel first old oldIndex p st rt2) /\
  Sim d l1 l2
    (runtime (settle random fuel first old oldIndex p st rt1))
    (runtime (settle (shift d random) fuel first old oldIndex p st rt2)).
Proof.
  revert first old oldIndex st rt1 rt2.
  induction fuel as [|fuel IH]; intros first old oldIndex st rt1 rt2 H;
    cbn [settle];
    destruct (Sim_pass first old oldIndex p st rt1 rt2 H) as [Hst Hsim];
    destruct (pass random first old oldIndex p st rt1) as [s1 r1];
    destruct (pass (shift d random) first old oldIndex p st rt2) as [s2 r2];
    cbn [fst snd] in *; subst s2.
  - split; [reflexivity | split; [reflexivity | exact Hsim]].
  - destruct (State_eqb s1 st);
      [split; [reflexivity | split; [reflexivity | exact Hsim]]|].
    now apply IH.
Qed.

Lemma Sim_fire (i1 i2 : Instance) :
  props i1 = props i2 -> state i1 = state i2 ->
  Sim d l1 l2 (runtime i1) (runtime i2) ->
  props (fire random i1) = props (fire (shift d random) i2) /\
  state (fire random i1) = state (fire (shift d random) i2) /\
  Sim d l1 l2 (runtime (fire random i1))
              (runtime (fire (shift d random) i2)).
Proof.
  intros Hp Hs H. pose proof H as [Ht Hd (l & H1 & H2)].
  unfold fire. rewrite Ht, Hp, Hs.
  destruct (timeout (runtime i2)) as [t|];
    [|split; [exact Hp | split; [exact Hs | exact H]]].
  cbv zeta. apply Sim_settle.
  assert (H0 : Sim d l1 l2
                 {| timeout := None; draws := draws (runtime i1);
                    log := log (runtime i1) |}
                 {| timeout := None; draws := draws (runtime i2);
                    log := log (runtime i2) |}).
  { constructor; cbn [timeout draws log]; try reflexivity; try assumption.
    now exists l. }
  apply Sim_emit.
  destruct (t_index t =? 0)%nat; [now apply Sim_call | exact H0].
Qed.

End Simulation.

(** X21.  After a restart the component goes on as a freshly mounted
    one.  With [k] characters of the old text out ([0 < k < length]) and
    a text that differs from it, there is a number [d] (the random
    numbers used so far) such that, after any number [j] of further
    firings, the restarted component and a component mounted with the new
    props and the random numbers from the [d]-th on have the same state
    and the same pending timer, and their logs have grown by the same
    events.  So the new text is revealed character by character and
    completes as on a fresh mount. *)
Theorem restart_then_fresh (random : nat -> Q) (p p' : Props) (k : nat) :
  (0 < k < String.length (text p))%nat ->
  text p' <> text p ->
  exists d,
    forall j,
      let restarted :=
        iter j (fire random) (rerender random p' (run random p k)) in
      let fresh := run (shift d random) p' j in
      props restarted = p' /\
      state restarted = state fresh /\
      timeout (runtime restarted) = timeout (runtime fresh) /\
      exists l,
        log (runtime restarted) =
          log (runtime (rerender random p' (run random p k))) ++ l /\
        log (runtime fresh) = log (runtime (mount (shift d random) p')) ++ l.
Proof.
  intros [Hpos Hlt] Hneq.
  pose proof (Typing_run random p k (Nat.lt_le_incl _ _ Hlt)) as Hty.
  destruct Hty as [Hp Hidx _ _ _ _ _ _ _].
  assert (Heqb : String.eqb (text p) (text p') = false).
  { apply String.eqb_neq. congruence. }
  set (st0 := {| displayedText := EmptyString; currentIndex := 0;
                 isTyping := false |}).
  set (rtZ := revealCleanup
                (emit [Reset]
                   (fst (revealEffect random p' (state (run random p k))
                           (revealCleanup (runtime (run random p k))))))).
  assert (Hre : rerender random p' (run random p k) =
                {| props := p'; state := st0;
                   runtime := fst (revealEffect random p' st0 rtZ) |}).
  { unfold rerender, renders. rewrite Hp, Hidx.
    rewrite RestartClaims.settle_step, RestartClaims.pass_new_text
      by exact Heqb.
    rewrite RestartClaims.State_eqb_index
      by (cbn [currentIndex]; rewrite Hidx; lia).
    rewrite settle_same_props by (cbn [currentIndex]; rewrite Hidx; lia).
    fold st0. fold rtZ.
    destruct (revealEffect random p' st0 rtZ) as [rt2 off]. cbn [fst].
    now destruct off. }
  exists (draws rtZ).
  set (d := draws rtZ).
  set (L1 := log (runtime (rerender random p' (run random p k)))).
  set (L2 := log (runtime (mount (shift d random) p'))).
  assert (Hstart :
            props (rerender random p' (run random p k)) =
              props (mount (shift d random) p') /\
            state (rerender random p' (run random p k)) =
              state (mount (shift d random) p') /\
            Sim d L1 L2 (runtime (rerender random p' (run random p k)))
                        (runtime (mount (shift d random) p'))).
  { subst L1 L2. rewrite Hre, mount_eq. cbn [props state runtime].
    fold st0. split; [reflexivity|]. split; [reflexivity|].
    assert (Hz : Sim d [] [] {| timeout := timeout rtZ; draws := draws rtZ;
                                log := [] |}
                       {| timeout := None; draws := 0; log := [] |}).
    { constructor; cbn [timeout draws log].
      - subst rtZ. apply revealCleanup_none.
      - reflexivity.
      - now exists []. }
    assert (Hsame : forall r (rt : Runtime),
              timeout (fst (revealEffect r p' st0 rt)) =
                timeout (fst (revealEffect r p' st0
                                {| timeout := timeout rt; draws := draws rt;
                                   log := [] |})) /\
              draws (fst (revealEffect r p' st0 rt)) =
                draws (fst (revealEffect r p' st0
                              {| timeout := timeout rt; draws := draws rt;
                                 log := [] |}))).
    { intros r rt. unfold revealEffect.
      destruct (currentIndex st0 <? String.length (text p'))%nat.
      - destruct (String.get (currentIndex st0) (text p')); [|now split].
        cbn [draws].
        destruct (getTypingSpeed r (speed p') a (currentIndex st0) (text p')
                    (draws rt)). now split.
      - destruct (currentIndex st0 =? String.length (text p'))%nat;
          [|now split].
        cbn [fst]. now rewrite !timeout_call, !draws_call. }
    destruct (Sim_revealEffect random d [] [] p' st0 _ _ Hz) as [_ Hs].
    destruct Hs as [Ht Hd _].
    destruct (Hsame random rtZ) as [Ht1 Hd1].
    constructor; cbn [emit timeout draws log].
    - rewrite Ht1. exact Ht.
    - rewrite Hd1. exact Hd.
    - exists []. now rewrite !app_nil_r. }
  intros j. cbv zeta.
  assert (Hall :
            props (iter j (fire random)
                     (rerender random p' (run random p k))) =
              props (run (shift d random) p' j) /\
            state (iter j (fire random)
                     (rerender random p' (run random p k))) =
              state (run (shift d random) p' j) /\
            Sim d L1 L2
              (runtime (iter j (fire random)
                          (rerender random p' (run random p k))))
              (runtime (run (shift d random) p' j))).
  { unfold run. induction j as [|j IH]; [exact Hstart|].
    cbn [iter]. destruct IH as (IH1 & IH2 & IH3). now apply Sim_fire. }
  destruct Hall as (H1 & H2 & [Ht Hd Hl]).
  split.
  - rewrite H1. destruct (Nat.le_gt_cases j (String.length (text p'))).
    + apply (ty_props _ _ _ _ (Typing_run (shift d random) p' j H)).
    + rewrite run_done by lia.
      apply (ty_props _ _ _ _
               (Typing_run (shift d random) p' _ (Nat.le_refl _))).
  - split; [exact H2|]. split; [exact Ht | exact Hl].
Qed.

Lemma restart_then_fresh_witness :
  exists d,
    forall j,
      props (iter j (fire half)
               (rerender half (demo "xy") (run half (demo "abc") 2)))
      = demo "xy" /\
      state (iter j (fire half)
               (rerender half (demo "xy") (run half (demo "abc") 2)))
      = state (run (shift d half) (demo "xy") j).
Proof.
  destruct (restart_then_fresh half (demo "abc") (demo "xy") 2) as [d Hd];
    [cbn; lia | discriminate |].
  exists d. intros j. destruct (Hd j) as (H1 & H2 & _). now split.
Defined.

End TypewriterMore.

(* ------------------------------------------------------------------ *)
(** ** The chat window: schedule, indicators, rendering, sending *)

Module VoiceChatMore.
Import VoiceChat VoiceChatFacts VoiceChatTerms.

Local Open Scope Z_scope.

#[local] Arguments Nat.div : simpl never.
#[local] Arguments Nat.modulo : simpl never.

Section Runs.

Variable script : list Turn.
Variable t0 : Z.

Lemma rerender_app (k : nat) (w : World) :
  app (rerender script k w) = app w /\
  trace (rerender script k w) = trace w.
Proof.
  unfold rerender. destruct (k =? currentMessageIndex (app w))%nat; [tauto|].
  unfold playbackEffect, playbackCleanup, clearTimeout, setTimeout, setTimeoutId.
  destruct (timeoutId w); cbn [app trace];
    destruct (List.length script <=? currentMessageIndex (app w))%nat;
    cbn [app trace]; try tauto;
    destruct (nth_error script (currentMessageIndex (app w)));
    cbn [app trace]; tauto.
Qed.

Lemma mount_app :
  app (mount script t0) = initialApp /\ trace (mount script t0) = [].
Proof.
  unfold mount, playbackEffect, setTimeout, setTimeoutId.
  destruct script as [|m rest]; cbn; tauto.
Qed.

(** A step that is not a firing leaves the trace and the indicators. *)
Lemma user_step (i : Input) (w : World) :
  isFire i = false ->
  trace (step script i w) = trace w /\
  callStatus (app (step script i w)) = callStatus (app w) /\
  currentSpeaker (app (step script i w)) = currentSpeaker (app w).
Proof.
  destruct i; cbn [isFire step]; try discriminate; intros _.
  - destruct (canWait d w); cbn; tauto.
  - destruct (inputDisabled (app w)); cbn; tauto.
  - destruct (sendDisabled (app w)); [tauto|].
    unfold withApp, handleSendMessage. cbn [app trace].
    destruct (truthy _); cbn; tauto.
  - destruct (inputDisabled (app w)); [tauto|].
    unfold withApp, handleKeyPress, handleSendMessage. cbn [app trace].
    destruct (enter && negb shift)%bool; [|tauto].
    destruct (truthy _); cbn; tauto.
  - cbn. tauto.
Qed.

(** A firing either finds no timer or adds one entry, which holds the
    state the firing leaves. *)
Lemma fire_entry (w : World) :
  fire script w = w \/
  exists e, trace (fire script w) = trace w ++ [e] /\
            e_app e = app (fire script w).
Proof.
  unfold fire. destruct (nextTimer (timers w)) as [t|]; [|now left].
  right. set (w1 := {| app := app w |}).
  destruct (rerender_app (currentMessageIndex (app w))
              (runAction (action t) w1)) as [-> ->].
  destruct (action t) as [k m | k m mid | k m mid | k].
  - rewrite runAction_process. cbv zeta. cbn [trace app]. now eexists.
  - cbn [runAction setTimeout record withApp trace app]. now eexists.
  - cbn [runAction setTimeout record withApp trace app]. now eexists.
  - cbn [runAction record withApp trace app]. now eexists.
Qed.

Lemma indicators_step (i : Input) (w : World) :
  indicators w -> indicators (step script i w).
Proof.
  intros Hw. destruct (isFire i) eqn:Hi.
  - destruct i; try discriminate. cbn [step].
    destruct (fire_entry w) as [-> | (e & Htr & He)]; [exact Hw|].
    unfold indicators. rewrite Htr, length_app. cbn [List.length].
    rewrite Nat.add_1_r. exists e.
    rewrite nth_error_app2, Nat.sub_diag by lia.
    now rewrite He.
  - destruct (user_step i w Hi) as (Htr & Hst & Hsp).
    unfold indicators in *. rewrite Htr, Hst, Hsp. exact Hw.
Qed.

Lemma indicators_run (inputs : list Input) :
  indicators (run script t0 inputs).
Proof.
  unfold run.
  apply (fold_left_preserves indicators (fun w i => step script i w)).
  - intros w i. apply indicators_step.
  - unfold indicators. destruct mount_app as [-> ->]. cbn. tauto.
Qed.

Lemma trace_length_step (i : Input) (w : World) :
  Playing script t0 w ->
  List.length (trace (step script i w)) =
  if isFire i && (List.length (trace w) <? 4 * List.length script)%nat
  then S (List.length (trace w)) else List.length (trace w).
Proof.
  intros Hw. destruct (isFire i) eqn:Hi.
  - destruct i; try discriminate. cbn [step andb].
    exact (proj2 (Playing_fire script t0 w Hw)).
  - cbn [andb]. now destruct (user_step i w Hi) as (-> & _).
Qed.

Lemma trace_length_run (inputs : list Input) :
  List.length (trace (run script t0 inputs)) =
  Nat.min (fires inputs) (4 * List.length script).
Proof.
  induction inputs as [|i inputs IH] using rev_ind.
  - unfold run. cbn [fold_left]. now destruct mount_app as [_ ->].
  - unfold run in *. rewrite fold_left_app. cbn [fold_left].
    rewrite (trace_length_step i) by (apply Playing_run).
    unfold fires in *. rewrite filter_app, length_app. cbn [filter].
    rewrite IH.
    destruct (isFire i); cbn [andb List.length].
    + destruct (Nat.ltb_spec
                  (Nat.min (List.length (filter isFire inputs))
                     (4 * List.length script))
                  (4 * List.length script)); lia.
    + lia.
Qed.

Lemma schedule_entry (tr : list Entry) :
  traceOk script t0 tr ->
  forall i e, nth_error tr i = Some e ->
    e_time e = scheduleTime script t0 i /\
    e_phase e = phaseAt i /\ e_turn e = (i / 4)%nat.
Proof.
  intros Htr i. induction i as [|i IH]; intros e He.
  - destruct (Htr _ _ He) as (Hph & Htu & m & Hm & Ht & _).
    cbn [scheduleTime]. rewrite Hm. cbn [timeBefore] in Ht. tauto.
  - destruct (Htr _ _ He) as (Hph & Htu & m & Hm & Ht & _).
    cbn [scheduleTime]. rewrite Hm. cbn [timeBefore] in Ht.
    destruct (nth_error tr i) as [e'|] eqn:He'.
    + destruct (IH e' eq_refl) as (<- & _). tauto.
    + exfalso. apply nth_error_None in He'.
      assert (nth_error tr (S i) <> None) by congruence.
      apply nth_error_Some in H. lia.
Qed.

End Runs.

(** X8.  The schedule of a playback is fixed by the script and the mount
    time.  In every run (timers firing, time passing, the user typing,
    sending, muting, in any order) the number of transitions made is the
    number of timers fired, up to four a turn, and the [i]-th transition
    is transition [i mod 4] of turn [i / 4], made at the mount time plus
    the waiting times of the transitions up to it.  What the user does
    neither delays nor advances a turn. *)
Theorem playback_schedule (script : list Turn) (t0 : Z) (inputs : list Input) :
  let tr := trace (run script t0 inputs) in
  List.length tr = Nat.min (fires inputs) (4 * List.length script) /\
  forall i e, nth_error tr i = Some e ->
    e_time e = scheduleTime script t0 i /\
    e_phase e = phaseAt i /\ e_turn e = (i / 4)%nat.
Proof.
  cbv zeta. split.
  - apply trace_length_run.
  - apply schedule_entry. apply (pl_trace _ _ _ (Playing_run script t0 inputs)).
Qed.

(** X9.  The status badge and the speaker indicator are those of the last
    transition made, whatever the user did since; so the input field is
    blocked exactly from the pending-reveal transition of a turn of the
    AI to its reveal-start transition, and at no other time. *)
Theorem status_indicator (script : list Turn) (t0 : Z) (inputs : list Input) :
  let w := run script t0 inputs in
  match List.length (trace w) with
  | O => callStatus (app w) = Connected /\ currentSpeaker (app w) = None /\
         inputDisabled (app w) = false
  | S j =>
      exists m,
        nth_error script (j / 4) = Some m /\
        callStatus (app w) = statusAfter (phaseAt j) (t_speaker m) /\
        currentSpeaker (app w) = speakerAfter (phaseAt j) (t_speaker m) /\
        (inputDisabled (app w) = true <->
         phaseAt j = Pending /\ t_speaker m = ai)
  end.
Proof.
  cbv zeta. pose proof (indicators_run script t0 inputs) as Hind.
  pose proof (pl_trace _ _ _ (Playing_run script t0 inputs)) as Htr.
  unfold indicators in Hind.
  destruct (List.length (trace (run script t0 inputs))) as [|j].
  - destruct Hind as [Hst Hsp]. unfold inputDisabled. now rewrite Hst.
  - destruct Hind as (e & He & Hst & Hsp).
    destruct (Htr _ _ He) as (_ & _ & m & Hm & _ & Hst' & Hsp' & _).
    exists m. rewrite Hst, Hsp, Hst', Hsp'.
    split; [exact Hm|]. split; [reflexivity|]. split; [reflexivity|].
    unfold inputDisabled. rewrite Hst, Hst'.
    destruct (phaseAt j), (t_speaker m); cbn; split;
      try discriminate; try tauto; intros [? ?]; discriminate.
Qed.

Lemma scenario_entry :
  exists e,
    nth_error (trace (run scenario 0 [Fire; Change "hi"; ClickSend; Fire])) 1
    = Some e.
Proof. vm_compute. eexists. reflexivity. Qed.

Lemma playback_schedule_witness :
  exists e,
    nth_error (trace (run scenario 0 [Fire; Change "hi"; ClickSend; Fire])) 1
    = Some e /\
    e_time e = 2500 /\ e_phase e = RevealStarted /\ e_turn e = 0%nat.
Proof.
  destruct scenario_entry as [e He]. exists e. split; [exact He|].
  exact (proj2 (playback_schedule scenario 0
                  [Fire; Change "hi"; ClickSend; Fire]) 1%nat e He).
Defined.

(** *** What the steps do to the list of messages *)

Section Messages.

Variable script : list Turn.

(** The message [handleSendMessage] appends. *)
Lemma user_messages (i : Input) (w : World) :
  isFire i = false ->
  messages (app (step script i w)) = messages (app w) \/
  exists m, messages (app (step script i w)) = messages (app w) ++ [m] /\
            isAnimating m = Some false /\ showWaveformFirst m = None /\
            id m = ManualId (now w).
Proof.
  assert (Hsend : forall a t,
            messages (handleSendMessage t a) = messages a \/
            exists m, messages (handleSendMessage t a) = messages a ++ [m] /\
                      isAnimating m = Some false /\
                      showWaveformFirst m = None /\ id m = ManualId t).
  { intros a t. unfold handleSendMessage. destruct (truthy _); [|now left].
    right. eexists. cbn. repeat split. }
  destruct i; cbn [isFire step]; try discriminate; intros _.
  - destruct (canWait d w); now left.
  - destruct (inputDisabled (app w)); now left.
  - destruct (sendDisabled (app w)); [now left|]. apply Hsend.
  - destruct (inputDisabled (app w)); [now left|].
    unfold handleKeyPress. cbn [withApp app].
    destruct (enter && negb shift)%bool; [apply Hsend | now left].
  - now left.
Qed.

Lemma fire_messages (w : World) :
  messages (app (fire script w)) = messages (app w) \/
  (exists sp, messages (app (fire script w)) =
              messages (app w) ++ [waveformMessage
                                     (now (fire script w)) sp]) \/
  (exists mid text s,
     messages (app (fire script w)) =
     messages (updateMessage mid text s (app w))) \/
  (exists mid, messages (app (fire script w)) =
               messages (showMessageContent mid (app w))).
Proof.
  unfold fire. destruct (nextTimer (timers w)) as [t|]; [|now left].
  set (w1 := {| app := app w |}).
  assert (Hnow : forall k w', now (rerender script k w') = now w').
  { intros k w'. unfold rerender.
    destruct (k =? currentMessageIndex (app w'))%nat; [reflexivity|].
    unfold playbackEffect, playbackCleanup, clearTimeout, setTimeout,
      setTimeoutId.
    destruct (timeoutId w'); cbn [app now];
      destruct (List.length script <=? currentMessageIndex (app w'))%nat;
      cbn [now]; try reflexivity;
      destruct (nth_error script (currentMessageIndex (app w')));
      reflexivity. }
  rewrite Hnow.
  destruct (rerender_app script (currentMessageIndex (app w))
              (runAction (action t) w1)) as [-> _].
  destruct (action t) as [k m | k m mid | k m mid | k].
  - right; left. exists (t_speaker m). rewrite runAction_process.
    reflexivity.
  - right; right; left. exists mid, (t_message m), (t_sentiment m).
    reflexivity.
  - right; right; right. exists mid. reflexivity.
  - now left.
Qed.

Lemma key_update (mid : MessageId) (text : string) (s : option Sentiment)
    (a : App) :
  map key (messages (updateMessage mid text s a)) = map key (messages a).
Proof.
  unfold updateMessage. cbn [messages setMessages]. rewrite map_map.
  apply map_ext. intros m. now destruct (MessageId_eqb (id m) mid).
Qed.

Lemma key_show (mid : MessageId) (a : App) :
  map key (messages (showMessageContent mid a)) = map key (messages a).
Proof.
  unfold showMessageContent. cbn [messages setMessages]. rewrite map_map.
  apply map_ext. intros m. now destruct (MessageId_eqb (id m) mid).
Qed.

Lemma key_step (i : Input) (w : World) :
  exists l, map key (messages (app (step script i w))) =
            map key (messages (app w)) ++ l.
Proof.
  destruct (isFire i) eqn:Hi.
  - destruct i; try discriminate. cbn [step].
    destruct (fire_messages w)
      as [-> | [(sp & ->) | [(mid & text & s & ->) | (mid & ->)]]].
    + exists []. now rewrite app_nil_r.
    + eexists. now rewrite map_app.
    + exists []. now rewrite key_update, app_nil_r.
    + exists []. now rewrite key_show, app_nil_r.
  - destruct (user_messages i w Hi) as [-> | (m & -> & _)].
    + exists []. now rewrite app_nil_r.
    + eexists. now rewrite map_app.
Qed.

Lemma still_step (i : Input) (w : World) :
  Forall still (messages (app w)) ->
  Forall still (messages (app (step script i w))).
Proof.
  intros Hw. destruct (isFire i) eqn:Hi.
  - destruct i; try discriminate. cbn [step].
    destruct (fire_messages w)
      as [-> | [(sp & ->) | [(mid & text & s & ->) | (mid & ->)]]].
    + exact Hw.
    + apply Forall_app. split; [exact Hw|]. now constructor.
    + unfold updateMessage. cbn [messages setMessages].
      apply Forall_map. eapply Forall_impl; [|exact Hw].
      intros m Hm. now destruct (MessageId_eqb (id m) mid).
    + unfold showMessageContent. cbn [messages setMessages].
      apply Forall_map. eapply Forall_impl; [|exact Hw].
      intros m Hm. now destruct (MessageId_eqb (id m) mid).
  - destruct (user_messages i w Hi) as [-> | (m & -> & Hm & _)];
      [exact Hw|].
    apply Forall_app. split; [exact Hw|]. constructor; [|constructor].
    unfold still. now rewrite Hm.
Qed.

Lemma still_bubble (m : Message) :
  still m -> isTypewriter (bubble m) = false.
Proof.
  unfold still, bubble. intros ->. cbn [negb]. rewrite andb_true_r.
  destruct (truthy (message m)); cbn [andb orb negb]; [|reflexivity].
  destruct (notFalse (messageVisible m)); [|reflexivity].
  now destruct (flag (messageVisible m)).
Qed.

Lemma still_unmounted (mid : MessageId) (a : App) :
  Forall still (messages a) -> typewriterMounted mid a = false.
Proof.
  unfold typewriterMounted. intros H.
  induction H as [|m l Hm _ IH]; [reflexivity|]. cbn [existsb].
  now rewrite (still_bubble m Hm), andb_false_r, IH.
Qed.

Lemma uiSteps_base (inputs : list UiInput) (w : World) :
  Forall still (messages (app w)) ->
  fold_left (fun w u => uiStep script u w) inputs w =
  fold_left (fun w i => step script i w) (baseInputs inputs) w.
Proof.
  revert w. induction inputs as [|u inputs IH]; intros w Hw; [reflexivity|].
  destruct u as [i | mid | mid]; cbn [fold_left baseInputs uiStep].
  - apply IH. now apply still_step.
  - rewrite (still_unmounted mid _ Hw). now apply IH.
  - rewrite (still_unmounted mid _ Hw). now apply IH.
Qed.

End Messages.

(** X10.  The chat window never mounts a [TypewriterText].  A message is
    rendered through [TypewriterText] only while its [isAnimating] is
    set, and the only place that sets it is the [onStart] callback of
    that very [TypewriterText].  So in every run (the callbacks of
    mounted [TypewriterText] children among the possible events) every
    message text is rendered whole as soon as it is visible, the
    callbacks never run, the waveform of a message is active exactly
    while the message is in its waveform-first phase, and at most one
    waveform is active at a time. *)
Theorem typewriter_never_mounted (script : list Turn) (t0 : Z)
    (inputs : list UiInput) :
  let w := uiRun script t0 inputs in
  w = run script t0 (baseInputs inputs) /\
  Forall (fun m => isTypewriter (bubble m) = false /\
                   isAnimating m <> Some true /\
                   isWaveformActive m = isPendingReveal m)
         (messages (app w)) /\
  (List.length (filter isWaveformActive (messages (app w))) <= 1)%nat.
Proof.
  cbv zeta.
  assert (Hmount : Forall still (messages (app (mount script t0)))).
  { destruct (mount_app script t0) as [-> _]. constructor. }
  assert (Hrun : uiRun script t0 inputs = run script t0 (baseInputs inputs)).
  { unfold uiRun, run. now apply uiSteps_base. }
  rewrite Hrun. split; [reflexivity|].
  assert (Hstill : Forall still
                     (messages (app (run script t0 (baseInputs inputs))))).
  { unfold run.
    apply (fold_left_preserves (fun w => Forall still (messages (app w)))
             (fun w i => step script i w)); [|exact Hmount].
    intros w i. apply still_step. }
  assert (Hwave : forall m, still m -> isWaveformActive m = isPendingReveal m).
  { intros m Hm. unfold isWaveformActive, isPendingReveal.
    unfold still in Hm. rewrite Hm, orb_false_r.
    now destruct (showWaveformFirst m) as [[|]|]. }
  split.
  - eapply Forall_impl; [|exact Hstill]. intros m Hm.
    split; [now apply still_bubble|]. split; [|now apply Hwave].
    unfold still in Hm. intros Han. now rewrite Han in Hm.
  - assert (Hfilter : filter isWaveformActive
                        (messages (app (run script t0 (baseInputs inputs))))
                      = pendingMessages
                          (app (run script t0 (baseInputs inputs)))).
    { unfold pendingMessages.
      induction Hstill as [|m l Hm _ IH]; [reflexivity|]. cbn [filter].
      now rewrite (Hwave m Hm), IH. }
    rewrite Hfilter.
    pose proof (pl_timer _ _ _
                  (Playing_run script t0 (baseInputs inputs))) as Ht.
    destruct (nth_error script _) as [m|].
    + unfold pendingTimer in Ht.
      destruct (phaseAt _).
      * destruct Ht as (i & _ & ->). cbn. lia.
      * destruct Ht as (i & mid & msg & _ & -> & _). cbn. lia.
      * destruct Ht as (i & mid & msg & _ & -> & _). cbn. lia.
      * destruct Ht as (i & _ & ->). cbn. lia.
    + destruct Ht as [_ ->]. cbn. lia.
Qed.

(** X11.  Messages are never removed or reordered, and none changes its
    id, speaker or timestamp: whatever happens after a run, the list of
    messages, by these three fields, keeps what it had as its first
    part. *)
Theorem messages_only_grow (script : list Turn) (t0 : Z)
    (inputs more : list Input) :
  exists l,
    map key (messages (app (run script t0 (inputs ++ more)))) =
    map key (messages (app (run script t0 inputs))) ++ l.
Proof.
  unfold run. rewrite fold_left_app.
  generalize (fold_left (fun w i => step script i w) inputs (mount script t0)).
  induction more as [|i more IH]; intros w.
  - exists []. now rewrite app_nil_r.
  - cbn [fold_left]. destruct (IH (step script i w)) as [l ->].
    destruct (key_step script i w) as [l' ->].
    exists (l' ++ l). now rewrite app_assoc.
Qed.

(** X12.  A submission directly after a submission does nothing: the
    first one, when it is accepted, empties the input, and an empty input
    is rejected; when it is rejected the second one meets the same
    state.  A double click on the send button sends one message. *)
Theorem submit_twice (script : list Turn) (i j : Input) (w : World) :
  isSubmit i -> isSubmit j ->
  step script j (step script i w) = step script i w.
Proof.
  intros Hi Hj.
  rewrite (SendClaims.submit_cases script j _ Hj).
  rewrite (SendClaims.submit_cases script i w Hi).
  destruct (truthy (trim (inputMessage (app w)))
            && negb (isProcessing (callStatus (app w)))) eqn:Hc.
  - unfold withApp, handleSendMessage. cbn [app].
    apply andb_prop in Hc. destruct Hc as [Ht _]. rewrite Ht.
    reflexivity.
  - now rewrite Hc.
Qed.

Lemma submit_twice_witness :
  step scenario ClickSend (step scenario (KeyPress true false)
                             (typed "hello" Connected))
  = step scenario (KeyPress true false) (typed "hello" Connected).
Proof.
  apply (submit_twice scenario (KeyPress true false) ClickSend).
  - right. reflexivity.
  - left. reflexivity.
Defined.

(** *** The transcript *)

Section Transcript.

Variable script : list Turn.
Variable t0 : Z.

Lemma gap_nonneg (ph : Phase) (m : Turn) : 0 <= gap ph m.
Proof.
  pose proof (typingDuration_nonneg m).
  destruct ph; cbn [gap]; try lia. destruct (t_speaker m); cbn; lia.
Qed.

Lemma schedule_step (i : nat) :
  scheduleTime script t0 i <= scheduleTime script t0 (S i).
Proof.
  cbn [scheduleTime].
  destruct (nth_error script (S i / 4)) as [m|]; [|lia].
  pose proof (gap_nonneg (phaseAt (S i)) m). lia.
Qed.

Lemma schedule_mono (i j : nat) :
  (i <= j)%nat -> scheduleTime script t0 i <= scheduleTime script t0 j.
Proof.
  induction 1 as [|j _ IH]; [lia|].
  pose proof (schedule_step j). lia.
Qed.

(** The messages of two turns are created at different times. *)
Lemma schedule_lt (j k : nat) (m : Turn) :
  (j < k)%nat -> nth_error script j = Some m ->
  scheduleTime script t0 (4 * j) < scheduleTime script t0 (4 * k).
Proof.
  intros Hjk Hm.
  assert (H1 : scheduleTime script t0 (S (4 * j)) =
               scheduleTime script t0 (4 * j) + waveformDuration (t_speaker m)).
  { cbn [scheduleTime].
    replace (S (4 * j) / 4)%nat with j by lia. rewrite Hm.
    assert (Hph : phaseAt (S (4 * j)) = RevealStarted).
    { unfold phaseAt. now replace (S (4 * j) mod 4)%nat with 1%nat by lia. }
    now rewrite Hph. }
  pose proof (schedule_mono (S (4 * j)) (4 * k) ltac:(lia)).
  destruct (t_speaker m); cbn [waveformDuration] in H1; lia.
Qed.

Lemma timeBefore_schedule (tr : list Entry) (m : Turn) :
  traceOk script t0 tr ->
  nth_error script (List.length tr / 4) = Some m ->
  timeBefore t0 tr (List.length tr) + gap (phaseAt (List.length tr)) m =
  scheduleTime script t0 (List.length tr).
Proof.
  intros Htr Hm. destruct (List.length tr) as [|j] eqn:Hlen.
  - cbn [scheduleTime timeBefore]. now rewrite Hm.
  - cbn [scheduleTime timeBefore]. rewrite Hm.
    destruct (nth_error tr j) as [e|] eqn:He.
    + now destruct (schedule_entry script t0 tr Htr j e He) as (-> & _).
    + apply nth_error_None in He. lia.
Qed.

(** The timer that is pending in a playback. *)
Lemma pending_timer (w : World) (m : Turn) :
  Playing script t0 w ->
  nth_error script (List.length (trace w) / 4) = Some m ->
  exists t,
    timers w = [t] /\ now w <= due t /\
    due t = scheduleTime script t0 (List.length (trace w)) /\
    match phaseAt (List.length (trace w)) with
    | Pending => action t = ProcessMessage (List.length (trace w) / 4) m
    | RevealStarted =>
        exists mid, action t = RevealStart (List.length (trace w) / 4) m mid
    | ContentVisible =>
        exists mid, action t = ShowContent (List.length (trace w) / 4) m mid
    | Completed => action t = Complete (List.length (trace w) / 4)
    end.
Proof.
  intros [Htr Hidx Hbound Hnow Htimer] Hm.
  rewrite Hm in Htimer. unfold pendingTimer in Htimer.
  pose proof (timeBefore_schedule (trace w) m Htr Hm) as Hs.
  destruct (phaseAt (List.length (trace w))).
  - destruct Htimer as (i & Hti & _). eexists. split; [exact Hti|].
    rewrite Hti in Hnow. inversion Hnow; subst. cbn [due action] in *.
    rewrite <- Hs. repeat split. assumption.
  - destruct Htimer as (i & mid & msg & Hti & _). eexists.
    split; [exact Hti|].
    rewrite Hti in Hnow. inversion Hnow; subst. cbn [due action] in *.
    rewrite <- Hs. repeat split; [assumption | now exists mid].
  - destruct Htimer as (i & mid & msg & Hti & _). eexists.
    split; [exact Hti|].
    rewrite Hti in Hnow. inversion Hnow; subst. cbn [due action] in *.
    rewrite <- Hs. repeat split; [assumption | now exists mid].
  - destruct Htimer as (i & Hti & _). eexists. split; [exact Hti|].
    rewrite Hti in Hnow. inversion Hnow; subst. cbn [due action] in *.
    rewrite <- Hs. repeat split. assumption.
Qed.

Lemma scripted_snoc (a : App) (m : Message) :
  scripted (setMessages (fun prev => prev ++ [m]) a) =
  scripted a ++ (if isScripted m then [m] else []).
Proof. unfold scripted. cbn. now rewrite filter_app. Qed.

Lemma scripted_map (f : Message -> Message) (l : list Message) :
  (forall m, id (f m) = id m) ->
  filter isScripted (map f l) = map f (filter isScripted l).
Proof.
  intros Hf. induction l as [|m l IH]; [reflexivity|]. cbn [map filter].
  assert (Hm : isScripted (f m) = isScripted m)
    by (unfold isScripted; now rewrite Hf).
  rewrite Hm, IH. now destruct (isScripted m).
Qed.

Lemma map_other (f g : Message -> Message) (mid : MessageId)
    (l : list Message) :
  Forall (fun m => MessageId_eqb (id m) mid = false) l ->
  map (fun m => if MessageId_eqb (id m) mid then f m else g m) l = map g l.
Proof.
  induction 1 as [|m l Hm _ IH]; [reflexivity|]. cbn [map].
  now rewrite Hm, IH.
Qed.

Lemma done_ids (k : nat) :
  Forall (fun msg => exists j m, (j < k)%nat /\ nth_error script j = Some m /\
                       id msg = ScriptedId (scheduleTime script t0 (4 * j)))
         (doneMessages script t0 k).
Proof.
  induction k as [|k IH]; [constructor|]. cbn [doneMessages].
  apply Forall_app. split.
  - eapply Forall_impl; [|exact IH].
    intros msg (j & m & Hj & Hm & Hid). exists j, m. repeat split; auto.
  - destruct (nth_error script k) as [m|] eqn:Hm; [|constructor].
    constructor; [|constructor]. exists k, m. repeat split; auto.
Qed.

Lemma done_other (k : nat) (m : Turn) :
  nth_error script k = Some m ->
  Forall (fun msg => MessageId_eqb (id msg)
                       (ScriptedId (scheduleTime script t0 (4 * k))) = false)
         (doneMessages script t0 k).
Proof.
  intros Hk. eapply Forall_impl; [|apply done_ids].
  intros msg (j & mj & Hj & Hmj & ->). cbn [MessageId_eqb].
  apply Z.eqb_neq. pose proof (schedule_lt j k mj Hj Hmj). lia.
Qed.

Lemma map_target (f : Message -> Message) (mid : MessageId)
    (l : list Message) (x : Message) :
  Forall (fun m => MessageId_eqb (id m) mid = false) l ->
  id x = mid ->
  map (fun m => if MessageId_eqb (id m) mid then f m else m) (l ++ [x]) =
  l ++ [f x].
Proof.
  intros Hl Hx. rewrite map_app. cbn [map].
  rewrite Hx, MessageId_eqb_refl. f_equal.
  induction Hl as [|m l Hm _ IH]; [reflexivity|]. cbn [map].
  now rewrite Hm, IH.
Qed.

Lemma user_timers (i : Input) (w : World) :
  isFire i = false -> timers (step script i w) = timers w.
Proof.
  destruct i; cbn [isFire step]; try discriminate; intros _.
  - now destruct (canWait d w).
  - now destruct (inputDisabled (app w)).
  - now destruct (sendDisabled (app w)).
  - now destruct (inputDisabled (app w)).
  - reflexivity.
Qed.

Lemma Scripted_user (i : Input) (w : World) :
  isFire i = false ->
  Scripted script t0 w -> Scripted script t0 (step script i w).
Proof.
  intros Hi [Hpl Hmsg Htgt].
  destruct (user_step script i w Hi) as (Htr & _).
  constructor.
  - apply Playing_step. exact Hpl.
  - rewrite Htr, <- Hmsg. unfold scripted.
    destruct (user_messages script i w Hi) as [-> | (m & -> & _ & _ & Hid)];
      [reflexivity|].
    rewrite filter_app. cbn [filter]. unfold isScripted at 2.
    rewrite Hid. apply app_nil_r.
  - rewrite Htr, (user_timers i w Hi). exact Htgt.
Qed.

Lemma Scripted_mount : Scripted script t0 (mount script t0).
Proof.
  constructor.
  - apply Playing_mount.
  - destruct (mount_app script t0) as [-> ->]. reflexivity.
  - destruct (mount_app script t0) as [_ ->].
    unfold mount, playbackEffect, setTimeout, setTimeoutId.
    destruct script as [|m rest]; cbn; [tauto|].
    intros t mid [<- | []]. discriminate.
Qed.

Lemma Scripted_fire (w : World) :
  Scripted script t0 w -> Scripted script t0 (fire script w).
Proof.
  intros [Hpl Hmsg Htgt].
  destruct (Playing_fire script t0 w Hpl) as [Hpl' Hlen'].
  destruct (nth_error script (List.length (trace w) / 4)) as [m|] eqn:Hm.
  2: { pose proof (pl_timer _ _ _ Hpl) as Ht. rewrite Hm in Ht.
       destruct Ht as [Ht _]. rewrite (fire_no_timer script w Ht).
       now constructor. }
  assert (Hlt : (List.length (trace w) / 4 < List.length script)%nat)
    by (apply nth_error_Some; congruence).
  assert (Hb : (List.length (trace w) <? 4 * List.length script)%nat = true)
    by (apply Nat.ltb_lt; lia).
  rewrite Hb in Hlen'.
  destruct (pending_timer w m Hpl Hm) as (t & Hti & Hnow & Hdue & Hact).
  pose proof (fire_single script w t Hti Hnow) as Hfire.
  pose proof (Htgt t) as Htgt'. rewrite Hti in Htgt'.
  specialize (fun mid => Htgt' mid (or_introl eq_refl)).
  set (n := List.length (trace w)) in *.
  set (k := (n / 4)%nat) in *.
  destruct (phaseAt_cases n)
    as [(Hmod & Hph & _)|[(Hmod & Hph & _)|[(Hmod & Hph & _)|(Hmod & Hph & _)]]];
    rewrite Hph in Hact.
  - (* the waveform message is added *)
    rewrite Hact, runAction_process in Hfire. cbv zeta in Hfire.
    cbn [app now timers nextTid timeoutId trace List.app] in Hfire.
    rewrite rerender_same in Hfire by reflexivity.
    assert (Hk : (4 * k = n)%nat) by lia.
    constructor; [exact Hpl' | |].
    + rewrite Hlen'. rewrite Hfire. cbn [app]. unfold scripted.
      cbn [messages setIsTyping setMessages setCurrentSpeaker setCallStatus].
      rewrite filter_app. fold (scripted (app w)). rewrite Hmsg.
      fold n. unfold transcript. fold k.
      replace (S n / 4)%nat with k by lia.
      replace (S n mod 4)%nat with 1%nat by lia.
      rewrite Hmod, Hm, app_nil_r, Hk, Hdue. reflexivity.
    + intros t' mid Hin Htg. rewrite Hfire in Hin. cbn [timers] in Hin.
      destruct Hin as [<- | []]. cbn [action target] in Htg.
      injection Htg as <-. rewrite Hlen'.
      replace (4 * (S n / 4))%nat with n by lia. now rewrite Hdue.
  - (* the text is put into the message *)
    destruct Hact as [mid Hact].
    assert (Hmid : mid = ScriptedId (scheduleTime script t0 (4 * k))).
    { apply Htgt'. now rewrite Hact. }
    rewrite Hact in Hfire.
    cbn [runAction setTimeout withApp record app now timers nextTid timeoutId
         trace List.app] in Hfire.
    unfold record in Hfire.
    cbn [app now timers nextTid timeoutId trace] in Hfire.
    rewrite rerender_same in Hfire by reflexivity.
    constructor; [exact Hpl' | |].
    + rewrite Hlen'. rewrite Hfire. cbn [app]. unfold scripted, updateMessage.
      cbn [messages setIsTyping setMessages setCurrentSpeaker setCallStatus].
      rewrite scripted_map
        by (intros x; now destruct (MessageId_eqb (id x) mid)).
      fold (scripted (app w)). rewrite Hmsg.
      fold n. unfold transcript. fold k.
      replace (S n / 4)%nat with k by lia.
      replace (S n mod 4)%nat with 2%nat by lia.
      rewrite Hmod, Hm.
      rewrite map_target;
        [reflexivity | rewrite Hmid; now apply (done_other k m) | now rewrite Hmid].
    + intros t' mid' Hin Htg. rewrite Hfire in Hin. cbn [timers] in Hin.
      destruct Hin as [<- | []]. cbn [action target] in Htg.
      injection Htg as <-. rewrite Hlen'.
      now replace (S n / 4)%nat with k by lia.
  - (* the content is shown *)
    destruct Hact as [mid Hact].
    assert (Hmid : mid = ScriptedId (scheduleTime script t0 (4 * k))).
    { apply Htgt'. now rewrite Hact. }
    rewrite Hact in Hfire.
    cbn [runAction setTimeout withApp record app now timers nextTid timeoutId
         trace List.app] in Hfire.
    unfold record in Hfire.
    cbn [app now timers nextTid timeoutId trace] in Hfire.
    rewrite rerender_same in Hfire by reflexivity.
    constructor; [exact Hpl' | |].
    + rewrite Hlen'. rewrite Hfire. cbn [app].
      unfold scripted, showMessageContent. cbn [messages setMessages].
      rewrite scripted_map
        by (intros x; now destruct (MessageId_eqb (id x) mid)).
      fold (scripted (app w)). rewrite Hmsg.
      fold n. unfold transcript. fold k.
      replace (S n / 4)%nat with k by lia.
      replace (S n mod 4)%nat with 3%nat by lia.
      rewrite Hmod, Hm.
      rewrite map_target;
        [reflexivity | rewrite Hmid; now apply (done_other k m) | now rewrite Hmid].
    + intros t' mid' Hin Htg. rewrite Hfire in Hin. cbn [timers] in Hin.
      destruct Hin as [<- | []]. discriminate.
  - (* the turn is completed *)
    rewrite Hact in Hfire.
    destruct (rerender_app script (currentMessageIndex (app w))
                (runAction (Complete k)
                   {| app := app w; now := due t; timers := [];
                      nextTid := nextTid w; timeoutId := timeoutId w;
                      trace := trace w |})) as [Happ _].
    rewrite <- Hfire in Happ.
    constructor; [exact Hpl' | |].
    + rewrite Hlen', Happ.
      cbn [runAction record withApp app]. unfold scripted.
      cbn [messages setCurrentMessageIndex setCurrentSpeaker setCallStatus].
      fold (scripted (app w)). rewrite Hmsg.
      fold n. unfold transcript. fold k.
      replace (S n / 4)%nat with (S k) by lia.
      replace (S n mod 4)%nat with 0%nat by lia.
      rewrite Hmod, Hm. cbn [doneMessages]. rewrite Hm.
      now rewrite app_nil_r.
    + pose proof (pl_timer _ _ _ Hpl') as Ht'. rewrite Hlen' in Ht'.
      intros t' mid' Hin Htg.
      destruct (nth_error script (S n / 4)) as [m'|].
      * unfold pendingTimer in Ht'. rewrite ?Hlen' in Ht'.
        assert (Hph' : phaseAt (S n) = Pending).
        { unfold phaseAt. now replace (S n mod 4)%nat with 0%nat by lia. }
        rewrite Hph' in Ht'. destruct Ht' as (i & Hti' & _).
        rewrite Hti' in Hin. destruct Hin as [<- | []]. discriminate.
      * destruct Ht' as [Hti' _]. rewrite Hti' in Hin. destruct Hin.
Qed.

Lemma Scripted_run (inputs : list Input) :
  Scripted script t0 (run script t0 inputs).
Proof.
  unfold run.
  apply (fold_left_preserves (Scripted script t0)
           (fun w i => step script i w)); [|apply Scripted_mount].
  intros w i Hw. destruct (isFire i) eqn:Hi.
  - destruct i; try discriminate. now apply Scripted_fire.
  - now apply Scripted_user.
Qed.

Lemma done_shown (k : nat) :
  map messageShown (doneMessages script t0 k) =
  map turnShown (firstn k script).
Proof.
  induction k as [|k IH]; [reflexivity|]. cbn [doneMessages].
  rewrite map_app, IH.
  destruct (nth_error script k) as [m|] eqn:Hm.
  - rewrite (SentimentMore.firstn_S_nth script k m Hm), map_app. reflexivity.
  - apply nth_error_None in Hm.
    rewrite !firstn_all2 by lia. now rewrite app_nil_r.
Qed.

Lemma done_length (k : nat) :
  (k <= List.length script)%nat ->
  List.length (doneMessages script t0 k) = k.
Proof.
  induction k as [|k IH]; intros Hk; [reflexivity|]. cbn [doneMessages].
  rewrite length_app, IH by lia.
  destruct (nth_error script k) eqn:Hm; [cbn; lia|].
  apply nth_error_None in Hm. lia.
Qed.

Lemma done_nth (k j : nat) (m : Turn) :
  (k <= List.length script)%nat -> (j < k)%nat ->
  nth_error script j = Some m ->
  nth_error (doneMessages script t0 k) j =
  Some (scriptedMessage m (scheduleTime script t0 (4 * j)) 4).
Proof.
  induction k as [|k IH]; intros Hk Hj Hm; [lia|]. cbn [doneMessages].
  destruct (Nat.eq_dec j k) as [-> | Hne].
  - rewrite nth_error_app2 by (rewrite done_length; lia).
    rewrite done_length, Nat.sub_diag, Hm by lia. reflexivity.
  - rewrite nth_error_app1 by (rewrite done_length; lia).
    apply IH; [lia | lia | exact Hm].
Qed.

Lemma bubble_done (m : Turn) (t : Z) :
  bubble (scriptedMessage m t 4) =
  Some (if truthy (t_message m) then PlainText (t_message m) else TypingDots).
Proof.
  unfold bubble. cbn [scriptedMessage message messageVisible isAnimating
                      Nat.leb notFalse flag andb negb].
  now destruct (truthy (t_message m)).
Qed.

End Transcript.

(** X13.  The scripted part of the transcript.  In every run the messages
    the playback has put into the list are, in the order of the script,
    those of the turns that are through followed by that of the turn
    under way in the state its last transition left it in; what the user
    sends in between changes none of them.  The message of a turn that
    is through carries the turn's speaker, text and sentiment and shows
    the whole text (the typing dots if the text is empty); when every
    timer of the script has fired, the scripted messages are the script. *)
Theorem scripted_transcript (script : list Turn) (t0 : Z)
    (inputs : list Input) :
  let w := run script t0 inputs in
  scripted (app w) = transcript script t0 (List.length (trace w)) /\
  (forall j m,
     nth_error script j = Some m ->
     (4 * (j + 1) <= List.length (trace w))%nat ->
     exists msg,
       nth_error (scripted (app w)) j = Some msg /\
       messageShown msg = turnShown m /\
       bubble msg =
         Some (if truthy (t_message m) then PlainText (t_message m)
               else TypingDots)) /\
  ((4 * List.length script <= fires inputs)%nat ->
   map messageShown (scripted (app w)) = map turnShown script).
Proof.
  cbv zeta.
  pose proof (sc_messages _ _ _ (Scripted_run script t0 inputs)) as Hmsg.
  pose proof (pl_bound _ _ _ (Playing_run script t0 inputs)) as Hbound.
  split; [exact Hmsg|]. rewrite Hmsg. split.
  - intros j m Hm Hj.
    exists (scriptedMessage m (scheduleTime script t0 (4 * j)) 4).
    split; [|split; [reflexivity | apply bubble_done]].
    unfold transcript.
    rewrite nth_error_app1 by (rewrite done_length; lia).
    apply done_nth; [lia | lia | exact Hm].
  - intros Hf.
    rewrite (trace_length_run script t0 inputs).
    replace (Nat.min (fires inputs) (4 * List.length script))
      with (4 * List.length script)%nat by lia.
    unfold transcript.
    replace (4 * List.length script / 4)%nat with (List.length script) by lia.
    replace (4 * List.length script mod 4)%nat with 0%nat by lia.
    rewrite app_nil_r, done_shown. now rewrite firstn_all.
Qed.

Lemma scenario_played :
  (4 * (0 + 1) <=
   List.length (trace (run scenario 0
                         [Fire; Fire; Change "hi"; ClickSend; Fire; Fire])))%nat.
Proof. vm_compute. lia. Qed.

Lemma scripted_transcript_witness :
  exists msg,
    nth_error
      (scripted (app (run scenario 0
                        [Fire; Fire; Change "hi"; ClickSend; Fire; Fire]))) 0
    = Some msg /\
    messageShown msg = (ai, "Hi"%string, None) /\
    bubble msg = Some (PlainText "Hi").
Proof.
  exact (proj1 (proj2 (scripted_transcript scenario 0
                         [Fire; Fire; Change "hi"; ClickSend; Fire; Fire]))
           0%nat _ eq_refl scenario_played).
Defined.

(** *** The mute button *)

Section Mute.

Variable script : list Turn.

Lemma rerender_unmuted (k : nat) (w : World) :
  rerender script k (unmuted w) = unmuted (rerender script k w).
Proof.
  unfold rerender. cbn [unmuted app setIsMuted currentMessageIndex].
  destruct (k =? currentMessageIndex (app w))%nat; [reflexivity|].
  unfold playbackEffect, playbackCleanup, clearTimeout, setTimeout,
    setTimeoutId.
  cbn [unmuted app setIsMuted currentMessageIndex timeoutId].
  destruct (timeoutId w);
    cbn [unmuted app setIsMuted currentMessageIndex timeoutId timers now
         nextTid trace];
    destruct (List.length script <=? currentMessageIndex (app w))%nat;
    try reflexivity;
    destruct (nth_error script (currentMessageIndex (app w)));
    reflexivity.
Qed.

Lemma runAction_unmuted (act : Action) (w : World) :
  runAction act (unmuted w) = unmuted (runAction act w).
Proof.
  destruct act as [k m | k m mid | k m mid | k].
  - rewrite !runAction_process. cbv zeta. unfold unmuted.
    cbn [app now timers nextTid timeoutId trace]. rewrite map_app.
    reflexivity.
  - cbn [runAction setTimeout withApp record]. unfold record, unmuted.
    cbn [app now timers nextTid timeoutId trace]. rewrite map_app.
    reflexivity.
  - cbn [runAction setTimeout withApp record]. unfold record, unmuted.
    cbn [app now timers nextTid timeoutId trace]. rewrite map_app.
    reflexivity.
  - cbn [runAction withApp record]. unfold record, unmuted.
    cbn [app now timers nextTid timeoutId trace]. rewrite map_app.
    reflexivity.
Qed.

Lemma handleSendMessage_unmuted (t : Z) (a : App) :
  handleSendMessage t (setIsMuted false a) =
  setIsMuted false (handleSendMessage t a).
Proof.
  unfold handleSendMessage. cbn [setIsMuted inputMessage].
  now destruct (truthy (trim (inputMessage a))).
Qed.

(** Every step but the mute button does the same with and without the
    flag. *)
Lemma step_unmuted (i : Input) (w : World) :
  isToggle i = false ->
  step script i (unmuted w) = unmuted (step script i w).
Proof.
  destruct i; cbn [isToggle step]; try discriminate; intros _.
  - unfold fire. cbn [unmuted timers].
    destruct (nextTimer (timers w)) as [t|]; [|reflexivity].
    rewrite <- rerender_unmuted, <- runAction_unmuted. reflexivity.
  - unfold canWait. cbn [unmuted timers now].
    now destruct (_ && _)%bool.
  - unfold inputDisabled. cbn [unmuted app setIsMuted callStatus].
    now destruct (isProcessing (callStatus (app w))).
  - unfold sendDisabled. cbn [unmuted app setIsMuted callStatus inputMessage].
    destruct (_ || _)%bool; [reflexivity|].
    unfold withApp. cbn [unmuted app now timers nextTid timeoutId trace].
    now rewrite handleSendMessage_unmuted.
  - unfold inputDisabled. cbn [unmuted app setIsMuted callStatus].
    destruct (isProcessing (callStatus (app w))); [reflexivity|].
    unfold withApp, handleKeyPress.
    cbn [unmuted app now timers nextTid timeoutId trace].
    destruct (enter && negb shift)%bool; [|reflexivity].
    now rewrite handleSendMessage_unmuted.
Qed.

Lemma steps_unmuted (inputs : list Input) (w w' : World) :
  unmuted w = unmuted w' ->
  unmuted (fold_left (fun w i => step script i w) inputs w) =
  unmuted (fold_left (fun w i => step script i w)
             (filter (fun i => negb (isToggle i)) inputs) w').
Proof.
  revert w w'. induction inputs as [|i inputs IH]; intros w w' Hw;
    [exact Hw|].
  cbn [fold_left filter]. destruct (isToggle i) eqn:Hi; cbn [negb].
  - apply IH. rewrite <- Hw. destruct i; try discriminate. reflexivity.
  - cbn [fold_left]. apply IH.
    now rewrite <- !(step_unmuted i) by exact Hi; rewrite Hw.
Qed.

Lemma isMuted_fire (w : World) :
  isMuted (app (fire script w)) = isMuted (app w).
Proof.
  unfold fire. destruct (nextTimer (timers w)) as [t|]; [|reflexivity].
  set (w1 := {| app := app w |}).
  destruct (rerender_app script (currentMessageIndex (app w))
              (runAction (action t) w1)) as [-> _].
  destruct (action t) as [k m | k m mid | k m mid | k];
    [rewrite runAction_process | | |]; reflexivity.
Qed.

Lemma isMuted_step (i : Input) (w : World) :
  isMuted (app (step script i w)) =
  xorb (isToggle i) (isMuted (app w)).
Proof.
  destruct i; cbn [isToggle step xorb].
  - apply isMuted_fire.
  - now destruct (canWait d w).
  - now destruct (inputDisabled (app w)).
  - destruct (sendDisabled (app w)); [reflexivity|].
    unfold withApp, handleSendMessage. cbn [app]. now destruct (truthy _).
  - destruct (inputDisabled (app w)); [reflexivity|].
    unfold withApp, handleKeyPress, handleSendMessage. cbn [app].
    destruct (enter && negb shift)%bool; [|reflexivity].
    now destruct (truthy _).
  - reflexivity.
Qed.

Lemma isMuted_steps (inputs : list Input) (w : World) :
  isMuted (app (fold_left (fun w i => step script i w) inputs w)) =
  xorb (Nat.odd (List.length (filter isToggle inputs))) (isMuted (app w)).
Proof.
  revert w. induction inputs as [|i inputs IH]; intros w; [reflexivity|].
  cbn [fold_left filter]. rewrite IH, isMuted_step.
  destruct (isToggle i); cbn [List.length xorb]; [|reflexivity].
  rewrite Nat.odd_succ, <- Nat.negb_odd.
  now destruct (Nat.odd _), (isMuted (app w)).
Qed.

End Mute.

(** X14.  The mute button changes the mute flag and nothing else.  A run
    and the same run with the clicks on the mute button left out agree
    on everything (messages, status, index, input, clock, timers, trace)
    but the flag, and the flag is set exactly when the number of clicks
    is odd. *)
Theorem mute_only_flag (script : list Turn) (t0 : Z) (inputs : list Input) :
  unmuted (run script t0 inputs) =
  unmuted (run script t0 (filter (fun i => negb (isToggle i)) inputs)) /\
  isMuted (app (run script t0 inputs)) =
  Nat.odd (List.length (filter isToggle inputs)).
Proof.
  unfold run. split.
  - now apply steps_unmuted.
  - rewrite isMuted_steps. destruct (mount_app script t0) as [-> _].
    cbn [initialApp isMuted]. now destruct (Nat.odd _).
Qed.

(** *** The text that is sent *)

Lemma trimStart_split (s : string) :
  exists pre, s = (pre ++ trimStart s)%string /\ whitespaceOnly pre.
Proof.
  induction s as [|c s (pre & IH & Hpre)]; cbn [trimStart].
  - exists EmptyString. split; [reflexivity | constructor].
  - destruct (isWhiteSpace c) eqn:Hc.
    + exists (String c pre). split; [cbn; now rewrite <- IH|].
      now constructor.
    + exists EmptyString. split; [reflexivity | constructor].
Qed.

Lemma trimStart_head (s : string) (c : ascii) (r : string) :
  trimStart s = String c r -> isWhiteSpace c = false.
Proof.
  induction s as [|a s IH]; cbn [trimStart]; [discriminate|].
  destruct (isWhiteSpace a) eqn:Ha; [exact IH|].
  intros H. injection H as <- _. exact Ha.
Qed.

Lemma trimEnd_split (s : string) :
  exists post, s = (trimEnd s ++ post)%string /\ whitespaceOnly post.
Proof.
  induction s as [|c s (post & IH & Hpost)]; cbn [trimEnd].
  - exists EmptyString. split; [reflexivity | constructor].
  - destruct (isWhiteSpace c) eqn:Hc; cbn [andb].
    + destruct (String.eqb_spec (trimEnd s) EmptyString) as [He | Hne].
      * exists (String c s). split; [reflexivity|].
        rewrite He in IH. cbn in IH. subst s. now constructor.
      * exists post. split; [cbn; now rewrite <- IH | exact Hpost].
    + exists post. split; [cbn; now rewrite <- IH | exact Hpost].
Qed.

Lemma trimEnd_head (s : string) (c : ascii) (r : string) :
  trimEnd s = String c r -> exists r', s = String c r'.
Proof.
  destruct s as [|a s]; cbn [trimEnd]; [discriminate|].
  destruct (isWhiteSpace a && String.eqb (trimEnd s) EmptyString)%bool;
    [discriminate|].
  intros H. injection H as <- _. now exists s.
Qed.

Lemma trimEnd_last (s : string) (c : ascii) (r : list ascii) :
  chars (trimEnd s) = r ++ [c] -> isWhiteSpace c = false.
Proof.
  revert r. induction s as [|a s IH]; intros r; cbn [trimEnd].
  - now destruct r.
  - destruct (String.eqb_spec (trimEnd s) EmptyString) as [He | Hne].
    + rewrite He. rewrite andb_true_r.
      destruct (isWhiteSpace a) eqn:Ha; [now destruct r|].
      destruct r as [|x [|y r]]; cbn; intros H; try discriminate.
      now injection H as <-.
    + rewrite andb_false_r. unfold chars in *. cbn [list_ascii_of_string].
      destruct r as [|x r]; cbn [List.app].
      * intros H. injection H as _ H. destruct (trimEnd s); [congruence|].
        discriminate.
      * intros H. injection H as _ H. now apply (IH r).
Qed.

(** X15.  What an accepted submission stores.  The input is some white
    space, then the text of the new message, then some white space; the
    text is not empty and neither begins nor ends with a white-space
    character; the input field is emptied. *)
Theorem sent_text (t : Z) (a : App) :
  truthy (trim (inputMessage a)) = true ->
  exists m pre post,
    messages (handleSendMessage t a) = messages a ++ [m] /\
    inputMessage (handleSendMessage t a) = EmptyString /\
    inputMessage a = (pre ++ message m ++ post)%string /\
    whitespaceOnly pre /\ whitespaceOnly post /\
    message m <> EmptyString /\
    (forall c r, chars (message m) = c :: r -> isWhiteSpace c = false) /\
    (forall c r, chars (message m) = r ++ [c] -> isWhiteSpace c = false).
Proof.
  intros Ht. unfold handleSendMessage. rewrite Ht.
  destruct (trimStart_split (inputMessage a)) as (pre & Hpre & Hwpre).
  destruct (trimEnd_split (trimStart (inputMessage a)))
    as (post & Hpost & Hwpost).
  eexists. exists pre, post.
  cbn [messages inputMessage setInputMessage setMessages].
  split; [reflexivity|]. cbn [message]. split; [reflexivity|].
  split; [unfold trim; now rewrite <- Hpost|].
  split; [exact Hwpre|]. split; [exact Hwpost|].
  split; [|split].
  - unfold truthy in Ht. apply negb_true_iff in Ht.
    now apply String.eqb_neq in Ht.
  - intros c r Hc. unfold trim, chars in Hc.
    destruct (trimEnd (trimStart (inputMessage a))) as [|c' r'] eqn:He;
      [discriminate|].
    cbn in Hc. injection Hc as -> _.
    destruct (trimEnd_head _ _ _ He) as [r'' Hs].
    now apply (trimStart_head _ _ _ Hs).
  - intros c r. apply trimEnd_last.
Qed.

Lemma sent_text_witness :
  exists m pre post,
    messages (handleSendMessage 7 (app (typed "  hello world " Connected)))
    = [m] /\
    inputMessage (handleSendMessage 7 (app (typed "  hello world " Connected)))
    = EmptyString /\
    "  hello world "%string = (pre ++ message m ++ post)%string /\
    whitespaceOnly pre /\ whitespaceOnly post /\
    message m <> EmptyString /\
    (forall c r, chars (message m) = c :: r -> isWhiteSpace c = false) /\
    (forall c r, chars (message m) = r ++ [c] -> isWhiteSpace c = false).
Proof.
  exact (sent_text 7 (app (typed "  hello world " Connected)) eq_refl).
Defined.

End VoiceChatMore.

(* ------------------------------------------------------------------ *)
(** ** The waveform of a message *)

Module VoiceAnimationFacts.
Import VoiceAnimation.

Local Open Scope Q_scope.

Section Bars.

Variable random : nat -> Q.

Lemma bar_clamped (sp : Speaker) (prev : list Q) (n index : nat) :
  2 <= bar random sp prev n index /\ bar random sp prev n index <= 12.
Proof.
  unfold bar. cbv zeta. split.
  - apply Q.min_glb; [lra | apply Q.le_max_l].
  - apply Q.le_min_l.
Qed.

Lemma tick_length (st : State) :
  List.length (waveformBars (tick random st)) = List.length (waveformBars st).
Proof.
  unfold tick. destruct (interval st); [|reflexivity].
  cbn [waveformBars]. now rewrite length_map, length_seq.
Qed.

Lemma ones_range :
  Forall (fun h => 1 <= h /\ h <= 12) [1; 1; 1; 1; 1; 1; 1].
Proof. repeat (constructor; [split; lra|]). constructor. Qed.

Lemma Shaped_effect (p : Props) (st : State) :
  List.length (waveformBars st) = 7%nat ->
  Forall (fun h => 1 <= h /\ h <= 12) (waveformBars st) ->
  Shaped {| props := p; state := effect p st |}.
Proof.
  intros Hlen Hrange. destruct p as [[|] sp]; unfold effect;
    cbn [isActive negb]; constructor;
    cbn [props state waveformBars interval isActive speaker].
  - exact Hlen.
  - exact Hrange.
  - reflexivity.
  - discriminate.
  - reflexivity.
  - exact ones_range.
  - reflexivity.
  - reflexivity.
Qed.

Lemma Shaped_mount (p : Props) : Shaped (mount p).
Proof.
  unfold mount. apply Shaped_effect; cbn [waveformBars]; [reflexivity|].
  repeat (constructor; [split; lra|]). constructor.
Qed.

Lemma Shaped_step (e : Event) (i : Instance) :
  Shaped i -> Shaped (step random e i).
Proof.
  intros [Hlen Hrange Hint Hidle]. destruct e as [|p]; cbn [step].
  - constructor; cbn [props state].
    + now rewrite tick_length.
    + unfold tick. destruct (interval (state i)) as [sp|]; [|exact Hrange].
      cbn [waveformBars]. apply Forall_forall. intros h Hh.
      apply in_map_iff in Hh. destruct Hh as (index & <- & _).
      destruct (bar_clamped sp (waveformBars (state i))
                  (draws (state i) + index) index). split; lra.
    + unfold tick. rewrite Hint. now destruct (isActive (props i)).
    + intros Hoff. unfold tick. rewrite Hint, Hoff. now apply Hidle.
  - unfold rerender.
    destruct (Bool.eqb (isActive (props i)) (isActive p)
              && Speaker_eqb (speaker (props i)) (speaker p))%bool eqn:Hdeps.
    + apply andb_prop in Hdeps. destruct Hdeps as [Ha Hs].
      apply Bool.eqb_prop in Ha.
      assert (Hsp : speaker (props i) = speaker p)
        by (destruct (speaker (props i)), (speaker p);
            cbn in Hs; congruence).
      constructor; cbn [props state]; rewrite <- ?Ha, <- ?Hsp; assumption.
    + apply Shaped_effect; assumption.
Qed.

Lemma Shaped_run (p : Props) (events : list Event) :
  Shaped (run random p events).
Proof.
  unfold run.
  apply (fold_left_preserves Shaped (fun i e => step random e i)).
  - intros i e. apply Shaped_step.
  - apply Shaped_mount.
Qed.

Lemma nth_nonneg (l : list Q) (k : nat) :
  Forall (fun h => 1 <= h /\ h <= 12) l -> 0 <= nth k l 0.
Proof.
  intros Hl. revert k. induction Hl as [|h l [Hh _] _ IH]; intros k.
  - destruct k; cbn; lra.
  - destruct k; cbn; [lra | apply IH].
Qed.

Lemma floor_range (r : Q) :
  0 <= r -> r < 1 -> (0 <= Qfloor (r * 8) <= 7)%Z.
Proof.
  intros H0 H1. split.
  - change 0%Z with (Qfloor 0). apply Qfloor_resp_le. lra.
  - assert (H : inject_Z (Qfloor (r * 8)) < inject_Z 8).
    { eapply Qle_lt_trans; [apply Qfloor_le|]. change (inject_Z 8) with 8. lra. }
    rewrite <- Zlt_Qlt in H. lia.
Qed.

End Bars.

(** X16.  The bars of a [VoiceAnimation], whatever the parent renders and
    however often the interval fires: there are seven of them, each
    between 1 and 12; the interval is set exactly while [isActive] holds
    and its callback works with the [speaker] of the current props; while
    [isActive] does not hold the bars are seven times 1 and stay so. *)
Theorem bars_shaped (random : nat -> Q) (p : Props) (events : list Event) :
  let i := run random p events in
  List.length (waveformBars (state i)) = 7%nat /\
  Forall (fun h => 1 <= h /\ h <= 12) (waveformBars (state i)) /\
  interval (state i) =
    (if isActive (props i) then Some (speaker (props i)) else None) /\
  (isActive (props i) = false ->
   waveformBars (state i) = [1; 1; 1; 1; 1; 1; 1] /\
   step random Tick i = i).
Proof.
  cbv zeta. destruct (Shaped_run random p events) as [Hlen Hrange Hint Hidle].
  repeat split; try assumption.
  - now apply Hidle.
  - cbn [step]. unfold tick. rewrite Hint, H.
    now destruct (run random p events).
Qed.

Lemma bars_shaped_witness :
  waveformBars
    (state (run (fun _ => 0.5)
              {| isActive := true; speaker := VoiceChat.ai |}
              [Tick; Render {| isActive := false; speaker := VoiceChat.ai |};
               Tick]))
  = [1; 1; 1; 1; 1; 1; 1].
Proof.
  apply (bars_shaped (fun _ => 0.5)
           {| isActive := true; speaker := VoiceChat.ai |}
           [Tick; Render {| isActive := false; speaker := VoiceChat.ai |};
            Tick]).
  reflexivity.
Defined.

(** X17.  One firing of the interval of an active [VoiceAnimation], with
    [Math.random()] in [0, 1): every bar is then between the base
    intensity of the speaker (3 for the AI, 4 for the customer) and 12,
    the first bar is a whole number between the base intensity and seven
    more, so never above 11, and seven random numbers were drawn. *)
Theorem tick_heights (random : nat -> Q) (p : Props) (events : list Event) :
  (forall n, 0 <= random n /\ random n < 1) ->
  let before := run random p events in
  let after := step random Tick before in
  isActive (props before) = true ->
  Forall (fun h => baseIntensity (speaker (props before)) <= h /\ h <= 12)
         (waveformBars (state after)) /\
  (exists v : Z,
     (0 <= v <= 7)%Z /\
     hd 0 (waveformBars (state after)) ==
       inject_Z v + baseIntensity (speaker (props before))) /\
  draws (state after) = (draws (state before) + 7)%nat.
Proof.
  intros Hr. cbv zeta. intros Hact.
  destruct (Shaped_run random p events) as [Hlen Hrange Hint _].
  rewrite Hact in Hint. cbn [step state]. unfold tick. rewrite Hint.
  cbn [waveformBars draws]. rewrite Hlen.
  set (st := state (run random p events)) in *.
  set (sp := speaker (props (run random p events))) in *.
  assert (Hbase : 3 <= baseIntensity sp /\ baseIntensity sp <= 4)
    by (destruct sp; cbn; split; lra).
  split; [|split; [|reflexivity]].
  - apply Forall_forall. intros h Hh.
    apply in_map_iff in Hh. destruct Hh as (index & <- & _).
    split; [|apply bar_clamped].
    unfold bar. cbv zeta.
    destruct (Hr (draws st + index)%nat) as [H0 H1].
    pose proof (floor_range _ H0 H1) as [Hf _].
    assert (Hf' : 0 <= inject_Z (Qfloor (random (draws st + index)%nat * 8))).
    { change 0 with (inject_Z 0). now rewrite <- Zle_Qle. }
    assert (Hn : 0 <= (if (0 <? index)%nat
                       then nth (index - 1) (waveformBars st) 0 * 0.3
                       else 0)).
    { destruct (0 <? index)%nat; [|lra].
      pose proof (nth_nonneg (waveformBars st) (index - 1) Hrange). lra. }
    apply Q.min_glb; [lra|].
    eapply Qle_trans; [|apply Q.le_max_r]. lra.
  - cbn [seq map hd]. unfold bar. cbv zeta. cbn [Nat.ltb Nat.leb].
    destruct (Hr (draws st + 0)%nat) as [H0 H1].
    pose proof (floor_range _ H0 H1) as [Hf1 Hf2].
    exists (Qfloor (random (draws st + 0)%nat * 8)). split; [lia|].
    set (v := inject_Z (Qfloor (random (draws st + 0)%nat * 8))).
    assert (Hv : 0 <= v /\ v <= 7).
    { subst v. split.
      - change 0 with (inject_Z 0). now rewrite <- Zle_Qle.
      - change 7 with (inject_Z 7). now rewrite <- Zle_Qle. }
    rewrite Q.max_r by lra. rewrite Q.min_r by lra. lra.
Qed.

Lemma tick_heights_witness :
  Forall (fun h => 3 <= h /\ h <= 12)
    (waveformBars
       (state (step (fun _ => 0.5) Tick
                 (run (fun _ => 0.5)
                    {| isActive := true; speaker := VoiceChat.ai |} [Tick])))).
Proof.
  apply (tick_heights (fun _ => 0.5)
           {| isActive := true; speaker := VoiceChat.ai |} [Tick]).
  - intros n. split; lra.
  - reflexivity.
Defined.

End VoiceAnimationFacts.

(* ------------------------------------------------------------------ *)
(** ** The filter of the post-call table *)

Module SentimentTableFacts.
Import SentimentTable.

Lemma append_assoc3 (a b c : string) :
  ((a ++ b) ++ c)%string = (a ++ b ++ c)%string.
Proof. induction a as [|x a IH]; cbn; [reflexivity | now rewrite IH]. Qed.

Lemma lower_append (a b : string) :
  lower (a ++ b) = (lower a ++ lower b)%string.
Proof. induction a as [|x a IH]; cbn; [reflexivity | now rewrite IH]. Qed.

Lemma prefix_empty (s : string) : String.prefix "" s = true.
Proof. now destruct s. Qed.

Lemma prefix_split (sub s : string) :
  String.prefix sub s = true <-> exists b, s = (sub ++ b)%string.
Proof.
  revert s. induction sub as [|x sub IH]; intros s.
  - rewrite prefix_empty. split; [intros _; now exists s | reflexivity].
  - destruct s as [|y s]; cbn [String.prefix].
    + split; [discriminate | intros [b Hb]; discriminate].
    + destruct (ascii_dec x y) as [-> | Hne].
      * rewrite IH. split; intros [b Hb]; exists b; cbn in *; congruence.
      * split; [discriminate|]. intros [b Hb]. cbn in Hb. congruence.
Qed.

Lemma stringIncludes_unfold (s sub : string) :
  stringIncludes s sub =
  if String.prefix sub s then true
  else match s with
       | EmptyString => false
       | String _ rest => stringIncludes rest sub
       end.
Proof. now destruct s. Qed.

(** [s.includes(sub)]: [sub] is a part of [s]. *)
Lemma stringIncludes_split (s sub : string) :
  stringIncludes s sub = true <->
  exists a b, s = (a ++ sub ++ b)%string.
Proof.
  split.
  - induction s as [|c s IH]; rewrite stringIncludes_unfold;
      destruct (String.prefix sub _) eqn:Hp.
    + intros _. apply prefix_split in Hp. destruct Hp as [b Hb].
      now exists EmptyString, b.
    + discriminate.
    + intros _. apply prefix_split in Hp. destruct Hp as [b Hb].
      now exists EmptyString, b.
    + intros H. destruct (IH H) as (a & b & ->). now exists (String c a), b.
  - intros (a & b & ->). induction a as [|c a IH];
      rewrite stringIncludes_unfold.
    + assert (Hp : String.prefix sub ("" ++ sub ++ b) = true)
        by (apply prefix_split; now exists b).
      now rewrite Hp.
    + destruct (String.prefix sub _); [reflexivity | exact IH].
Qed.

Lemma stringIncludes_part (s pre t post : string) :
  stringIncludes s (pre ++ t ++ post) = true -> stringIncludes s t = true.
Proof.
  rewrite !stringIncludes_split. intros (a & b & ->).
  exists (a ++ pre)%string, (post ++ b)%string.
  now rewrite !append_assoc3.
Qed.

Lemma matchesSearch_part (pre t post : string) (call : SentimentCall) :
  matchesSearch (pre ++ t ++ post) call = true ->
  matchesSearch t call = true.
Proof.
  unfold matchesSearch. rewrite !lower_append.
  intros H. apply orb_true_iff in H. apply orb_true_iff.
  destruct H as [H | H].
  - left. now apply (stringIncludes_part _ (lower pre) _ (lower post)).
  - right. apply existsb_exists in H. destruct H as (e & He & H).
    apply existsb_exists. exists e. split; [exact He|].
    now apply (stringIncludes_part _ (lower pre) _ (lower post)).
Qed.

Lemma sentimentName_eqb (a b : Sentiment) :
  String.eqb (sentimentName a) (sentimentName b) = Sentiment_eqb a b.
Proof. now destruct a, b. Qed.

Lemma sentimentName_all (s : Sentiment) :
  String.eqb (sentimentName s) "all" = false.
Proof. now destruct s. Qed.

Lemma matchesFilter_name (s : Sentiment) (c : SentimentCall) :
  matchesFilter (sentimentName s) c = ofSentiment s c.
Proof.
  unfold matchesFilter, ofSentiment.
  now rewrite sentimentName_all, sentimentName_eqb.
Qed.

Lemma filtered_all (cs : list SentimentCall) (t : string) :
  filteredCalls cs t "all" = filter (matchesSearch t) cs.
Proof.
  unfold filteredCalls. apply filter_ext. intros c.
  unfold matchesFilter. cbn [String.eqb Ascii.eqb Bool.eqb orb andb].
  apply andb_true_r.
Qed.

Lemma filtered_name (cs : list SentimentCall) (t : string) (s : Sentiment) :
  filteredCalls cs t (sentimentName s) =
  filter (fun c => matchesSearch t c && ofSentiment s c) cs.
Proof.
  unfold filteredCalls. apply filter_ext. intros c.
  now rewrite matchesFilter_name.
Qed.

(** X18.  The views of the table.  With an empty search box and the
    filter [all] every call is shown.  The rows under the filter of a
    sentiment are those rows of the [all] view that have the sentiment,
    in the same order; the three sentiment views share no row and make
    up the [all] view. *)
Theorem table_views (cs : list SentimentCall) (searchTerm : string) :
  filteredCalls cs "" "all" = cs /\
  (forall s, filteredCalls cs searchTerm (sentimentName s) =
             filter (ofSentiment s) (filteredCalls cs searchTerm "all")) /\
  List.length (filteredCalls cs searchTerm "all") =
    (List.length (filteredCalls cs searchTerm "positive")
     + List.length (filteredCalls cs searchTerm "neutral")
     + List.length (filteredCalls cs searchTerm "negative"))%nat.
Proof.
  split; [|split].
  - rewrite filtered_all. induction cs as [|c cs IH]; [reflexivity|].
    cbn [filter]. rewrite IH.
    assert (H : matchesSearch "" c = true).
    { unfold matchesSearch. cbn [lower]. rewrite stringIncludes_unfold.
      now rewrite prefix_empty. }
    now rewrite H.
  - intros s. rewrite filtered_all, filtered_name.
    induction cs as [|c cs IH]; [reflexivity|]. cbn [filter].
    destruct (matchesSearch searchTerm c); cbn [andb filter];
      [|exact IH].
    now rewrite IH.
  - change "positive" with (sentimentName positive).
    change "neutral" with (sentimentName neutral).
    change "negative" with (sentimentName negative).
    rewrite filtered_all, !filtered_name. unfold ofSentiment.
    induction cs as [|c cs IH]; [reflexivity|]. cbn [filter].
    destruct (matchesSearch searchTerm c); cbn [andb]; [|exact IH].
    destruct (overallSentiment c); cbn [Sentiment_eqb List.length];
      rewrite IH; lia.
Qed.

(** X19.  Typing further characters into the search box, in front of the
    term or behind it, never adds a row: the rows for the longer term are
    rows of the shorter one, in the same order. *)
Theorem search_narrows (cs : list SentimentCall)
    (pre searchTerm post sentimentFilter : string) :
  filteredCalls cs (pre ++ searchTerm ++ post) sentimentFilter =
  filter (matchesSearch (pre ++ searchTerm ++ post))
         (filteredCalls cs searchTerm sentimentFilter).
Proof.
  unfold filteredCalls. induction cs as [|c cs IH]; [reflexivity|].
  cbn [filter].
  destruct (matchesSearch (pre ++ searchTerm ++ post) c) eqn:Hlong.
  - rewrite (matchesSearch_part pre searchTerm post c Hlong). cbn [andb].
    destruct (matchesFilter sentimentFilter c); cbn [filter].
    + now rewrite Hlong, IH.
    + exact IH.
  - cbn [andb].
    destruct (matchesSearch searchTerm c && matchesFilter sentimentFilter c);
      cbn [filter]; [now rewrite Hlong|]; exact IH.
Qed.

End SentimentTableFacts.
